(** * Cemuhook DSU UDP server: a shallow embedding of [UdpServer]

    The development follows the TypeScript class [UdpServer]
    (src/unnamed/part_002): Node [Buffer]s are lists of bytes, the
    [dgram] socket and the rxjs error subject are an event trace, the
    ES6 [Map] keyed by endpoint objects is an insertion-ordered
    association list compared on object identity, and a JavaScript
    exception is the left injection of a sum. *)

From Stdlib Require Import ZArith Lia Ascii String.
From stdpp Require Import base option list strings gmap.

Local Open Scope Z_scope.

(** ** Errors thrown inside the server's [try] blocks *)

Inductive Error :=
| RangeError                                   (* Buffer read/write out of range *)
| TypeError                                    (* property access on undefined / null *)
| BufferTooSmall (len : nat)                   (* beginPacket *)
| OutdatedProtocol (received : Z)
| NegativePacketSize (received : Z)
| CrcMismatch (received computed : Z)
| PadRequestsOutOfRange (request : Z)
| PadIndexOutOfRange (i : nat) (request : Z).

(** ** Node Buffers *)

Abbreviation Buffer := (list Z).

Module Buf.

(** [Buffer.alloc(n)]: [n] zero bytes. *)
Definition alloc (n : nat) : Buffer := replicate n 0.

(** [buf[i]]: [None] stands for [undefined]. *)
Definition get (b : Buffer) (i : nat) : option Z := b !! i.

(** [buf[i] = v]: the value is reduced to a byte (ToUint8); an index
    past the end is ignored by the typed array. *)
Definition set (i : nat) (v : Z) (b : Buffer) : Buffer :=
  <[i := v mod 256]> b.

(** ToUint32, the coercion done by [>>> 0]. *)
Definition toUint32 (v : Z) : Z := v mod 2 ^ 32.

(** The byte stores shared by both generations of the writers:
    [buf[off] = v; buf[off + 1] = v >>> 8; ...]. *)
Definition store16 (v : Z) (off : nat) (b : Buffer) : Buffer :=
  set (off + 1) (Z.shiftr (toUint32 v) 8) (set off v b).

Definition store32 (v : Z) (off : nat) (b : Buffer) : Buffer :=
  set off v
    (set (off + 1) (Z.shiftr (toUint32 v) 8)
       (set (off + 2) (Z.shiftr (toUint32 v) 16)
          (set (off + 3) (Z.shiftr (toUint32 v) 24) b))).

(** Bounds test of the validating writers: the first and the last byte
    written must both exist. *)
Definition inBounds (off width : nat) (b : Buffer) : bool :=
  (off + width <=? length b)%nat.

Section Writers.

(** Whether the runtime's Buffer writers honour their third argument
    [noAssert] (Node before version 10) or ignore it and always validate
    value and offset (Node 10 and later, which is what the Electron
    release named in package.json embeds). *)
Variable legacyNoAssert : bool.

Definition unchecked (noAssert : bool) : bool := legacyNoAssert && noAssert.

(** [buf.writeUInt16LE(v, off, noAssert)] *)
Definition writeUInt16LE (v : Z) (off : nat) (noAssert : bool) (b : Buffer)
  : Error + Buffer :=
  if unchecked noAssert then inr (store16 v off b)
  else if (0 <=? v) && (v <=? 65535) && inBounds off 2 b
       then inr (store16 v off b) else inl RangeError.

(** [buf.writeUInt32LE(v, off, noAssert)] *)
Definition writeUInt32LE (v : Z) (off : nat) (noAssert : bool) (b : Buffer)
  : Error + Buffer :=
  if unchecked noAssert then inr (store32 v off b)
  else if (0 <=? v) && (v <=? 4294967295) && inBounds off 4 b
       then inr (store32 v off b) else inl RangeError.

(** [buf.writeFloatLE(x, off, noAssert)].  The embedding carries a float
    as the 32-bit pattern of its binary32 rounding, which is what this
    call stores byte by byte; only the offset is validated. *)
Definition writeFloatLE (bits : Z) (off : nat) (noAssert : bool) (b : Buffer)
  : Error + Buffer :=
  if unchecked noAssert then inr (store32 bits off b)
  else if inBounds off 4 b then inr (store32 bits off b) else inl RangeError.

End Writers.

(** [buf.readUInt16LE(off)], [buf.readUInt32LE(off)] and
    [buf.readInt32LE(off)]: called without [noAssert], they throw a
    RangeError when a byte is missing. *)
Definition readUInt16LE (b : Buffer) (off : nat) : Error + Z :=
  match b !! off, b !! (off + 1)%nat with
  | Some b0, Some b1 => inr (b0 + b1 * 2 ^ 8)
  | _, _ => inl RangeError
  end.

Definition readUInt32LE (b : Buffer) (off : nat) : Error + Z :=
  match b !! off, b !! (off + 1)%nat, b !! (off + 2)%nat, b !! (off + 3)%nat with
  | Some b0, Some b1, Some b2, Some b3 =>
      inr (b0 + b1 * 2 ^ 8 + b2 * 2 ^ 16 + b3 * 2 ^ 24)
  | _, _, _, _ => inl RangeError
  end.

Definition readInt32LE (b : Buffer) (off : nat) : Error + Z :=
  match readUInt32LE b off with
  | inr u => inr (if u <? 2 ^ 31 then u else u - 2 ^ 32)
  | inl e => inl e
  end.

(** [buf.fill(value, off)] with a Buffer [value]: from [off] to the
    end, the bytes of [value] repeated.  The server fills with the 8-
    and 16-byte bodies it has just built. *)
Definition fill (value : Buffer) (off : nat) (b : Buffer) : Buffer :=
  imap (fun i x =>
          if bool_decide (i < off)%nat then x
          else default x (value !! ((i - off) mod length value)%nat)) b.

End Buf.

(** ** CRC-32 of the [crc] package

    [crc32] from the npm package [crc] is the reflected CRC-32 of
    IEEE 802.3 (polynomial 0xEDB88320, initial value and final xor
    0xFFFFFFFF), returned as an unsigned 32-bit number.  The package
    uses a table; this is the bit-serial form of the same function. *)

Definition crc32_shift (c : Z) : Z :=
  if Z.odd c then Z.lxor (Z.shiftr c 1) 0xEDB88320 else Z.shiftr c 1.

Definition crc32_update (c byte : Z) : Z :=
  Nat.iter 8 crc32_shift (Z.lxor c byte).

Definition crc32 (data : Buffer) : Z :=
  Buf.toUint32 (Z.lxor (fold_left crc32_update data 0xFFFFFFFF) 0xFFFFFFFF).

(** ** JavaScript strings and numbers

    A [string] is read as a sequence of code units below 256. *)

Module Js.

(** [s.split(":")] *)
Fixpoint split_colon (s : string) : list string :=
  match s with
  | EmptyString => [EmptyString]
  | String c rest =>
      if Ascii.eqb c ":"%char then EmptyString :: split_colon rest
      else match split_colon rest with
           | part :: parts => String c part :: parts
           | [] => [String c EmptyString]
           end
  end.

Definition hexValue (c : ascii) : option Z :=
  let n := Z.of_nat (nat_of_ascii c) in
  if (48 <=? n) && (n <=? 57) then Some (n - 48)
  else if (97 <=? n) && (n <=? 102) then Some (n - 87)
  else if (65 <=? n) && (n <=? 70) then Some (n - 55)
  else None.

(** White space skipped by [parseInt] (TAB, LF, VT, FF, CR, SP, NBSP). *)
Definition isWhiteSpace (c : ascii) : bool :=
  let n := nat_of_ascii c in
  ((9 <=? n) && (n <=? 13) || (n =? 32) || (n =? 160))%nat.

Fixpoint skipWhiteSpace (s : string) : string :=
  match s with
  | String c rest => if isWhiteSpace c then skipWhiteSpace rest else s
  | EmptyString => s
  end.

(** The longest prefix of hexadecimal digits, as a number; [None] when
    there is no digit at all. *)
Fixpoint hexPrefix (s : string) (acc : option Z) : option Z :=
  match s with
  | String c rest =>
      match hexValue c with
      | Some d => hexPrefix rest (Some (default 0 acc * 16 + d))
      | None => acc
      end
  | EmptyString => acc
  end.

Definition stripHexMarker (s : string) : string :=
  match s with
  | String "0" (String "x" rest) => rest
  | String "0" (String "X" rest) => rest
  | _ => s
  end.

(** The nearest double of an integer, ties to even. *)
Definition toDouble (v : Z) : Z :=
  let a := Z.abs v in
  if a <? 2 ^ 53 then v
  else
    let e := Z.log2 a - 52 in
    let q := a / 2 ^ e in
    let r := a mod 2 ^ e in
    let half := 2 ^ (e - 1) in
    let q' := if (half <? r) || ((r =? half) && Z.odd q) then q + 1 else q in
    Z.sgn v * (q' * 2 ^ e).

(** [parseInt(s, 16)]; [None] is NaN. *)
Definition parseInt16 (s : string) : option Z :=
  let s := skipWhiteSpace s in
  let '(sign, s) :=
    match s with
    | String "-" rest => (-1, rest)
    | String "+" rest => (1, rest)
    | _ => (1, s)
    end in
  match hexPrefix (stripHexMarker s) None with
  | Some n => Some (toDouble (sign * n))
  | None => None
  end.

(** The number stored by [buf[i] = x] for a possibly-NaN [x]. *)
Definition numberOrNaN (x : option Z) : Z := default 0 x.

Definition hexDigit (d : Z) : ascii :=
  ascii_of_nat (Z.to_nat (if d <? 10 then 48 + d else 87 + d)).

Fixpoint hexDigits (fuel : nat) (n : Z) (acc : string) : string :=
  match fuel with
  | O => acc
  | S fuel' =>
      let acc' := String (hexDigit (n mod 16)) acc in
      if n / 16 =? 0 then acc' else hexDigits fuel' (n / 16) acc'
  end.

(** [n.toString(16)] for an integer [n]. *)
Definition toString16 (n : Z) : string :=
  let digits := hexDigits (S (Z.to_nat (Z.log2 (Z.abs n)))) (Z.abs n) EmptyString in
  if n <? 0 then String "-" digits else digits.

(** [parts.join(":")] *)
Fixpoint join_colon (parts : list string) : string :=
  match parts with
  | [] => EmptyString
  | [p] => p
  | p :: rest => p +:+ ":" +:+ join_colon rest
  end.

End Js.

(** ** Data model of node-controller-api, as the server reads it *)

Module DualshockMeta.
Record t := mk {
  padId : Z;
  state : Z;
  model : Z;
  connectionType : Z;
  macAddress : string;
  batteryStatus : Z;
  isActive : bool
}.
End DualshockMeta.

Module DPad.
Record t := mk { UP : bool; DOWN : bool; LEFT : bool; RIGHT : bool }.
End DPad.

Module Button.
Record t := mk {
  dPad : DPad.t;
  options : bool; R3 : bool; L3 : bool; share : bool;
  SQUARE : bool; CROSS : bool; CIRCLE : bool; TRIANGLE : bool;
  R1 : bool; L1 : bool; R2 : bool; L2 : bool;
  PS : bool; touch : bool
}.
End Button.

Module Stick.
Record t := mk { x : Z; y : Z }.
End Stick.

Module Position.
Record t := mk { left : Stick.t; right : Stick.t }.
End Position.

Module Trigger.
Record t := mk { R2 : Z; L2 : Z }.
End Trigger.

Module Touch.
Record t := mk { isActive : bool; id : Z; x : Z; y : Z }.
End Touch.

Module TrackPad.
Record t := mk { first : Touch.t; second : Touch.t }.
End TrackPad.

(** The [Long] of the timestamp: two 32-bit halves. *)
Module Long.
Record t := mk { low : Z; high : Z }.
End Long.

(** Three floats, each carried as its binary32 bit pattern. *)
Module Vec3.
Record t := mk { x : Z; y : Z; z : Z }.
End Vec3.

Module DualshockReport.
Record t := mk {
  packetCounter : Z;
  button : Button.t;
  position : Position.t;
  trigger : Trigger.t;
  trackPad : TrackPad.t;
  motionTimestamp : Long.t;
  accelerometer : Vec3.t;
  gyro : Vec3.t
}.
End DualshockReport.

Module DualshockData.
Record t := mk { meta : DualshockMeta.t; report : DualshockReport.t }.
End DualshockData.

(** ** Exceptions as a sum *)

#[global] Instance error_ret : MRet (sum Error) := fun _ x => inr x.
#[global] Instance error_bind : MBind (sum Error) := fun _ _ f m =>
  match m with
  | inl e => inl e
  | inr x => f x
  end.

(** ** Endpoints, client records, controllers *)

(** [AddressInfo] as delivered by [dgram] with each datagram.  [ref] is
    the identity of the JavaScript object: the socket builds a new
    object for every datagram it delivers. *)
Record AddressInfo := mkAddressInfo {
  ref : nat;
  address : string;
  family : string;
  port : Z
}.

(** The fields of [ClientRequestTimes] read by [getClientsForReport]. *)
Record ClientRequestTimes := mkClientRequestTimes {
  timeForAllPads : Z;
  timeForPadById : list Z;
  timeForPadByMac : gmap string Z
}.

(** [Map<AddressInfo, V>]: entries in insertion order; keys are objects,
    so they are compared by identity (SameValueZero). *)
Module JsMap.
Section Ops.
Context {V : Type}.

Definition sameKey (k k' : AddressInfo) : bool := (ref k =? ref k')%nat.

Definition has (k : AddressInfo) (m : list (AddressInfo * V)) : bool :=
  existsb (fun e => sameKey k (fst e)) m.

Fixpoint get (k : AddressInfo) (m : list (AddressInfo * V)) : option V :=
  match m with
  | [] => None
  | (k', v) :: rest => if sameKey k k' then Some v else get k rest
  end.

Fixpoint set (k : AddressInfo) (v : V) (m : list (AddressInfo * V))
  : list (AddressInfo * V) :=
  match m with
  | [] => [(k, v)]
  | (k', v') :: rest =>
      if sameKey k k' then (k', v) :: rest else (k', v') :: set k v rest
  end.

Definition delete (k : AddressInfo) (m : list (AddressInfo * V))
  : list (AddressInfo * V) :=
  List.filter (fun e => negb (sameKey k (fst e))) m.

(** The invariant of a Map: no two entries under the same key. *)
Definition wf (m : list (AddressInfo * V)) : Prop :=
  NoDup (List.map (fun e => ref (fst e)) m).
End Ops.
End JsMap.

(** A controller as the server sees it: [dualShockMeta] is the current
    value of the getter, [None] for [null]. *)
Record GenericDualshockController := mkController {
  deviceId : nat;
  dualShockMeta : option DualshockMeta.t
}.

(** An entry of the slot table; [subscription] names the rxjs
    [Subscription] created for the slot. *)
Record ControllerSlot := mkSlot {
  device : GenericDualshockController;
  subscription : nat
}.

(** ** Observable effects *)

Inductive Event :=
| EvAlloc (size : nat)                                   (* Buffer.alloc *)
| EvSend (buffer : Buffer) (toPort : Z) (toAddress : string)  (* socket.send *)
| EvError (e : Error)                                    (* errorSubject.next *)
| EvUnsubscribe (sub : nat).                             (* subscription.unsubscribe *)

(** ** The server object *)

Record UdpServer := mkUdpServer {
  socket : option nat;
  serverId : Z;
  controllers : list (option ControllerSlot);
  clients : list (AddressInfo * ClientRequestTimes)
}.

Definition with_socket (s : option nat) (srv : UdpServer) : UdpServer :=
  mkUdpServer s (serverId srv) (controllers srv) (clients srv).

Definition with_controllers (c : list (option ControllerSlot)) (srv : UdpServer)
  : UdpServer :=
  mkUdpServer (socket srv) (serverId srv) c (clients srv).

Definition with_clients (c : list (AddressInfo * ClientRequestTimes))
  (srv : UdpServer) : UdpServer :=
  mkUdpServer (socket srv) (serverId srv) (controllers srv) c.

(** [randomJS().integer(0, 4294967296)]: random-js draws from the
    inclusive range, so these are the values the field initialiser can
    produce. *)
Definition serverIdDraw (z : Z) : Prop := 0 <= z <= 4294967296.

(** The field initialisers of the class, for a given draw. *)
Definition newUdpServer (draw : Z) : UdpServer :=
  mkUdpServer None draw (replicate 4 None) [].

(** [stop()]: closes and forgets the socket.  [start()]: stops, then
    creates socket [sock] and binds it. *)
Definition stop (srv : UdpServer) : UdpServer := with_socket None srv.

Definition start (sock : nat) (srv : UdpServer) : UdpServer :=
  with_socket (Some sock) (stop srv).

(** ** Operations over the server and its effects

    A method body runs over the server object and the trace of effects;
    a thrown error leaves both as they were at the throw. *)

Record World := mkWorld { server : UdpServer; trace : list Event }.

Definition Op (A : Type) : Type := World -> (Error + A) * World.

#[global] Instance op_ret : MRet Op := fun _ x w => (inr x, w).
#[global] Instance op_bind : MBind Op := fun _ _ f m w =>
  match m w with
  | (inl e, w') => (inl e, w')
  | (inr x, w') => f x w'
  end.

Definition throw {A} (e : Error) : Op A := fun w => (inl e, w).

Definition lift {A} (r : Error + A) : Op A := fun w => (r, w).

Definition emit (ev : Event) : Op unit :=
  fun w => (inr tt, mkWorld (server w) (trace w ++ [ev])).

Definition getServer : Op UdpServer := fun w => (inr (server w), w).

Definition putServer (srv : UdpServer) : Op unit :=
  fun w => (inr tt, mkWorld srv (trace w)).

(** [try { body } catch (error) { errorSubject.next(error) }] *)
Definition tryCatch (body : Op unit) (srv : UdpServer) : UdpServer * list Event :=
  match body (mkWorld srv []) with
  | (inl e, w) => (server w, trace w ++ [EvError e])
  | (inr _, w) => (server w, trace w)
  end.

Fixpoint forEach {A} (l : list A) (body : A -> Op unit) : Op unit :=
  match l with
  | [] => mret tt
  | a :: rest => body a ≫= fun _ => forEach rest body
  end.

(** ** Filling a buffer through a moving index

    [handleReport] and the port-info reply write through the local
    variables [outBuffer] and [outIndex]; a step is one statement over
    the two. *)

Record Out := mkOut { outBuffer : Buffer; outIndex : nat }.

Definition Step : Type := Out -> Error + Out.

Definition runSteps (steps : list Step) (o : Out) : Error + Out :=
  fold_left (fun acc step => acc ≫= step) steps (inr o).

(** [outBuffer[outIndex++] = v] *)
Definition storePost (v : Z) : Step := fun o =>
  inr (mkOut (Buf.set (outIndex o) v (outBuffer o)) (S (outIndex o))).

(** [outBuffer[++outIndex] = v] *)
Definition storePre (v : Z) : Step := fun o =>
  inr (mkOut (Buf.set (S (outIndex o)) v (outBuffer o)) (S (outIndex o))).

(** [outBuffer[outIndex] = v] *)
Definition storeHere (v : Z) : Step := fun o =>
  inr (mkOut (Buf.set (outIndex o) v (outBuffer o)) (outIndex o)).

(** [if (c) { outBuffer[outIndex] |= mask; }] *)
Definition orHere (c : bool) (mask : Z) : Step := fun o =>
  if c then
    inr (mkOut (Buf.set (outIndex o)
                  (Z.lor (default 0 (Buf.get (outBuffer o) (outIndex o))) mask)
                  (outBuffer o))
           (outIndex o))
  else inr o.

(** [outIndex += n] *)
Definition advance (n : nat) : Step := fun o =>
  inr (mkOut (outBuffer o) (outIndex o + n)).

Definition flag (c : bool) (v : Z) : Z := if c then v else 0.

(** ** Sample inputs

    Concrete values used to run the definitions: the constants of the
    DSU reference ([MaxProtocolVer] 1001, message codes 0x100000 to
    0x100002, a five-second [ClientTimeoutLimit]), a few endpoints,
    controllers and datagrams. *)

Definition sampleMaxProtocolVer : Z := 1001.
Definition sampleTimeout : Z := 5000.
Definition sampleVersion : Z := 0x100000.
Definition sampleListPorts : Z := 0x100001.
Definition samplePadData : Z := 0x100002.

(** Modelled from the spec: the constructor of ClientRequestTimes, whose
    file (client-request-times) is not under src/.  Section 3 gives the
    record an all-pads stamp, four per-pad stamps and a per-MAC table,
    each "never" at first; the comparisons of [getClientsForReport] need
    numbers, so "never" is the epoch 0. *)
Definition specNewClientRequestTimes : ClientRequestTimes :=
  mkClientRequestTimes 0 (replicate 4 0) ∅.

(** Modelled from the spec: ClientRequestTimes.registerPadRequest, whose
    file is not under src/.  Section 4.5: bit 0 of the flags stamps the
    per-pad entry, bit 1 the per-MAC entry, no bit the all-pads stamp;
    section 4.2: the per-pad stamp is set when the pad id is in 0..3. *)
Definition specRegisterPadRequest (now : Z) (registrationFlags idToRegister : option Z)
  (mac : string) (times : ClientRequestTimes) : ClientRequestTimes :=
  let flags := default 0 registrationFlags in
  let allPads := if flags =? 0 then now else timeForAllPads times in
  let byId :=
    match idToRegister with
    | Some padId =>
        if Z.testbit flags 0 && (0 <=? padId) && (padId <? 4)
        then <[Z.to_nat padId := now]> (timeForPadById times)
        else timeForPadById times
    | None => timeForPadById times
    end in
  let byMac :=
    if Z.testbit flags 1 then <[mac := now]> (timeForPadByMac times)
    else timeForPadByMac times in
  mkClientRequestTimes allPads byId byMac.

(** A client datagram with its checksum filled in. *)
Definition sealed (d : Buffer) : Buffer := Buf.store32 (crc32 d) 8 d.

(** Header of a client datagram: magic, version, length, cleared
    checksum, client id 0x12345678, then the message type. *)
Definition clientHeader (magic4 : Z) (version : Z) (msgType : Z) (body : list Z)
  : Buffer :=
  Buf.store32 msgType 16
    (Buf.store32 0x12345678 12
       (Buf.store16 (Z.of_nat (length body) + 4) 6
          (Buf.store16 version 4
             ([68; 83; 85; magic4] ++ replicate 16 0 ++ body)))).

Definition sampleVersionReq : Buffer :=
  sealed (clientHeader 67 1001 sampleVersion []).

(** The same request with the magic of a server datagram. *)
Definition sampleBadMagic : Buffer :=
  sealed (clientHeader 83 1001 sampleVersion []).

Definition sampleTooNew : Buffer :=
  sealed (clientHeader 67 1002 sampleVersion []).

(** ListPorts for one pad, slot 0; the same asking for slot 7; and one
    announcing five pads. *)
Definition sampleListPortsReq : Buffer :=
  sealed (clientHeader 67 1001 sampleListPorts [1; 0; 0; 0; 0]).

Definition sampleListPortsBadIndex : Buffer :=
  sealed (clientHeader 67 1001 sampleListPorts [1; 0; 0; 0; 7]).

Definition sampleListPortsBadCount : Buffer :=
  sealed (clientHeader 67 1001 sampleListPorts [5; 0; 0; 0; 0; 1; 2; 3; 0]).

(** A version request with one bit of its client id flipped after
    sealing. *)
Definition sampleTampered : Buffer := <[12%nat := 0x79]> sampleVersionReq.

(** PadDataReq: flags 2 (by MAC), id 0, MAC 0f:0f:0f:0f:0f:0f. *)
Definition samplePadDataReq : Buffer :=
  sealed (clientHeader 67 1001 samplePadData [2; 0; 15; 15; 15; 15; 15; 15]).

(** Two endpoint objects for the same peer, as two datagrams deliver
    them, and one for another peer. *)
Definition peerFirst : AddressInfo := mkAddressInfo 1%nat "127.0.0.1" "IPv4" 50000.
Definition peerAgain : AddressInfo := mkAddressInfo 2%nat "127.0.0.1" "IPv4" 50000.
Definition peerOther : AddressInfo := mkAddressInfo 3%nat "10.0.0.7" "IPv4" 50001.

Definition sampleMeta : DualshockMeta.t :=
  DualshockMeta.mk 1 2 2 1 "11:22:33:44:55:66" 5 true.

Definition sampleReport : DualshockReport.t :=
  DualshockReport.mk 9
    (Button.mk (DPad.mk false false true false)
       false false false false false true false false false false false false
       false false)
    (Position.mk (Stick.mk 128 127) (Stick.mk 10 200))
    (Trigger.mk 33 44)
    (TrackPad.mk (Touch.mk true 7 0x1234 0x0102) (Touch.mk false 0 0 0))
    (Long.mk (-2) 1)
    (Vec3.mk 0x3F800000 0 0) (Vec3.mk 0 0 0xBF800000).

Definition sampleData : DualshockData.t := DualshockData.mk sampleMeta sampleReport.

Definition slotA : ControllerSlot := mkSlot (mkController 100%nat (Some sampleMeta)) 10%nat.
Definition slotB : ControllerSlot := mkSlot (mkController 101%nat None) 11%nat.
Definition slotC : ControllerSlot := mkSlot (mkController 102%nat None) 12%nat.
Definition slotD : ControllerSlot := mkSlot (mkController 103%nat None) 13%nat.

(** A started server with four controllers and no client. *)
Definition sampleServer : UdpServer :=
  mkUdpServer (Some 1%nat) 0xCAFE [Some slotA; Some slotB; Some slotC; Some slotD] [].

(** Stamps of three clients seen at time 10000 with a 5000 limit: one
    asked for all pads at 9000, one for pad 1 at 7000, one went stale. *)
Definition timesAll : ClientRequestTimes := mkClientRequestTimes 9000 [0; 0; 0; 0] ∅.
Definition timesPad1 : ClientRequestTimes := mkClientRequestTimes 0 [0; 7000; 0; 0] ∅.
Definition timesStale : ClientRequestTimes :=
  mkClientRequestTimes 100 [0; 0; 200; 0] {[ "11:22:33:44:55:66" := 300 ]}.

Definition sampleBusyServer : UdpServer :=
  mkUdpServer (Some 1%nat) 0xCAFE [Some slotA; None; None; None]
    [(peerFirst, timesAll); (peerOther, timesStale); (peerAgain, timesPad1)].


(** A sealed datagram of a message type the server does not know. *)
Definition sampleUnknownType : Buffer :=
  sealed (clientHeader 67 1001 0x100003 []).

(** A PadDataReq cut after the fourth MAC byte: 26 bytes. *)
Definition sampleShortPadDataReq : Buffer :=
  sealed (clientHeader 67 1001 samplePadData [2; 0; 15; 15; 15; 15]).

(** PadDataReq for all pads: flags 0. *)
Definition samplePadDataReqAll : Buffer :=
  sealed (clientHeader 67 1001 samplePadData [0; 0; 0; 0; 0; 0; 0; 0]).

(** The sample report with touch 1 at X 70000, which 16 bits do not
    hold. *)
Definition sampleWideReport : DualshockReport.t :=
  DualshockReport.mk 9
    (DualshockReport.button sampleReport)
    (DualshockReport.position sampleReport)
    (DualshockReport.trigger sampleReport)
    (TrackPad.mk (Touch.mk true 7 70000 0x0102) (Touch.mk false 0 0 0))
    (DualshockReport.motionTimestamp sampleReport)
    (DualshockReport.accelerometer sampleReport)
    (DualshockReport.gyro sampleReport).

Definition sampleWideData : DualshockData.t :=
  DualshockData.mk sampleMeta sampleWideReport.

(** A started server whose only client went stale. *)
Definition sampleStaleServer : UdpServer :=
  mkUdpServer (Some 1%nat) 0xCAFE [Some slotA; None; None; None]
    [(peerOther, timesStale)].
Section Server.

Set Default Proof Using "Type".

(** The runtime generation of the Buffer writers (see [Buf.unchecked]). *)
Variable legacyNoAssert : bool.

(** [UdpServerDefaults] and [UdpServerMessage] of the models module. *)
Variable MaxProtocolVer : Z.
Variable ClientTimeoutLimit : Z.
Variable DSUC_VersionReq : Z.
Variable DSUS_VersionRsp : Z.
Variable DSUC_ListPorts : Z.
Variable DSUS_PortInfo : Z.
Variable DSUC_PadDataReq : Z.
Variable DSUS_PadDataRsp : Z.

(** [new ClientRequestTimes()] and
    [times.registerPadRequest(registrationFlags, idToRegister, mac)] of
    client-request-times; the first argument is the clock the method
    reads, an absent byte is [None]. *)
Variable newClientRequestTimes : ClientRequestTimes.
Variable registerPadRequest :
  Z -> option Z -> option Z -> string -> ClientRequestTimes -> ClientRequestTimes.

(** [outBuffer.writeUInt16LE(v, outIndex, true)] and its siblings. *)
Definition u16Here (v : Z) : Step := fun o =>
  b ← Buf.writeUInt16LE legacyNoAssert v (outIndex o) true (outBuffer o);
  mret (mkOut b (outIndex o)).

Definition u32Here (v : Z) : Step := fun o =>
  b ← Buf.writeUInt32LE legacyNoAssert v (outIndex o) true (outBuffer o);
  mret (mkOut b (outIndex o)).

Definition f32Here (bits : Z) : Step := fun o =>
  b ← Buf.writeFloatLE legacyNoAssert bits (outIndex o) true (outBuffer o);
  mret (mkOut b (outIndex o)).

(** *** removeController, addController, clearClients *)

Definition removeControllerAt (index : Z) (srv : UdpServer)
  : UdpServer * list Event :=
  if (index >? 0) && (index <? Z.of_nat (length (controllers srv))) then
    match controllers srv !! Z.to_nat index with
    | Some (Some slot) =>
        (with_controllers (<[Z.to_nat index := None]> (controllers srv)) srv,
         [EvUnsubscribe (subscription slot)])
    | _ => (srv, [])
    end
  else (srv, []).

(** [removeController(index?)]; [None] is a call without argument. *)
Definition removeController (index : option Z) (srv : UdpServer)
  : UdpServer * list Event :=
  match index with
  | None =>
      fold_left
        (fun acc i =>
           let '(srv', evs) := removeControllerAt (Z.of_nat i) (fst acc) in
           (srv', snd acc ++ evs))
        (seq 0 (length (controllers srv))) (srv, [])
  | Some i => removeControllerAt i srv
  end.

Fixpoint firstNull (slots : list (option ControllerSlot)) (i : nat) : option nat :=
  match slots with
  | [] => None
  | None :: _ => Some i
  | Some _ :: rest => firstNull rest (S i)
  end.

(** [addController(controller)]; [sub] names the Subscription it creates. *)
Definition addController (controller : GenericDualshockController) (sub : nat)
  (srv : UdpServer) : bool * UdpServer :=
  match firstNull (controllers srv) 0 with
  | Some i =>
      (true, with_controllers (<[i := Some (mkSlot controller sub)]> (controllers srv)) srv)
  | None => (false, srv)
  end.

Definition clearClients (srv : UdpServer) : UdpServer := with_clients [] srv.

(** *** beginPacket, finishPacket, sendPacket *)

Definition beginPacket (srvId : Z) (data : Buffer) (protocolVer : Z)
  : Error + (Buffer * nat) :=
  if (16 <=? length data)%nat then
    let data := Buf.set 0 68 data in
    let data := Buf.set 1 83 data in
    let data := Buf.set 2 85 data in
    let data := Buf.set 3 83 data in
    data ← Buf.writeUInt16LE legacyNoAssert protocolVer 4 true data;
    data ← Buf.writeUInt16LE legacyNoAssert (Z.of_nat (length data) - 16) 6 true data;
    data ← Buf.writeUInt32LE legacyNoAssert 0 8 true data;
    data ← Buf.writeUInt32LE legacyNoAssert srvId 12 true data;
    mret (data, 16%nat)
  else inl (BufferTooSmall (length data)).

Definition finishPacket (data : Buffer) : Error + Buffer :=
  Buf.writeUInt32LE legacyNoAssert (crc32 data) 8 true data.

(** [socket.send] is recorded when it is issued; what its completion
    callback reports later (a transport error, a short write) comes from
    the network and is not part of the embedding. *)
Definition sendPacket (clientEndpoint : AddressInfo) (data : Buffer)
  (protocolVer : Z) : Op unit :=
  emit (EvAlloc (length data + 16)) ≫= fun _ =>
  srv ← getServer;
  '(buffer, index) ← lift (beginPacket (serverId srv)
                             (Buf.alloc (length data + 16)) protocolVer);
  buffer ← lift (finishPacket (Buf.fill data index buffer));
  match socket srv with
  | Some _ => emit (EvSend buffer (port clientEndpoint) (address clientEndpoint))
  | None => throw TypeError
  end.

(** *** handleReport: the pad-data datagram *)

(** [meta.macAddress.split(":").map((part) => parseInt(part, 16))] *)
Definition macParts (mac : string) : list Z :=
  List.map (fun part => Js.numberOrNaN (Js.parseInt16 part)) (Js.split_colon mac).

(** The statements of [handleReport] from the message type to the
    analog triggers, in source order. *)
Definition padDataButtons (meta : DualshockMeta.t) (report : DualshockReport.t)
  : list Step :=
  let button := DualshockReport.button report in
  let dPad := Button.dPad button in
  [ u32Here DSUS_PadDataRsp; advance 4;
    storePost (DualshockMeta.padId meta);
    storePost (DualshockMeta.state meta);
    storePost (DualshockMeta.model meta);
    storePost (DualshockMeta.connectionType meta) ]
  ++ List.map storePost (macParts (DualshockMeta.macAddress meta))
  ++ [ storePost (DualshockMeta.batteryStatus meta);
       storePost (flag (DualshockMeta.isActive meta) 1);
       u32Here (DualshockReport.packetCounter report); advance 4;
       storeHere 0;
       orHere (DPad.LEFT dPad) 128;
       orHere (DPad.DOWN dPad) 64;
       orHere (DPad.RIGHT dPad) 32;
       orHere (DPad.UP dPad) 16;
       orHere (Button.options button) 8;
       orHere (Button.R3 button) 4;
       orHere (Button.L3 button) 2;
       orHere (Button.share button) 1;
       storePre 0;
       orHere (Button.SQUARE button) 128;
       orHere (Button.CROSS button) 64;
       orHere (Button.CIRCLE button) 32;
       orHere (Button.TRIANGLE button) 16;
       orHere (Button.R1 button) 8;
       orHere (Button.L1 button) 4;
       orHere (Button.R2 button) 2;
       orHere (Button.L2 button) 1;
       storePre (flag (Button.PS button) 1);
       storePre (flag (Button.touch button) 1);
       storePre (Stick.x (Position.left (DualshockReport.position report)));
       storePre (Stick.y (Position.left (DualshockReport.position report)));
       storePre (Stick.x (Position.right (DualshockReport.position report)));
       storePre (Stick.y (Position.right (DualshockReport.position report)));
       storePre (flag (DPad.LEFT dPad) 255);
       storePre (flag (DPad.DOWN dPad) 255);
       storePre (flag (DPad.RIGHT dPad) 255);
       storePre (flag (DPad.UP dPad) 255);
       storePre (flag (Button.SQUARE button) 255);
       storePre (flag (Button.CROSS button) 255);
       storePre (flag (Button.CIRCLE button) 255);
       storePre (flag (Button.TRIANGLE button) 255);
       storePre (flag (Button.R1 button) 255);
       storePre (flag (Button.L1 button) 255);
       storePre (Trigger.R2 (DualshockReport.trigger report));
       storePre (Trigger.L2 (DualshockReport.trigger report)) ].

(** The statements that follow, from [outIndex++] to the last float:
    the two touches, the motion timestamp, accelerometer and gyro. *)
Definition padDataMotion (report : DualshockReport.t) : list Step :=
  let first := TrackPad.first (DualshockReport.trackPad report) in
  let second := TrackPad.second (DualshockReport.trackPad report) in
  [ advance 1;
    storePost (flag (Touch.isActive first) 1);
    storePost (Touch.id first);
    u16Here (Touch.x first); advance 2;
    u16Here (Touch.y first); advance 2;
    storePost (flag (Touch.isActive second) 1);
    storePost (Touch.id second);
    u16Here (Touch.x second); advance 2;
    u16Here (Touch.y second); advance 2;
    u32Here (Buf.toUint32 (Long.low (DualshockReport.motionTimestamp report)));
    advance 4;
    u32Here (Buf.toUint32 (Long.high (DualshockReport.motionTimestamp report)));
    advance 4;
    f32Here (Vec3.x (DualshockReport.accelerometer report)); advance 4;
    f32Here (Vec3.y (DualshockReport.accelerometer report)); advance 4;
    f32Here (Vec3.z (DualshockReport.accelerometer report)); advance 4;
    f32Here (Vec3.x (DualshockReport.gyro report)); advance 4;
    f32Here (Vec3.y (DualshockReport.gyro report)); advance 4;
    f32Here (Vec3.z (DualshockReport.gyro report)); advance 4 ].

Definition padDataSteps (meta : DualshockMeta.t) (report : DualshockReport.t)
  : list Step :=
  padDataButtons meta report ++ padDataMotion report.

(** From [Buffer.alloc(100)] to [finishPacket(outBuffer)]. *)
Definition padDataPacket (srvId : Z) (data : DualshockData.t) : Error + Buffer :=
  '(buffer, index) ← beginPacket srvId (Buf.alloc 100) 1001;
  out ← runSteps (padDataSteps (DualshockData.meta data) (DualshockData.report data))
          (mkOut buffer index);
  finishPacket (outBuffer out).

(** *** getClientsForReport *)

(** [currentTime - time < UdpServerDefaults.ClientTimeoutLimit] *)
Definition fresh (currentTime time : Z) : bool :=
  currentTime - time <? ClientTimeoutLimit.

(** [array[i]] for a number [i]. *)
Definition indexZ {A} (l : list A) (i : Z) : option A :=
  if i <? 0 then None else l !! Z.to_nat i.

Definition freshOpt (currentTime : Z) (time : option Z) : bool :=
  match time with
  | Some t => fresh currentTime t
  | None => false
  end.

(** One round of the loop over [this.clients]: the two accumulators are
    [clients] and [clientsToDelete]. *)
Definition sweepEntry (meta : DualshockMeta.t) (currentTime : Z)
  (acc : list AddressInfo * list AddressInfo)
  (entry : AddressInfo * ClientRequestTimes)
  : list AddressInfo * list AddressInfo :=
  let '(found, toDelete) := acc in
  let '(info, times) := entry in
  if fresh currentTime (timeForAllPads times) then (found ++ [info], toDelete)
  else if (DualshockMeta.padId meta <? Z.of_nat (length (timeForPadById times)))
          && freshOpt currentTime (indexZ (timeForPadById times) (DualshockMeta.padId meta))
  then (found ++ [info], toDelete)
  else if bool_decide (is_Some (timeForPadByMac times !! DualshockMeta.macAddress meta))
          && freshOpt currentTime (timeForPadByMac times !! DualshockMeta.macAddress meta)
  then (found ++ [info], toDelete)
  else
    let isClientOk := existsb (fresh currentTime) (timeForPadById times) in
    if negb isClientOk then
      let isClientOk :=
        existsb (fun e => fresh currentTime (snd e))
          (map_to_list (timeForPadByMac times)) in
      if negb isClientOk then (found, toDelete ++ [info]) else (found, toDelete)
    else (found, toDelete).

Definition getClientsForReport (meta : DualshockMeta.t) (currentTime : Z)
  (srv : UdpServer) : list AddressInfo * UdpServer :=
  let '(found, toDelete) :=
    fold_left (sweepEntry meta currentTime) (clients srv) ([], []) in
  (found,
   with_clients (fold_left (fun m client => JsMap.delete client m) toDelete (clients srv))
     srv).

(** [handleReport(data)] at clock reading [now]. *)
Definition handleReport (now : Z) (data : DualshockData.t) (srv : UdpServer)
  : UdpServer * list Event :=
  tryCatch
    (srv ← getServer;
     match socket srv with
     | None => mret tt
     | Some _ =>
         let '(found, srv') := getClientsForReport (DualshockData.meta data) now srv in
         putServer srv' ≫= fun _ =>
         if (0 <? length found)%nat then
           emit (EvAlloc 100) ≫= fun _ =>
           packet ← lift (padDataPacket (serverId srv') data);
           forEach found (fun client =>
             emit (EvSend packet (port client) (address client)))
         else mret tt
     end)
    srv.

(** *** onMessage *)

(** [data[i] === v] *)
Definition byteIs (data : Buffer) (i : nat) (v : Z) : bool :=
  match Buf.get data i with
  | Some x => x =? v
  | None => false
  end.

(** [data[i] > 3]; [undefined > 3] is false. *)
Definition byteAbove3 (data : Buffer) (i : nat) : bool :=
  match Buf.get data i with
  | Some x => x >? 3
  | None => false
  end.

Definition magicDSUC (data : Buffer) : bool :=
  byteIs data 0 68 && byteIs data 1 83 && byteIs data 2 85 && byteIs data 3 67.

(** The four stores [data[index++] = 0] over the checksum field. *)
Definition clearCrc (data : Buffer) : Buffer :=
  Buf.set 11 0 (Buf.set 10 0 (Buf.set 9 0 (Buf.set 8 0 data))).

(** The first loop of the ListPorts branch. *)
Fixpoint checkPadIndices (data : Buffer) (index : nat) (rounds : list nat) : Error + unit :=
  match rounds with
  | [] => inr tt
  | i :: rest =>
      if byteAbove3 data (index + i)
      then inl (PadIndexOutOfRange i (default 0 (Buf.get data (index + i))))
      else checkPadIndices data index rest
  end.

(** The body written into the shared 16-byte [outBuffer] for one pad.
    [macAddress] is a string here, so of the test
    [meta.macAddress !== null && meta.macAddress.length === 17] only the
    length remains. *)
Definition portInfoSteps (meta : DualshockMeta.t) : list Step :=
  [ storePost (DualshockMeta.padId meta);
    storePost (DualshockMeta.state meta);
    storePost (DualshockMeta.model meta);
    storePost (DualshockMeta.connectionType meta) ]
  ++ (if (String.length (DualshockMeta.macAddress meta) =? 17)%nat
      then List.map storePost (macParts (DualshockMeta.macAddress meta))
      else replicate 6 (storePost 0))
  ++ [ storePost (DualshockMeta.batteryStatus meta); storePost 0 ].

Definition portInfo (shared : Buffer) (meta : DualshockMeta.t) : Error + Buffer :=
  b ← Buf.writeUInt32LE legacyNoAssert DSUS_PortInfo 0 true shared;
  out ← runSteps (portInfoSteps meta) (mkOut b 4);
  mret (outBuffer out).

(** The second loop of the ListPorts branch; [outBuffer] is allocated
    once and reused by every round. *)
Fixpoint listPortsLoop (data : Buffer) (clientEndpoint : AddressInfo)
  (index : nat) (rounds : list nat) (outBuffer : Buffer) : Op unit :=
  match rounds with
  | [] => mret tt
  | i :: rest =>
      srv ← getServer;
      let controller :=
        match Buf.get data (index + i) with
        | Some requestIndex => mjoin (indexZ (controllers srv) requestIndex)
        | None => None
        end in
      match controller ≫= fun c => dualShockMeta (device c) with
      | Some meta =>
          filled ← lift (portInfo outBuffer meta);
          sendPacket clientEndpoint filled 1001 ≫= fun _ =>
          listPortsLoop data clientEndpoint index rest filled
      | None => listPortsLoop data clientEndpoint index rest outBuffer
      end
  end.

(** One group of the MAC key:
    [`${data[index] < 15 ? "0" : ""}${data[index].toString(16)}`]. *)
Definition macGroup (byte : option Z) : Error + string :=
  match byte with
  | Some x => inr ((if x <? 15 then "0" else "") +:+ Js.toString16 x)
  | None => inl TypeError
  end.

Fixpoint macGroups (data : Buffer) (index : nat) (count : nat) : Error + list string :=
  match count with
  | O => inr []
  | S count' =>
      g ← macGroup (Buf.get data index);
      gs ← macGroups data (S index) count';
      mret (g :: gs)
  end.

(** The last two statements of the PadDataReq branch: create the
    client's record when the Map has none under this key, then stamp the
    record found under the key. *)
Definition registerClient (now : Z) (clientEndpoint : AddressInfo)
  (registrationFlags idToRRegister : option Z) (macToRegister : string) : Op unit :=
  srv ← getServer;
  let registry :=
    if JsMap.has clientEndpoint (clients srv) then clients srv
    else JsMap.set clientEndpoint newClientRequestTimes (clients srv) in
  match JsMap.get clientEndpoint registry with
  | Some times =>
      putServer
        (with_clients
           (JsMap.set clientEndpoint
              (registerPadRequest now registrationFlags idToRRegister
                 macToRegister times)
              registry)
           srv)
  | None => throw TypeError
  end.

(** The body of the [try] block of [onMessage]. *)
Definition onMessageBody (now : Z) (data : Buffer) (clientEndpoint : AddressInfo)
  : Op unit :=
  if magicDSUC data then
    protocolVer ← lift (Buf.readUInt16LE data 4);
    if protocolVer >? MaxProtocolVer then throw (OutdatedProtocol protocolVer) else
    packetSize ← lift (Buf.readUInt16LE data 6);
    if packetSize <? 0 then throw (NegativePacketSize packetSize) else
    receivedCrc ← lift (Buf.readUInt32LE data 8);
    let data := clearCrc data in
    let computedCrc := crc32 data in
    if negb (receivedCrc =? computedCrc)
    then throw (CrcMismatch receivedCrc computedCrc) else
    clientId ← lift (Buf.readUInt32LE data 12);
    msgType ← lift (Buf.readUInt32LE data 16);
    if msgType =? DSUC_VersionReq then
      emit (EvAlloc 8) ≫= fun _ =>
      outBuffer ← lift (Buf.writeUInt32LE legacyNoAssert DSUS_VersionRsp 0 true
                          (Buf.alloc 8));
      outBuffer ← lift (Buf.writeUInt32LE legacyNoAssert MaxProtocolVer 4 true
                          outBuffer);
      sendPacket clientEndpoint outBuffer 1001
    else if msgType =? DSUC_ListPorts then
      numOfPadRequests ← lift (Buf.readInt32LE data 20);
      if (numOfPadRequests <? 0) || (numOfPadRequests >? 4)
      then throw (PadRequestsOutOfRange numOfPadRequests) else
      lift (checkPadIndices data 24 (seq 0 (Z.to_nat numOfPadRequests))) ≫= fun _ =>
      emit (EvAlloc 16) ≫= fun _ =>
      listPortsLoop data clientEndpoint 24 (seq 0 (Z.to_nat numOfPadRequests))
        (Buf.alloc 16)
    else if msgType =? DSUC_PadDataReq then
      let registrationFlags := Buf.get data 20 in
      let idToRRegister := Buf.get data 21 in
      groups ← lift (macGroups data 22 6);
      let macToRegister := Js.join_colon groups in
      registerClient now clientEndpoint registrationFlags idToRRegister macToRegister
    else mret tt
  else mret tt.

Definition onMessage (now : Z) (data : Buffer) (clientEndpoint : AddressInfo)
  (srv : UdpServer) : UdpServer * list Event :=
  tryCatch (onMessageBody now data clientEndpoint) srv.

(** *** What the claims speak about *)

(** The datagrams handed to [socket.send], in order. *)
Definition sentBuffers (evs : list Event) : list Buffer :=
  omap (fun ev => match ev with EvSend b _ _ => Some b | _ => None end) evs.

(** The checksum property of an outbound datagram: the little-endian
    word at offset 8 is the CRC-32 of the datagram with that word
    cleared. *)
Definition crcOk (D : Buffer) : Prop :=
  Buf.readUInt32LE D 8 = inr (crc32 (clearCrc D)).

(** A client is interested in a report when its all-pads stamp, its
    stamp for the report's pad or its stamp for the report's MAC is
    fresh. *)
Definition interested (meta : DualshockMeta.t) (now : Z) (times : ClientRequestTimes)
  : Prop :=
  fresh now (timeForAllPads times) = true
  ∨ (∃ t, indexZ (timeForPadById times) (DualshockMeta.padId meta) = Some t
          ∧ fresh now t = true)
  ∨ (∃ t, timeForPadByMac times !! DualshockMeta.macAddress meta = Some t
          ∧ fresh now t = true).

(** A client has a fresh stamp when any of its stamps is fresh. *)
Definition hasFreshStamp (now : Z) (times : ClientRequestTimes) : Prop :=
  fresh now (timeForAllPads times) = true
  ∨ (∃ i t, timeForPadById times !! i = Some t ∧ fresh now t = true)
  ∨ (∃ mac t, timeForPadByMac times !! mac = Some t ∧ fresh now t = true).

(** The same two notions as the decision procedures used to select
    entries. *)
Definition interestedb (meta : DualshockMeta.t) (now : Z) (times : ClientRequestTimes)
  : bool :=
  fresh now (timeForAllPads times)
  || freshOpt now (indexZ (timeForPadById times) (DualshockMeta.padId meta))
  || freshOpt now (timeForPadByMac times !! DualshockMeta.macAddress meta).

Definition hasFreshStampb (now : Z) (times : ClientRequestTimes) : bool :=
  fresh now (timeForAllPads times)
  || existsb (fresh now) (timeForPadById times)
  || existsb (fun e => fresh now (snd e)) (map_to_list (timeForPadByMac times)).


(** The ways in which a datagram that carries the client magic is
    malformed: a declared version above [MaxProtocolVer], a checksum
    that differs from the CRC-32 of the datagram with bytes 8..11
    cleared, and, for a ListPorts request, a pad count outside 0..4 or a
    requested pad index above 3. *)
Definition versionTooHigh (data : Buffer) : Prop :=
  ∃ v, Buf.readUInt16LE data 4 = inr v ∧ v > MaxProtocolVer.

Definition crcMismatch (data : Buffer) : Prop :=
  ∃ c, Buf.readUInt32LE data 8 = inr c ∧ c ≠ crc32 (clearCrc data).

Definition listPortsRequest (data : Buffer) (count : Z) : Prop :=
  Buf.readUInt32LE data 16 = inr DSUC_ListPorts
  ∧ DSUC_ListPorts ≠ DSUC_VersionReq
  ∧ Buf.readInt32LE data 20 = inr count.

Definition padCountOutOfRange (data : Buffer) : Prop :=
  ∃ count, listPortsRequest data count ∧ (count < 0 ∨ count > 4).

Definition padIndexOutOfRange (data : Buffer) : Prop :=
  ∃ count i x, listPortsRequest data count ∧ 0 <= count <= 4
               ∧ (i < Z.to_nat count)%nat
               ∧ data !! (24 + i)%nat = Some x ∧ x > 3.

Definition malformed (data : Buffer) : Prop :=
  versionTooHigh data ∨ crcMismatch data
  ∨ padCountOutOfRange data ∨ padIndexOutOfRange data.

(** The canonical group of a MAC byte: exactly two lowercase
    hexadecimal digits. *)
Definition canonicalGroup (byte : Z) : string :=
  String (Js.hexDigit (byte / 16)) (String (Js.hexDigit (byte mod 16)) EmptyString).

(** Whether the group built by [onMessage] for a byte is the canonical one. *)
Definition groupIsCanonical (byte : Z) : bool :=
  match macGroup (Some byte) with
  | inr g => String.eqb g (canonicalGroup byte)
  | inl _ => false
  end.

(** *** Vocabulary of the proofs *)

(** The first sixteen bytes and the length survive. *)
Definition keepsHeader (b b' : Buffer) : Prop :=
  length b' = length b ∧ ∀ i, (i < 16)%nat → b' !! i = b !! i.

Definition stepKeeps (s : Step) : Prop :=
  ∀ o o', (16 ≤ outIndex o)%nat → s o = inr o' →
          (16 ≤ outIndex o')%nat ∧ keepsHeader (outBuffer o) (outBuffer o').

(** The header written by [beginPacket], as plain stores. *)
Definition headerOf (srvId : Z) (protocolVer : Z) (b : Buffer) : Buffer :=
  Buf.store32 srvId 12
    (Buf.store32 0 8
       (Buf.store16 (Z.of_nat (length b) - 16) 6
          (Buf.store16 protocolVer 4
             (Buf.set 3 83 (Buf.set 2 85 (Buf.set 1 83 (Buf.set 0 68 b))))))).

Definition evOk (P : Buffer → Prop) (ev : Event) : Prop :=
  match ev with
  | EvSend D _ _ => P D
  | _ => True
  end.

(** An operation only adds sends of buffers satisfying [P]. *)
Definition traceOk {A} (P : Buffer → Prop) (m : Op A) : Prop :=
  ∀ w r w', m w = (r, w') → Forall (evOk P) (trace w) → Forall (evOk P) (trace w').

(** A step moves [outIndex] by a fixed amount and keeps the length. *)
Definition stepMoves (s : Step) (n : nat) : Prop :=
  ∀ o o', s o = inr o' →
          outIndex o' = (outIndex o + n)%nat
          ∧ length (outBuffer o') = length (outBuffer o).

(** A step that returns has done what the pure function does. *)
Definition stepPure (s : Step) (p : Out → Out) : Prop :=
  ∀ o o', s o = inr o' → o' = p o.

(** An operation keeps a property of the server object. *)
Definition serverOk {A} (P : UdpServer → Prop) (m : Op A) : Prop :=
  ∀ w r w', m w = (r, w') → P (server w) → P (server w').

Definition registryWf (srv : UdpServer) : Prop := JsMap.wf (clients srv).

(** *** Vocabulary of the further properties *)

(** The cancellation recorded for slot [i] of a table: one event when
    the slot is occupied, none otherwise. *)
Definition slotUnsubscribe (slots : list (option ControllerSlot)) (i : nat)
  : list Event :=
  match slots !! i with
  | Some (Some slot) => [EvUnsubscribe (subscription slot)]
  | _ => []
  end.

(** A buffer as Node holds it: every element is a byte. *)
Definition isBytes (b : Buffer) : Prop := Forall (fun x => 0 <= x < 256) b.

(** The datagram [sendPacket] builds for a payload when nothing throws:
    header, payload from offset 16, then the checksum. *)
Definition packetOf (srvId protocolVer : Z) (data : Buffer) : Buffer :=
  let filled :=
    Buf.fill data 16 (headerOf srvId protocolVer (Buf.alloc (length data + 16))) in
  Buf.store32 (crc32 filled) 8 filled.

(** A datagram that passes the checks at the head of [onMessage] and
    carries message type [msgType]: bytes only, the client magic, a
    version not above [MaxProtocolVer], the right checksum. *)
Definition accepted (data : Buffer) (msgType : Z) : Prop :=
  isBytes data ∧ magicDSUC data = true
  ∧ (∃ v, Buf.readUInt16LE data 4 = inr v ∧ v <= MaxProtocolVer)
  ∧ Buf.readUInt32LE data 8 = inr (crc32 (clearCrc data))
  ∧ Buf.readUInt32LE data 16 = inr msgType.







(** What a pad-data datagram says before the buttons: the header of
    protocol version 1001, the message type, the controller's metadata,
    its six MAC bytes and the packet counter. *)
Definition padIdentification (srvId : Z) (data : DualshockData.t) (D : Buffer)
  : Prop :=
  let meta := DualshockData.meta data in
  take 4 D = [68; 83; 85; 83]
  ∧ Buf.readUInt16LE D 4 = inr 1001
  ∧ Buf.readUInt32LE D 12 = inr (srvId mod 2 ^ 32)
  ∧ Buf.readUInt32LE D 16 = inr (DSUS_PadDataRsp mod 2 ^ 32)
  ∧ D !! 20%nat = Some (DualshockMeta.padId meta mod 256)
  ∧ D !! 21%nat = Some (DualshockMeta.state meta mod 256)
  ∧ D !! 22%nat = Some (DualshockMeta.model meta mod 256)
  ∧ D !! 23%nat = Some (DualshockMeta.connectionType meta mod 256)
  ∧ take 6 (drop 24 D)
    = List.map (fun v => v mod 256) (macParts (DualshockMeta.macAddress meta))
  ∧ D !! 30%nat = Some (DualshockMeta.batteryStatus meta mod 256)
  ∧ D !! 31%nat = Some (flag (DualshockMeta.isActive meta) 1)
  ∧ Buf.readUInt32LE D 32
    = inr (DualshockReport.packetCounter (DualshockData.report data) mod 2 ^ 32).

(** What it says about buttons, sticks and triggers: two bitmaps, two
    flags, four stick bytes, ten analog button bytes that are 0 or 255,
    two trigger bytes. *)
Definition padButtons (report : DualshockReport.t) (D : Buffer) : Prop :=
  let button := DualshockReport.button report in
  let dPad := Button.dPad button in
  let position := DualshockReport.position report in
  D !! 36%nat
  = Some (flag (DPad.LEFT dPad) 128 + flag (DPad.DOWN dPad) 64
          + flag (DPad.RIGHT dPad) 32 + flag (DPad.UP dPad) 16
          + flag (Button.options button) 8 + flag (Button.R3 button) 4
          + flag (Button.L3 button) 2 + flag (Button.share button) 1)
  ∧ D !! 37%nat
    = Some (flag (Button.SQUARE button) 128 + flag (Button.CROSS button) 64
            + flag (Button.CIRCLE button) 32 + flag (Button.TRIANGLE button) 16
            + flag (Button.R1 button) 8 + flag (Button.L1 button) 4
            + flag (Button.R2 button) 2 + flag (Button.L2 button) 1)
  ∧ D !! 38%nat = Some (flag (Button.PS button) 1)
  ∧ D !! 39%nat = Some (flag (Button.touch button) 1)
  ∧ D !! 40%nat = Some (Stick.x (Position.left position) mod 256)
  ∧ D !! 41%nat = Some (Stick.y (Position.left position) mod 256)
  ∧ D !! 42%nat = Some (Stick.x (Position.right position) mod 256)
  ∧ D !! 43%nat = Some (Stick.y (Position.right position) mod 256)
  ∧ D !! 44%nat = Some (flag (DPad.LEFT dPad) 255)
  ∧ D !! 45%nat = Some (flag (DPad.DOWN dPad) 255)
  ∧ D !! 46%nat = Some (flag (DPad.RIGHT dPad) 255)
  ∧ D !! 47%nat = Some (flag (DPad.UP dPad) 255)
  ∧ D !! 48%nat = Some (flag (Button.SQUARE button) 255)
  ∧ D !! 49%nat = Some (flag (Button.CROSS button) 255)
  ∧ D !! 50%nat = Some (flag (Button.CIRCLE button) 255)
  ∧ D !! 51%nat = Some (flag (Button.TRIANGLE button) 255)
  ∧ D !! 52%nat = Some (flag (Button.R1 button) 255)
  ∧ D !! 53%nat = Some (flag (Button.L1 button) 255)
  ∧ D !! 54%nat = Some (Trigger.R2 (DualshockReport.trigger report) mod 256).

(** What it says after touch 1's X: touch 1's Y, touch 2, the high half
    of the motion timestamp, and the six floats of accelerometer and
    gyro as their bit patterns. *)
Definition padMotion (report : DualshockReport.t) (D : Buffer) : Prop :=
  let first := TrackPad.first (DualshockReport.trackPad report) in
  let second := TrackPad.second (DualshockReport.trackPad report) in
  let accelerometer := DualshockReport.accelerometer report in
  let gyro := DualshockReport.gyro report in
  Buf.readUInt16LE D 60 = inr (Touch.y first mod 2 ^ 16)
  ∧ D !! 62%nat = Some (flag (Touch.isActive second) 1)
  ∧ D !! 63%nat = Some (Touch.id second mod 256)
  ∧ Buf.readUInt16LE D 64 = inr (Touch.x second mod 2 ^ 16)
  ∧ Buf.readUInt16LE D 66 = inr (Touch.y second mod 2 ^ 16)
  ∧ Buf.readUInt32LE D 72
    = inr (Long.high (DualshockReport.motionTimestamp report) mod 2 ^ 32)
  ∧ Buf.readUInt32LE D 76 = inr (Vec3.x accelerometer mod 2 ^ 32)
  ∧ Buf.readUInt32LE D 80 = inr (Vec3.y accelerometer mod 2 ^ 32)
  ∧ Buf.readUInt32LE D 84 = inr (Vec3.z accelerometer mod 2 ^ 32)
  ∧ Buf.readUInt32LE D 88 = inr (Vec3.x gyro mod 2 ^ 32)
  ∧ Buf.readUInt32LE D 92 = inr (Vec3.y gyro mod 2 ^ 32)
  ∧ Buf.readUInt32LE D 96 = inr (Vec3.z gyro mod 2 ^ 32).

(** The numbers of a report that the validating writers accept: the
    server id, the message type and the packet counter in 32 bits, the
    four touch coordinates in 16. *)
Definition reportFits (srvId : Z) (report : DualshockReport.t) : Prop :=
  let first := TrackPad.first (DualshockReport.trackPad report) in
  let second := TrackPad.second (DualshockReport.trackPad report) in
  0 <= srvId <= 4294967295
  ∧ 0 <= DSUS_PadDataRsp <= 4294967295
  ∧ 0 <= DualshockReport.packetCounter report <= 4294967295
  ∧ 0 <= Touch.x first <= 65535 ∧ 0 <= Touch.y first <= 65535
  ∧ 0 <= Touch.x second <= 65535 ∧ 0 <= Touch.y second <= 65535.

(** A step returns when [need] bytes exist from [outIndex] on. *)
Definition stepSucceeds (s : Step) (need : nat) : Prop :=
  ∀ o, (outIndex o + need ≤ length (outBuffer o))%nat → ∃ o', s o = inr o'.

(** Whether a run of steps stays inside a buffer of length [len] when
    it starts at index [i]: step by step, the bytes needed and the
    distance moved. *)
Fixpoint fits (len i : nat) (needs ns : list nat) : bool :=
  match needs, ns with
  | need :: needs, n :: ns => (i + need <=? len)%nat && fits len (i + n) needs ns
  | _, _ => true
  end.

(** A step that returns has checked [P]; a step that throws throws a
    RangeError. *)
Definition stepChecked (s : Step) (P : Prop) : Prop :=
  ∀ o o', s o = inr o' → P.

Definition stepThrowsRange (s : Step) : Prop :=
  ∀ o e, s o = inl e → e = RangeError.

(** Server [srv'] differs from [srv] at most in the registry entry of
    [clientEndpoint], which it has not lost. *)
Definition sameBut (clientEndpoint : AddressInfo) (srv srv' : UdpServer) : Prop :=
  socket srv' = socket srv ∧ serverId srv' = serverId srv
  ∧ controllers srv' = controllers srv
  ∧ (∀ other, ref other ≠ ref clientEndpoint →
              JsMap.get other (clients srv') = JsMap.get other (clients srv))
  ∧ (is_Some (JsMap.get clientEndpoint (clients srv)) →
     is_Some (JsMap.get clientEndpoint (clients srv'))).

(** An event other than an error on the error stream. *)
Definition quiet (ev : Event) : Prop :=
  match ev with
  | EvError _ => False
  | _ => True
  end.

(** An operation emits no error event itself and throws only errors
    satisfying [P]. *)
Definition raises {A} (P : Error → Prop) (m : Op A) : Prop :=
  ∀ w r w', m w = (r, w') → Forall quiet (trace w) →
            Forall quiet (trace w')
            ∧ match r with inl e => P e | inr _ => True end.

(** The errors [onMessage] can put on the error stream, each with the
    condition under which it is thrown. *)
Definition onMessageError (e : Error) : Prop :=
  match e with
  | RangeError | TypeError => True
  | OutdatedProtocol received => received > MaxProtocolVer
  | CrcMismatch received computed => received ≠ computed
  | PadRequestsOutOfRange request => request < 0 ∨ request > 4
  | PadIndexOutOfRange _ request => request > 3
  | NegativePacketSize _ | BufferTooSmall _ => False
  end.
(** ** Facts about buffers *)

Lemma length_set i v (b : Buffer) : length (Buf.set i v b) = length b.
Proof. unfold Buf.set. apply length_insert. Qed.

Lemma length_store16 v off (b : Buffer) : length (Buf.store16 v off b) = length b.
Proof. unfold Buf.store16. by rewrite !length_set. Qed.

Lemma length_store32 v off (b : Buffer) : length (Buf.store32 v off b) = length b.
Proof. unfold Buf.store32. by rewrite !length_set. Qed.

Lemma lookup_set_ne i j v (b : Buffer) :
  i ≠ j → Buf.set i v b !! j = b !! j.
Proof. intros. unfold Buf.set. by apply list_lookup_insert_ne. Qed.

Lemma lookup_set_eq i v (b : Buffer) :
  (i < length b)%nat → Buf.set i v b !! i = Some (v mod 256).
Proof. intros. unfold Buf.set. by apply list_lookup_insert_eq. Qed.

Lemma lookup_store32_other off v j (b : Buffer) :
  (j < off ∨ off + 4 ≤ j)%nat → Buf.store32 v off b !! j = b !! j.
Proof. intros. unfold Buf.store32. rewrite !lookup_set_ne by lia. done. Qed.

Lemma lookup_store16_other off v j (b : Buffer) :
  (j < off ∨ off + 2 ≤ j)%nat → Buf.store16 v off b !! j = b !! j.
Proof. intros. unfold Buf.store16. rewrite !lookup_set_ne by lia. done. Qed.

(** Four little-endian bytes of a 32-bit number add up to it. *)
Lemma le32_recompose v :
  0 <= v < 2 ^ 32 →
  v mod 256 + (Z.shiftr (Buf.toUint32 v) 8 mod 256) * 2 ^ 8
  + (Z.shiftr (Buf.toUint32 v) 16 mod 256) * 2 ^ 16
  + (Z.shiftr (Buf.toUint32 v) 24 mod 256) * 2 ^ 24 = v.
Proof.
  clear.
  intros Hv. unfold Buf.toUint32.
  rewrite (Z.mod_small v (2 ^ 32)) by lia.
  rewrite !Z.shiftr_div_pow2 by lia.
  change (2 ^ 8) with 256. change (2 ^ 16) with 65536.
  change (2 ^ 24) with 16777216. change (2 ^ 32) with 4294967296 in Hv.
  Z.to_euclidean_division_equations. lia.
Qed.

Lemma le16_recompose v :
  0 <= v < 2 ^ 16 →
  v mod 256 + (Z.shiftr (Buf.toUint32 v) 8 mod 256) * 2 ^ 8 = v.
Proof.
  clear.
  intros Hv. unfold Buf.toUint32.
  rewrite (Z.mod_small v (2 ^ 32)) by lia.
  rewrite !Z.shiftr_div_pow2 by lia.
  change (2 ^ 8) with 256. change (2 ^ 16) with 65536 in Hv.
  Z.to_euclidean_division_equations. lia.
Qed.

Lemma read_store32 v off (b : Buffer) :
  (off + 4 ≤ length b)%nat → 0 <= v < 2 ^ 32 →
  Buf.readUInt32LE (Buf.store32 v off b) off = inr v.
Proof.
  intros Hlen Hv. unfold Buf.readUInt32LE, Buf.store32.
  rewrite lookup_set_eq by (rewrite !length_set; lia).
  rewrite lookup_set_ne, lookup_set_eq by (rewrite ?length_set; lia).
  rewrite !lookup_set_ne, lookup_set_eq by (rewrite ?length_set; lia).
  rewrite !lookup_set_ne, lookup_set_eq by (rewrite ?length_set; lia).
  f_equal. by apply le32_recompose.
Qed.

Lemma read_store16 v off (b : Buffer) :
  (off + 2 ≤ length b)%nat → 0 <= v < 2 ^ 16 →
  Buf.readUInt16LE (Buf.store16 v off b) off = inr v.
Proof.
  intros Hlen Hv. unfold Buf.readUInt16LE, Buf.store16.
  rewrite lookup_set_ne, lookup_set_eq by (rewrite ?length_set; lia).
  rewrite lookup_set_eq by (rewrite ?length_set; lia).
  f_equal. by apply le16_recompose.
Qed.

Lemma toUint32_range v : 0 <= Buf.toUint32 v < 2 ^ 32.
Proof. unfold Buf.toUint32. apply Z.mod_pos_bound. lia. Qed.

Lemma crc32_range data : 0 <= crc32 data < 2 ^ 32.
Proof. unfold crc32. apply toUint32_range. Qed.

(** A writer that returns gives the plain byte stores, whichever
    generation of the runtime runs it. *)
Lemma writeUInt16LE_inr v off na (b b' : Buffer) :
  Buf.writeUInt16LE legacyNoAssert v off na b = inr b' → b' = Buf.store16 v off b.
Proof.
  unfold Buf.writeUInt16LE.
  repeat match goal with |- context [if ?c then _ else _] => destruct c end;
    congruence.
Qed.

Lemma writeUInt32LE_inr v off na (b b' : Buffer) :
  Buf.writeUInt32LE legacyNoAssert v off na b = inr b' → b' = Buf.store32 v off b.
Proof.
  unfold Buf.writeUInt32LE.
  repeat match goal with |- context [if ?c then _ else _] => destruct c end;
    congruence.
Qed.

Lemma writeFloatLE_inr v off na (b b' : Buffer) :
  Buf.writeFloatLE legacyNoAssert v off na b = inr b' → b' = Buf.store32 v off b.
Proof.
  unfold Buf.writeFloatLE.
  repeat match goal with |- context [if ?c then _ else _] => destruct c end;
    congruence.
Qed.

(** ** The client registry *)

Lemma indexZ_Some {A} (l : list A) i t :
  indexZ l i = Some t → (i <? Z.of_nat (length l)) = true.
Proof.
  unfold indexZ. destruct (i <? 0) eqn:Hneg; [done |].
  intros Hlk. apply lookup_lt_Some in Hlk. lia.
Qed.

Lemma freshOpt_true now o :
  freshOpt now o = true ↔ ∃ t, o = Some t ∧ fresh now t = true.
Proof.
  destruct o as [t |]; simpl.
  - split; [eauto | by intros (? & [= <-] & ?)].
  - split; [done | by intros (? & ? & ?)].
Qed.

Lemma interestedb_spec meta now times :
  interestedb meta now times = true ↔ interested meta now times.
Proof.
  clear.
  unfold interestedb, interested.
  rewrite !orb_true_iff, !freshOpt_true. tauto.
Qed.

Lemma existsb_fresh_list now (l : list Z) :
  existsb (fresh now) l = true ↔ ∃ i t, l !! i = Some t ∧ fresh now t = true.
Proof.
  rewrite existsb_exists. split.
  - intros (t & Hin & Hf). apply list_elem_of_In, list_elem_of_lookup in Hin.
    destruct Hin as [i Hi]. eauto.
  - intros (i & t & Hi & Hf). exists t. split; [| done].
    apply list_elem_of_In, list_elem_of_lookup. eauto.
Qed.

Lemma existsb_fresh_map now (m : gmap string Z) :
  existsb (fun e => fresh now (snd e)) (map_to_list m) = true
  ↔ ∃ mac t, m !! mac = Some t ∧ fresh now t = true.
Proof.
  rewrite existsb_exists. split.
  - intros ([mac t] & Hin & Hf). apply list_elem_of_In, elem_of_map_to_list in Hin.
    eauto.
  - intros (mac & t & Hi & Hf). exists (mac, t). split; [| done].
    by apply list_elem_of_In, elem_of_map_to_list.
Qed.

Lemma hasFreshStampb_spec now times :
  hasFreshStampb now times = true ↔ hasFreshStamp now times.
Proof.
  clear.
  unfold hasFreshStampb, hasFreshStamp.
  rewrite !orb_true_iff, existsb_fresh_list, existsb_fresh_map. tauto.
Qed.

Lemma interestedb_hasFreshStampb meta now times :
  interestedb meta now times = true → hasFreshStampb now times = true.
Proof.
  rewrite interestedb_spec, hasFreshStampb_spec.
  unfold interested, hasFreshStamp, indexZ.
  intros [H | [(t & Ht & Hf) | (t & Ht & Hf)]]; [by left | | by eauto 6].
  right; left. destruct (_ <? 0); [done | eauto].
Qed.

(** One round of the loop appends the endpoint to [clients] when it is
    interested and to [clientsToDelete] when it has no fresh stamp. *)
Lemma sweepEntry_spec meta now found toDelete info times :
  sweepEntry meta now (found, toDelete) (info, times)
  = (found ++ (if interestedb meta now times then [info] else []),
     toDelete ++ (if hasFreshStampb now times then [] else [info])).
Proof.
  pose proof (interestedb_hasFreshStampb meta now times) as Himp.
  unfold sweepEntry, interestedb, hasFreshStampb in *.
  destruct (fresh now (timeForAllPads times)) eqn:Hall; simpl in *.
  { by rewrite app_nil_r. }
  destruct (freshOpt now (indexZ _ _)) eqn:Hpad; simpl in *.
  { apply freshOpt_true in Hpad as (t & Ht & _).
    rewrite (indexZ_Some _ _ _ Ht). simpl.
    rewrite Himp by done. by rewrite app_nil_r. }
  rewrite andb_false_r.
  destruct (freshOpt now (timeForPadByMac times !! _)) eqn:Hmac; simpl in *.
  { apply freshOpt_true in Hmac as (t & Ht & _).
    rewrite bool_decide_true by (rewrite Ht; eauto). simpl.
    rewrite Himp by done. by rewrite app_nil_r. }
  rewrite andb_false_r.
  destruct (existsb (fresh now) _); simpl; [by rewrite !app_nil_r |].
  destruct (existsb _ (map_to_list _)); simpl; by rewrite !app_nil_r.
Qed.

Lemma sweep_fold meta now (l : list (AddressInfo * ClientRequestTimes)) found toDelete :
  fold_left (sweepEntry meta now) l (found, toDelete)
  = (found ++ List.map fst (List.filter (fun e => interestedb meta now (snd e)) l),
     toDelete ++ List.map fst
       (List.filter (fun e => negb (hasFreshStampb now (snd e))) l)).
Proof.
  revert found toDelete.
  induction l as [| [info times] l IH]; intros found toDelete.
  { simpl. by rewrite !app_nil_r. }
  cbn [fold_left]. rewrite sweepEntry_spec, IH. cbn [List.filter snd].
  destruct (interestedb meta now times), (hasFreshStampb now times); simpl;
    by rewrite <- ?app_assoc, ?app_nil_r.
Qed.

Lemma delete_fold {V} (dels : list AddressInfo) (m : list (AddressInfo * V)) :
  fold_left (fun m client => JsMap.delete client m) dels m
  = List.filter (fun e => negb (existsb (fun c => JsMap.sameKey c (fst e)) dels)) m.
Proof.
  revert m. induction dels as [| c dels IH]; intros m; simpl.
  { induction m as [| e m IHm]; simpl; [done | by rewrite <- IHm]. }
  rewrite IH. unfold JsMap.delete.
  induction m as [| e m IHm]; simpl; [done |].
  destruct (JsMap.sameKey c e.1); simpl; [done |].
  destruct (existsb _ dels); simpl; by rewrite IHm.
Qed.

(** In a well-formed Map an entry is found again by its key's identity. *)
Lemma wf_same_ref {V} (m : list (AddressInfo * V)) e e' :
  JsMap.wf m → In e m → In e' m → ref (fst e) = ref (fst e') → e = e'.
Proof.
  unfold JsMap.wf. induction m as [| a m IH]; simpl; [done |].
  intros Hnd [-> | He] [-> | He'] Href; inversion_clear Hnd as [| ? ? Hnotin Hnd'].
  - done.
  - exfalso. apply Hnotin. rewrite Href.
    apply list_elem_of_In. by apply (in_map (fun e => ref (fst e))) in He'.
  - exfalso. apply Hnotin. rewrite <- Href.
    apply list_elem_of_In. by apply (in_map (fun e => ref (fst e))) in He.
  - by apply IH.
Qed.

Lemma sweep_delete now (m : list (AddressInfo * ClientRequestTimes)) :
  JsMap.wf m →
  fold_left (fun m client => JsMap.delete client m)
    (List.map fst (List.filter (fun e => negb (hasFreshStampb now (snd e))) m)) m
  = List.filter (fun e => hasFreshStampb now (snd e)) m.
Proof.
  intros Hwf. rewrite delete_fold. apply filter_ext_in. intros e He.
  destruct (hasFreshStampb now e.2) eqn:Hf.
  - apply negb_true_iff, not_true_iff_false. intros Hex.
    apply existsb_exists in Hex as (c & Hc & Hsame).
    apply in_map_iff in Hc as (e' & <- & He').
    apply filter_In in He' as (He' & Hstale).
    apply Nat.eqb_eq in Hsame.
    rewrite (wf_same_ref m e' e Hwf He' He Hsame), Hf in Hstale. done.
  - apply negb_false_iff, existsb_exists. exists e.1. split.
    + apply in_map, filter_In. by rewrite Hf.
    + apply Nat.eqb_refl.
Qed.

Lemma getClientsForReport_run meta now srv :
  JsMap.wf (clients srv) →
  getClientsForReport meta now srv
  = (List.map fst (List.filter (fun e => interestedb meta now (snd e)) (clients srv)),
     with_clients (List.filter (fun e => hasFreshStampb now (snd e)) (clients srv)) srv).
Proof.
  intros Hwf. unfold getClientsForReport.
  rewrite sweep_fold. cbn [app]. by rewrite (sweep_delete now _ Hwf).
Qed.

(** C7: [getClientsForReport(meta)] at time [now] returns exactly the
    registered clients with a fresh all-pads stamp, a fresh stamp for
    [meta.padId] or a fresh stamp for [meta.macAddress], in registry
    order; it removes exactly the clients none of whose stamps is fresh,
    so every client left in the registry has a fresh stamp; nothing else
    of the server changes. *)
Theorem getClientsForReport_exact meta now srv :
  JsMap.wf (clients srv) →
  let found := fst (getClientsForReport meta now srv) in
  let srv' := snd (getClientsForReport meta now srv) in
  found = List.map fst
            (List.filter (fun e => interestedb meta now (snd e)) (clients srv))
  ∧ (∀ info, In info found
             ↔ ∃ times, In (info, times) (clients srv) ∧ interested meta now times)
  ∧ clients srv' = List.filter (fun e => hasFreshStampb now (snd e)) (clients srv)
  ∧ (∀ e, In e (clients srv') ↔ In e (clients srv) ∧ hasFreshStamp now (snd e))
  ∧ Forall (fun e => hasFreshStamp now (snd e)) (clients srv')
  ∧ socket srv' = socket srv ∧ serverId srv' = serverId srv
  ∧ controllers srv' = controllers srv.
Proof.
  intros Hwf. rewrite (getClientsForReport_run meta now srv Hwf).
  cbn [fst snd clients with_clients socket serverId controllers].
  split; [done |]. split.
  { intros info. rewrite in_map_iff. split.
    - intros ([i times] & <- & Hin). apply filter_In in Hin as (Hin & Hint).
      exists times. split; [done |]. by apply interestedb_spec.
    - intros (times & Hin & Hint). exists (info, times). split; [done |].
      apply filter_In. split; [done |]. by apply interestedb_spec. }
  split; [done |]. split.
  { intros e. rewrite filter_In, hasFreshStampb_spec. done. }
  split; [| done].
  apply Forall_forall. intros e He.
  apply list_elem_of_In, filter_In in He as (_ & He).
  by apply hasFreshStampb_spec.
Qed.

(** ** handleReport without a socket *)

(** C10: while the socket is null, [handleReport] does nothing for any
    report: no datagram is sent, no buffer is allocated, no error is
    raised and the server, client registry included, is left as it was
    (the sweep of [getClientsForReport] does not run). *)
Theorem handleReport_socket_null now data srv :
  socket srv = None → handleReport now data srv = (srv, []).
Proof.
  intros Hnull. unfold handleReport, tryCatch, mbind, op_bind, getServer.
  cbn [server trace]. rewrite Hnull. reflexivity.
Qed.

(** ** The slot table *)

Lemma removeController_zero_noop srv : removeController (Some 0) srv = (srv, []).
Proof. reflexivity. Qed.

Lemma removeControllerAt_valid index slot srv :
  0 < index < Z.of_nat (length (controllers srv)) →
  controllers srv !! Z.to_nat index = Some (Some slot) →
  removeControllerAt index srv
  = (with_controllers (<[Z.to_nat index := None]> (controllers srv)) srv,
     [EvUnsubscribe (subscription slot)]).
Proof.
  intros Hrange Hslot. unfold removeControllerAt.
  replace (index >? 0) with true by lia.
  replace (index <? _) with true by lia.
  by rewrite Hslot.
Qed.

(** C5, evaluated: on a server whose four slots are occupied,
    [removeController(0)] changes nothing and cancels no subscription,
    and [removeController()] empties slots 1 to 3 only: slot 0 keeps its
    controller and its subscription is never cancelled. *)
Theorem removeController_keeps_slot_zero :
  removeController (Some 0) sampleServer = (sampleServer, [])
  ∧ removeController None sampleServer
    = (with_controllers [Some slotA; None; None; None] sampleServer,
       [EvUnsubscribe 11; EvUnsubscribe 12; EvUnsubscribe 13]).
Proof. split; reflexivity. Qed.

(** ** The server id *)

Lemma start_keeps_serverId sock srv : serverId (start sock srv) = serverId srv.
Proof. reflexivity. Qed.

Lemma stop_keeps_serverId srv : serverId (stop srv) = serverId srv.
Proof. reflexivity. Qed.

(** C9, evaluated: 4294967296 is a value of the inclusive draw
    [integer(0, 4294967296)] and it is not below 2^32; a server built
    with it cannot put its id in a header: a validating runtime throws
    in [beginPacket], a legacy runtime writes four zero bytes. *)
Theorem serverId_draw_not_u32 :
  serverIdDraw 4294967296
  ∧ ¬ (serverId (newUdpServer 4294967296) < 2 ^ 32)
  ∧ beginPacket (serverId (newUdpServer 4294967296)) (Buf.alloc 16) 1001
    = if legacyNoAssert
      then inr ([68; 83; 85; 83; 233; 3; 0; 0; 0; 0; 0; 0; 0; 0; 0; 0], 16%nat)
      else inl RangeError.
Proof.
  split; [unfold serverIdDraw; lia |]. split; [simpl; lia |].
  unfold beginPacket, Buf.writeUInt16LE, Buf.writeUInt32LE, Buf.unchecked.
  destruct legacyNoAssert; vm_compute; reflexivity.
Qed.

(** ** Packet framing *)

Lemma runSteps_error steps e :
  fold_left (fun acc (step : Step) => acc ≫= step) steps (inl e) = inl e.
Proof. induction steps as [| s steps IH]; simpl; [done | apply IH]. Qed.

Lemma runSteps_cons s steps o :
  runSteps (s :: steps) o = s o ≫= runSteps steps.
Proof.
  unfold runSteps. simpl. destruct (s o) as [e | o']; simpl; [| done].
  apply runSteps_error.
Qed.

Lemma runSteps_app steps steps' o :
  runSteps (steps ++ steps') o = runSteps steps o ≫= runSteps steps'.
Proof.
  revert o. induction steps as [| s steps IH]; intros o; [done |].
  rewrite <- app_comm_cons, !runSteps_cons.
  destruct (s o) as [e | o']; simpl; [done | apply IH].
Qed.

Lemma keepsHeader_refl b : keepsHeader b b.
Proof. by split. Qed.

Lemma keepsHeader_trans b1 b2 b3 :
  keepsHeader b1 b2 → keepsHeader b2 b3 → keepsHeader b1 b3.
Proof.
  intros [Hl1 H1] [Hl2 H2]. split; [congruence |].
  intros i Hi. rewrite H2, H1; done.
Qed.

Lemma keepsHeader_set i v b : (16 ≤ i)%nat → keepsHeader b (Buf.set i v b).
Proof.
  intros Hi. split; [apply length_set |].
  intros j Hj. apply lookup_set_ne. lia.
Qed.

Lemma keepsHeader_store16 off v b : (16 ≤ off)%nat → keepsHeader b (Buf.store16 v off b).
Proof.
  intros Hi. split; [apply length_store16 |].
  intros j Hj. apply lookup_store16_other. lia.
Qed.

Lemma keepsHeader_store32 off v b : (16 ≤ off)%nat → keepsHeader b (Buf.store32 v off b).
Proof.
  intros Hi. split; [apply length_store32 |].
  intros j Hj. apply lookup_store32_other. lia.
Qed.

Lemma storePost_keeps v : stepKeeps (storePost v).
Proof.
  intros o o' Hi [= <-]; simpl. split; [lia |]. by apply keepsHeader_set.
Qed.

Lemma storePre_keeps v : stepKeeps (storePre v).
Proof.
  intros o o' Hi [= <-]; simpl. split; [lia |]. apply keepsHeader_set. lia.
Qed.

Lemma storeHere_keeps v : stepKeeps (storeHere v).
Proof.
  intros o o' Hi [= <-]; simpl. split; [lia |]. by apply keepsHeader_set.
Qed.

Lemma orHere_keeps c mask : stepKeeps (orHere c mask).
Proof.
  intros o o' Hi. unfold orHere. destruct c; intros [= <-]; simpl.
  - split; [lia |]. by apply keepsHeader_set.
  - split; [lia | apply keepsHeader_refl].
Qed.

Lemma advance_keeps n : stepKeeps (advance n).
Proof.
  intros o o' Hi [= <-]; simpl. split; [lia | apply keepsHeader_refl].
Qed.

Lemma u16Here_keeps v : stepKeeps (u16Here v).
Proof.
  intros o o' Hi. unfold u16Here, mbind, error_bind.
  destruct (Buf.writeUInt16LE _ _ _ _ _) as [e | b] eqn:Hw; [done |].
  intros [= <-]; simpl. apply writeUInt16LE_inr in Hw as ->.
  split; [lia |]. by apply keepsHeader_store16.
Qed.

Lemma u32Here_keeps v : stepKeeps (u32Here v).
Proof.
  intros o o' Hi. unfold u32Here, mbind, error_bind.
  destruct (Buf.writeUInt32LE _ _ _ _ _) as [e | b] eqn:Hw; [done |].
  intros [= <-]; simpl. apply writeUInt32LE_inr in Hw as ->.
  split; [lia |]. by apply keepsHeader_store32.
Qed.

Lemma f32Here_keeps v : stepKeeps (f32Here v).
Proof.
  intros o o' Hi. unfold f32Here, mbind, error_bind.
  destruct (Buf.writeFloatLE _ _ _ _ _) as [e | b] eqn:Hw; [done |].
  intros [= <-]; simpl. apply writeFloatLE_inr in Hw as ->.
  split; [lia |]. by apply keepsHeader_store32.
Qed.

Lemma runSteps_keeps steps :
  Forall stepKeeps steps →
  ∀ o o', (16 ≤ outIndex o)%nat → runSteps steps o = inr o' →
          (16 ≤ outIndex o')%nat ∧ keepsHeader (outBuffer o) (outBuffer o').
Proof.
  induction 1 as [| s steps Hs _ IH]; intros o o' Hi.
  - intros [= <-]. split; [done | apply keepsHeader_refl].
  - rewrite runSteps_cons. destruct (s o) as [e | o1] eqn:Hso; [done |]. simpl.
    intros Hrest. destruct (Hs o o1 Hi Hso) as [Hi1 Hk1].
    destruct (IH o1 o' Hi1 Hrest) as [Hi' Hk']. split; [done |].
    eapply keepsHeader_trans; eauto.
Qed.

Create HintDb keeps.
#[local] Hint Resolve storePost_keeps storePre_keeps storeHere_keeps orHere_keeps
  advance_keeps u16Here_keeps u32Here_keeps f32Here_keeps : keeps.

Lemma storePost_all_keep (l : list Z) : Forall stepKeeps (List.map storePost l).
Proof. apply Forall_map, Forall_forall. intros. apply storePost_keeps. Qed.

Lemma padDataSteps_keep meta report : Forall stepKeeps (padDataSteps meta report).
Proof.
  cbv beta zeta delta [padDataSteps padDataButtons padDataMotion].
  repeat first [ apply Forall_app; split
               | apply storePost_all_keep
               | apply List.Forall_cons; [solve [auto with keeps] |]
               | apply List.Forall_nil ].
Qed.

Lemma beginPacket_inr srvId b protocolVer b' index :
  beginPacket srvId b protocolVer = inr (b', index) →
  index = 16%nat ∧ (16 ≤ length b)%nat ∧ b' = headerOf srvId protocolVer b.
Proof.
  unfold beginPacket, headerOf.
  destruct (16 <=? length b)%nat eqn:Hlen; [| done].
  apply Nat.leb_le in Hlen. unfold mbind, error_bind.
  destruct (Buf.writeUInt16LE _ protocolVer _ _ _) as [e | d1] eqn:H1; [done |].
  apply writeUInt16LE_inr in H1 as ->.
  destruct (Buf.writeUInt16LE _ _ 6%nat _ _) as [e | d2] eqn:H2; [done |].
  apply writeUInt16LE_inr in H2 as ->.
  destruct (Buf.writeUInt32LE _ 0 _ _ _) as [e | d3] eqn:H3; [done |].
  apply writeUInt32LE_inr in H3 as ->.
  destruct (Buf.writeUInt32LE _ srvId _ _ _) as [e | d4] eqn:H4; [done |].
  apply writeUInt32LE_inr in H4 as ->.
  intros [= <- <-]. rewrite length_store16, !length_set. done.
Qed.

Lemma length_headerOf srvId protocolVer b :
  length (headerOf srvId protocolVer b) = length b.
Proof.
  unfold headerOf.
  by rewrite !length_store32, !length_store16, !length_set.
Qed.

Lemma headerOf_crc_cleared srvId protocolVer b i :
  (16 ≤ length b)%nat → (8 ≤ i < 12)%nat →
  headerOf srvId protocolVer b !! i = Some 0.
Proof.
  intros Hlen Hi. unfold headerOf.
  rewrite lookup_store32_other by lia.
  set (inner := Buf.store16 _ 6 _).
  assert (Hin : (16 ≤ length inner)%nat).
  { unfold inner. by rewrite !length_store16, !length_set. }
  unfold Buf.store32.
  assert (i = 8 ∨ i = 9 ∨ i = 10 ∨ i = 11)%nat as [-> | [-> | [-> | ->]]] by lia.
  - rewrite lookup_set_eq by (rewrite !length_set; lia). done.
  - rewrite lookup_set_ne, lookup_set_eq by (rewrite ?length_set; lia || lia). done.
  - rewrite !lookup_set_ne, lookup_set_eq by (rewrite ?length_set; lia || lia). done.
  - rewrite !lookup_set_ne, lookup_set_eq by (rewrite ?length_set; lia || lia). done.
Qed.

Lemma headerOf_length_field srvId protocolVer b :
  (16 ≤ length b)%nat → Z.of_nat (length b) - 16 < 2 ^ 16 →
  Buf.readUInt16LE (headerOf srvId protocolVer b) 6
  = inr (Z.of_nat (length b) - 16).
Proof.
  intros Hlen Hsmall. unfold headerOf, Buf.readUInt16LE.
  rewrite !lookup_store32_other by lia.
  set (inner := Buf.store16 protocolVer 4 _).
  assert (Hin : (16 ≤ length inner)%nat).
  { unfold inner. by rewrite !length_store16, !length_set. }
  apply (read_store16 (Z.of_nat (length b) - 16) 6 inner); lia.
Qed.

(** [finishPacket] on a buffer whose checksum field is cleared yields a
    datagram with a valid checksum and touches nothing else. *)
Lemma finishPacket_inr b D :
  (12 ≤ length b)%nat →
  (∀ i, (8 ≤ i < 12)%nat → b !! i = Some 0) →
  finishPacket b = inr D →
  crcOk D ∧ length D = length b
  ∧ ∀ i, (i < 8 ∨ 12 ≤ i)%nat → D !! i = b !! i.
Proof.
  intros Hlen Hzero Hfin. unfold finishPacket in Hfin.
  apply writeUInt32LE_inr in Hfin as ->.
  split; [| split; [apply length_store32 |]].
  - unfold crcOk. rewrite read_store32 by (lia || apply crc32_range).
    f_equal. f_equal. symmetry. apply list_eq. intros i.
    unfold clearCrc, Buf.store32.
    destruct (decide (i = 11%nat)) as [-> |];
      [rewrite lookup_set_eq by (rewrite !length_set; lia); rewrite Hzero by lia; done |].
    rewrite lookup_set_ne by done.
    destruct (decide (i = 10%nat)) as [-> |];
      [rewrite lookup_set_eq by (rewrite !length_set; lia); rewrite Hzero by lia; done |].
    rewrite lookup_set_ne by done.
    destruct (decide (i = 9%nat)) as [-> |];
      [rewrite lookup_set_eq by (rewrite !length_set; lia); rewrite Hzero by lia; done |].
    rewrite lookup_set_ne by done.
    destruct (decide (i = 8%nat)) as [-> |];
      [rewrite lookup_set_eq by (rewrite !length_set; lia); rewrite Hzero by lia; done |].
    rewrite !lookup_set_ne by (simpl; lia). done.
  - intros i Hi. apply lookup_store32_other. lia.
Qed.

(** What every pad-data datagram satisfies, whatever the report. *)
Lemma padDataPacket_framed srvId data D :
  padDataPacket srvId data = inr D →
  crcOk D ∧ length D = 100%nat ∧ Buf.readUInt16LE D 6 = inr 84.
Proof.
  unfold padDataPacket, mbind, error_bind.
  destruct (beginPacket srvId (Buf.alloc 100) 1001) as [e | [b index]] eqn:Hbegin;
    [done |].
  apply beginPacket_inr in Hbegin as (-> & Hlen & ->).
  destruct (runSteps _ _) as [e | out] eqn:Hrun; [done |].
  apply runSteps_keeps in Hrun as [_ [Hl Hkeep]];
    [| apply padDataSteps_keep | simpl; lia ].
  cbn [outBuffer] in Hl, Hkeep. rewrite length_headerOf in Hl.
  intros Hfin. apply finishPacket_inr in Hfin as (Hcrc & HlenD & Hsame).
  - split; [done |]. split; [by rewrite HlenD, Hl |].
    assert (Hfield : Z.of_nat (length (Buf.alloc 100)) - 16 < 2 ^ 16)
      by (vm_compute; done).
    pose proof (headerOf_length_field srvId 1001 (Buf.alloc 100) Hlen Hfield) as Hf.
    unfold Buf.readUInt16LE in *. rewrite !Hsame, !Hkeep by lia.
    rewrite Hf. reflexivity.
  - rewrite Hl. simpl. lia.
  - intros i Hi. rewrite Hkeep by lia.
    by apply headerOf_crc_cleared.
Qed.

Lemma length_fill value off (b : Buffer) : length (Buf.fill value off b) = length b.
Proof. unfold Buf.fill. apply length_imap. Qed.

Lemma lookup_fill_before value off (b : Buffer) i :
  (i < off)%nat → Buf.fill value off b !! i = b !! i.
Proof.
  intros Hi. unfold Buf.fill. rewrite list_lookup_imap.
  destruct (b !! i); simpl; [| done].
  by rewrite bool_decide_true.
Qed.

(** ** Traces *)

Lemma traceOk_ret {A} P (x : A) : traceOk P (mret x).
Proof. by intros w r w' [= <- <-]. Qed.

Lemma traceOk_throw {A} P e : traceOk P (@throw A e).
Proof. by intros w r w' [= <- <-]. Qed.

Lemma traceOk_lift {A} P (x : Error + A) : traceOk P (lift x).
Proof. by intros w r w' [= <- <-]. Qed.

Lemma traceOk_getServer P : traceOk P getServer.
Proof. by intros w r w' [= <- <-]. Qed.

Lemma traceOk_putServer P srv : traceOk P (putServer srv).
Proof. by intros w r w' [= <- <-]. Qed.

Lemma traceOk_emit P ev : evOk P ev → traceOk P (emit ev).
Proof.
  intros Hev w r w' [= <- <-] Hok. simpl.
  apply Forall_app. split; [done |]. by constructor.
Qed.

Lemma traceOk_bind {A B} P (m : Op A) (f : A → Op B) :
  traceOk P m → (∀ x, traceOk P (f x)) → traceOk P (m ≫= f).
Proof.
  intros Hm Hf w r w' Hrun Hok. unfold mbind, op_bind in Hrun.
  destruct (m w) as [[e | x] w1] eqn:Hmw.
  - inversion Hrun; subst. eapply Hm; eauto.
  - eapply Hf; [exact Hrun |]. eapply Hm; eauto.
Qed.

Lemma sendPacket_traceOk clientEndpoint data protocolVer :
  traceOk crcOk (sendPacket clientEndpoint data protocolVer).
Proof.
  intros w r w' Hrun Hok.
  unfold sendPacket, mbind, op_bind, emit, getServer, lift, throw in Hrun.
  cbn [server trace] in Hrun.
  destruct (beginPacket _ _ _) as [e | [buffer index]] eqn:Hbegin.
  { inversion Hrun; subst. simpl. apply Forall_app. split; [done |].
    by repeat constructor. }
  apply beginPacket_inr in Hbegin as (-> & Hlen & ->).
  destruct (finishPacket _) as [e | D] eqn:Hfin.
  { inversion Hrun; subst. simpl. apply Forall_app. split; [done |].
    by repeat constructor. }
  apply finishPacket_inr in Hfin as (Hcrc & _ & _).
  - destruct (socket (server w)); inversion Hrun; subst; simpl;
      repeat (apply Forall_app; split); try done; by repeat constructor.
  - rewrite length_fill, length_headerOf. lia.
  - intros i Hi. rewrite lookup_fill_before by lia.
    by apply headerOf_crc_cleared.
Qed.

Lemma listPortsLoop_traceOk data clientEndpoint index rounds shared :
  traceOk crcOk (listPortsLoop data clientEndpoint index rounds shared).
Proof.
  revert shared. induction rounds as [| i rounds IH]; intros shared; simpl.
  { apply traceOk_ret. }
  apply traceOk_bind; [apply traceOk_getServer |]. intros srv.
  destruct (_ ≫= _) as [meta |]; [| apply IH].
  apply traceOk_bind; [apply traceOk_lift |]. intros filled.
  apply traceOk_bind; [apply sendPacket_traceOk |]. intros _. apply IH.
Qed.

Lemma registerClient_traceOk P now clientEndpoint flags id mac :
  traceOk P (registerClient now clientEndpoint flags id mac).
Proof.
  unfold registerClient.
  apply traceOk_bind; [apply traceOk_getServer |]. intros srv.
  destruct (JsMap.get _ _); [apply traceOk_putServer | apply traceOk_throw].
Qed.

Ltac trace_ok :=
  repeat first
    [ apply traceOk_ret | apply traceOk_throw | apply traceOk_lift
    | apply traceOk_getServer | apply traceOk_putServer
    | apply traceOk_emit; exact I
    | apply sendPacket_traceOk | apply listPortsLoop_traceOk
    | apply registerClient_traceOk
    | apply traceOk_bind; [| intros ?]
    | match goal with
      | |- traceOk _ (if ?c then _ else _) => destruct c
      | |- traceOk _ (match ?x with _ => _ end) => destruct x
      end ].

Lemma onMessageBody_traceOk now data clientEndpoint :
  traceOk crcOk (onMessageBody now data clientEndpoint).
Proof. unfold onMessageBody. trace_ok. Qed.

Lemma tryCatch_traceOk P body srv :
  traceOk P body → Forall (evOk P) (snd (tryCatch body srv)).
Proof.
  intros Hbody. unfold tryCatch.
  destruct (body _) as [[e | x] w] eqn:Hrun; simpl.
  - apply Forall_app. split; [| by repeat constructor].
    eapply Hbody; [exact Hrun | constructor].
  - eapply Hbody; [exact Hrun | constructor].
Qed.

Lemma sentBuffers_ok P evs : Forall (evOk P) evs → Forall P (sentBuffers evs).
Proof.
  induction 1 as [| ev evs Hev _ IH]; [constructor |].
  unfold sentBuffers. destruct ev; simpl; try exact IH.
  constructor; [exact Hev | exact IH].
Qed.

Lemma forEach_emit D (found : list AddressInfo) w :
  forEach found (fun client => emit (EvSend D (port client) (address client))) w
  = (inr tt,
     mkWorld (server w)
       (trace w ++ List.map (fun client => EvSend D (port client) (address client))
                     found)).
Proof.
  revert w. induction found as [| c found IH]; intros [srv tr]; simpl.
  { by rewrite app_nil_r. }
  unfold mbind, op_bind, emit. simpl. rewrite IH. simpl.
  by rewrite <- app_assoc.
Qed.

(** [handleReport], branch by branch. *)
Lemma handleReport_run now data srv :
  handleReport now data srv
  = match socket srv with
    | None => (srv, [])
    | Some _ =>
        let found := fst (getClientsForReport (DualshockData.meta data) now srv) in
        let srv' := snd (getClientsForReport (DualshockData.meta data) now srv) in
        if (0 <? length found)%nat then
          match padDataPacket (serverId srv) data with
          | inl e => (srv', [EvAlloc 100; EvError e])
          | inr D =>
              (srv', EvAlloc 100
                     :: List.map (fun client => EvSend D (port client) (address client))
                          found)
          end
        else (srv', [])
    end.
Proof.
  unfold handleReport, tryCatch, mbind at 1, op_bind at 1, getServer.
  cbn [server trace]. destruct (socket srv) as [sock |]; [| done].
  destruct (getClientsForReport _ _ _) as [found srv'] eqn:Hsweep.
  assert (serverId srv' = serverId srv) as Hid.
  { unfold getClientsForReport in Hsweep. destruct (fold_left _ _ _).
    by inversion Hsweep. }
  cbn [fst snd]. unfold mbind, op_bind, putServer, lift. cbn [server trace].
  destruct (0 <? length found)%nat; [| done]. rewrite Hid.
  unfold emit at 1. cbn [server trace].
  destruct (padDataPacket _ _) as [e | D]; [done |].
  rewrite forEach_emit. done.
Qed.

Lemma handleReport_sends (P : Buffer → Prop) now data srv :
  (∀ D, padDataPacket (serverId srv) data = inr D → P D) →
  Forall P (sentBuffers (snd (handleReport now data srv))).
Proof.
  intros HP. rewrite handleReport_run.
  destruct (socket srv); [| constructor]. cbv zeta.
  destruct (0 <? _)%nat; [| constructor].
  destruct (padDataPacket _ _) as [e | D] eqn:HD; [constructor |].
  cbn [snd]. apply sentBuffers_ok. constructor; [exact I |].
  apply Forall_map, Forall_forall. intros c _. simpl. by apply HP.
Qed.

(** ** The claims about outbound datagrams *)

(** C2: every datagram the server sends, be it a version reply or a
    port-info reply from [onMessage] or a pad-data datagram from
    [handleReport], carries at offset 8, little-endian, the CRC-32 of
    the whole datagram taken with bytes 8..11 set to zero. *)
Theorem outbound_checksum now srv :
  (∀ data clientEndpoint,
      Forall crcOk (sentBuffers (snd (onMessage now data clientEndpoint srv))))
  ∧ (∀ data, Forall crcOk (sentBuffers (snd (handleReport now data srv)))).
Proof.
  split.
  - intros data clientEndpoint. apply sentBuffers_ok, tryCatch_traceOk.
    apply onMessageBody_traceOk.
  - intros data. apply handleReport_sends. intros D HD.
    by apply padDataPacket_framed in HD as (? & _).
Qed.

(** C3: every pad-data datagram sent by [handleReport] is 100 bytes long
    and its payload-length field, the little-endian u16 at offset 6, is
    84, the length less the 16 bytes of the header. *)
Theorem padData_length now data srv :
  Forall (fun D => length D = 100%nat
                   ∧ Buf.readUInt16LE D 6 = inr (Z.of_nat (length D) - 16)
                   ∧ Z.of_nat (length D) - 16 = 84)
    (sentBuffers (snd (handleReport now data srv))).
Proof.
  apply handleReport_sends. intros D HD.
  apply padDataPacket_framed in HD as (_ & Hlen & Hfield).
  rewrite Hlen, Hfield. done.
Qed.

(** ** Where the index stands *)

Lemma storePost_moves v : stepMoves (storePost v) 1.
Proof. intros o o' [= <-]; simpl. rewrite length_set. split; [lia | done]. Qed.

Lemma storePre_moves v : stepMoves (storePre v) 1.
Proof. intros o o' [= <-]; simpl. rewrite length_set. split; [lia | done]. Qed.

Lemma storeHere_moves v : stepMoves (storeHere v) 0.
Proof. intros o o' [= <-]; simpl. rewrite length_set. split; [lia | done]. Qed.

Lemma orHere_moves c mask : stepMoves (orHere c mask) 0.
Proof.
  intros o o'. unfold orHere. destruct c; intros [= <-]; simpl;
    rewrite ?length_set; split; (lia || done).
Qed.

Lemma advance_moves n : stepMoves (advance n) n.
Proof. intros o o' [= <-]; simpl. done. Qed.

Lemma u32Here_moves v : stepMoves (u32Here v) 0.
Proof.
  intros o o'. unfold u32Here, mbind, error_bind.
  destruct (Buf.writeUInt32LE _ _ _ _ _) as [e | b] eqn:Hw; [done |].
  intros [= <-]; simpl. apply writeUInt32LE_inr in Hw as ->.
  rewrite length_store32. split; [lia | done].
Qed.

Lemma runSteps_moves steps ns :
  Forall2 stepMoves steps ns →
  ∀ o o', runSteps steps o = inr o' →
          outIndex o' = (outIndex o + sum_list ns)%nat
          ∧ length (outBuffer o') = length (outBuffer o).
Proof.
  induction 1 as [| s n steps ns Hs _ IH]; intros o o'.
  - intros [= <-]. simpl. split; [lia | done].
  - rewrite runSteps_cons. destruct (s o) as [e | o1] eqn:Hso; [done |]. simpl.
    intros Hrest. destruct (Hs o o1 Hso) as [Hi1 Hl1].
    destruct (IH o1 o' Hrest) as [Hi' Hl']. split; [lia | congruence].
Qed.

(** With six MAC groups the statements up to the triggers leave
    [outIndex] on the last byte written, offset 55, which holds the
    analog trigger L2. *)
Lemma padDataButtons_index meta report b o :
  length (macParts (DualshockMeta.macAddress meta)) = 6%nat →
  (56 ≤ length b)%nat →
  runSteps (padDataButtons meta report) (mkOut b 16) = inr o →
  outIndex o = 55%nat ∧ length (outBuffer o) = length b
  ∧ outBuffer o !! 55%nat
    = Some (Trigger.L2 (DualshockReport.trigger report) mod 256).
Proof.
  intros Hmac Hlen Hrun. unfold padDataButtons in Hrun. cbv zeta in Hrun.
  destruct (macParts _) as [| m0 [| m1 [| m2 [| m3 [| m4 [| m5 [| m6 rest]]]]]]];
    try discriminate Hmac.
  cbn [List.map app] in Hrun.
  match type of Hrun with
  | runSteps ?l _ = _ =>
      replace l with (removelast l ++ [List.last l (advance 0)]) in Hrun
        by reflexivity
  end.
  cbn [removelast List.last] in Hrun. rewrite runSteps_app in Hrun.
  destruct (runSteps _ _) as [e | [b1 i1]] eqn:Hfront; [done |].
  eapply runSteps_moves in Hfront;
    [| repeat first
         [ apply List.Forall2_nil
         | apply List.Forall2_cons;
           [ first [ apply storePost_moves | apply storePre_moves
                   | apply storeHere_moves | apply orHere_moves
                   | apply advance_moves | apply u32Here_moves ] |] ] ].
  destruct Hfront as [Hi1 Hl1]. cbn [outIndex outBuffer] in Hi1, Hl1.
  change (16 + _)%nat with 54%nat in Hi1. subst i1.
  injection Hrun as <-. cbn [outIndex outBuffer].
  rewrite length_set, lookup_set_eq by lia. done.
Qed.

(** ** What the last statements store *)

Lemma storePost_pure v :
  stepPure (storePost v)
    (fun o => mkOut (Buf.set (outIndex o) v (outBuffer o)) (S (outIndex o))).
Proof. by intros o o' [= <-]. Qed.

Lemma advance_pure n :
  stepPure (advance n) (fun o => mkOut (outBuffer o) (outIndex o + n)).
Proof. by intros o o' [= <-]. Qed.

Lemma u16Here_pure v :
  stepPure (u16Here v)
    (fun o => mkOut (Buf.store16 v (outIndex o) (outBuffer o)) (outIndex o)).
Proof.
  intros o o'. unfold u16Here, mbind, error_bind.
  destruct (Buf.writeUInt16LE _ _ _ _ _) as [e | b] eqn:Hw; [done |].
  intros [= <-]. by apply writeUInt16LE_inr in Hw as ->.
Qed.

Lemma u32Here_pure v :
  stepPure (u32Here v)
    (fun o => mkOut (Buf.store32 v (outIndex o) (outBuffer o)) (outIndex o)).
Proof.
  intros o o'. unfold u32Here, mbind, error_bind.
  destruct (Buf.writeUInt32LE _ _ _ _ _) as [e | b] eqn:Hw; [done |].
  intros [= <-]. by apply writeUInt32LE_inr in Hw as ->.
Qed.

Lemma f32Here_pure v :
  stepPure (f32Here v)
    (fun o => mkOut (Buf.store32 v (outIndex o) (outBuffer o)) (outIndex o)).
Proof.
  intros o o'. unfold f32Here, mbind, error_bind.
  destruct (Buf.writeFloatLE _ _ _ _ _) as [e | b] eqn:Hw; [done |].
  intros [= <-]. by apply writeFloatLE_inr in Hw as ->.
Qed.

Lemma runSteps_pure steps ps :
  Forall2 stepPure steps ps →
  ∀ o o', runSteps steps o = inr o' → o' = fold_left (fun o p => p o) ps o.
Proof.
  induction 1 as [| s p steps ps Hs _ IH]; intros o o'.
  - by intros [= <-].
  - rewrite runSteps_cons. destruct (s o) as [e | o1] eqn:Hso; [done |]. simpl.
    intros Hrest. rewrite <- (Hs o o1 Hso). by apply IH.
Qed.

(** Two and four little-endian bytes of any number give it back modulo
    the width. *)
Lemma le16_bytes v :
  v mod 256 + (Z.shiftr (Buf.toUint32 v) 8 mod 256) * 2 ^ 8 = v mod 2 ^ 16.
Proof.
  clear.
  unfold Buf.toUint32. rewrite !Z.shiftr_div_pow2 by lia.
  change (2 ^ 8) with 256. change (2 ^ 16) with 65536.
  change (2 ^ 32) with 4294967296.
  Z.to_euclidean_division_equations. lia.
Qed.

Lemma le32_bytes v :
  v mod 256 + (Z.shiftr (Buf.toUint32 v) 8 mod 256) * 2 ^ 8
  + (Z.shiftr (Buf.toUint32 v) 16 mod 256) * 2 ^ 16
  + (Z.shiftr (Buf.toUint32 v) 24 mod 256) * 2 ^ 24 = v mod 2 ^ 32.
Proof.
  clear.
  unfold Buf.toUint32. rewrite !Z.shiftr_div_pow2 by lia.
  change (2 ^ 8) with 256. change (2 ^ 16) with 65536.
  change (2 ^ 24) with 16777216. change (2 ^ 32) with 4294967296.
  Z.to_euclidean_division_equations. lia.
Qed.

Ltac motion_pure :=
  repeat first
    [ apply List.Forall2_nil
    | apply List.Forall2_cons;
      [ first [ apply storePost_pure | apply advance_pure | apply u16Here_pure
              | apply u32Here_pure | apply f32Here_pure ] |] ].

Ltac read_byte Hlen :=
  rewrite ?lookup_set_ne by lia;
  rewrite lookup_set_eq by (rewrite ?length_set, Hlen; lia).

Lemma flag_byte c : flag c 1 mod 256 = flag c 1.
Proof. by destruct c. Qed.

(** The bytes stored by the statements after the triggers, when they
    start with [outIndex] at 55 in a 100-byte buffer. *)
Lemma padDataMotion_layout report b o :
  length b = 100%nat →
  runSteps (padDataMotion report) (mkOut b 55) = inr o →
  let first := TrackPad.first (DualshockReport.trackPad report) in
  length (outBuffer o) = 100%nat
  ∧ outBuffer o !! 55%nat = b !! 55%nat
  ∧ outBuffer o !! 56%nat = Some (flag (Touch.isActive first) 1)
  ∧ outBuffer o !! 57%nat = Some (Touch.id first mod 256)
  ∧ Buf.readUInt16LE (outBuffer o) 58 = inr (Touch.x first mod 2 ^ 16)
  ∧ Buf.readUInt32LE (outBuffer o) 68
    = inr (Long.low (DualshockReport.motionTimestamp report) mod 2 ^ 32).
Proof.
  intros Hlen Hrun first.
  eapply runSteps_pure in Hrun; [| unfold padDataMotion; cbv zeta; motion_pure].
  subst o. cbn [fold_left outBuffer outIndex].
  fold first.
  unfold Buf.readUInt16LE, Buf.readUInt32LE, Buf.store32, Buf.store16.
  cbn [Nat.add]. rewrite !length_set.
  repeat first [ rewrite lookup_set_ne by lia
               | rewrite lookup_set_eq by (rewrite ?length_set, Hlen; lia) ].
  rewrite flag_byte.
  split; [done |]. split; [done |]. split; [done |]. split; [done |].
  split; f_equal.
  - apply le16_bytes.
  - rewrite le32_bytes. unfold Buf.toUint32. apply Z.mod_mod. lia.
Qed.

(** C1, as the code has it: in every pad-data datagram sent for a report
    whose MAC has six groups, no byte is skipped after the analog
    trigger L2 at offset 55: offset 56 holds the isActive flag of
    touch 1, offset 57 its id, offsets 58..59 its X as a little-endian
    u16 and offsets 68..71 the low 32 bits of the motion timestamp as a
    little-endian u32. *)
Theorem padData_touch_layout now data srv :
  length (macParts (DualshockMeta.macAddress (DualshockData.meta data))) = 6%nat →
  let report := DualshockData.report data in
  let first := TrackPad.first (DualshockReport.trackPad report) in
  Forall (fun D =>
            length D = 100%nat
            ∧ D !! 55%nat = Some (Trigger.L2 (DualshockReport.trigger report) mod 256)
            ∧ D !! 56%nat = Some (flag (Touch.isActive first) 1)
            ∧ D !! 57%nat = Some (Touch.id first mod 256)
            ∧ Buf.readUInt16LE D 58 = inr (Touch.x first mod 2 ^ 16)
            ∧ Buf.readUInt32LE D 68
              = inr (Long.low (DualshockReport.motionTimestamp report) mod 2 ^ 32))
    (sentBuffers (snd (handleReport now data srv))).
Proof.
  intros Hmac report first. apply handleReport_sends. intros D HD.
  pose proof (padDataPacket_framed _ _ _ HD) as (_ & HlenD & _).
  unfold padDataPacket, mbind, error_bind in HD.
  destruct (beginPacket _ _ _) as [e | [b index]] eqn:Hbegin; [done |].
  apply beginPacket_inr in Hbegin as (-> & Hlen & ->).
  unfold padDataSteps in HD. rewrite runSteps_app in HD.
  destruct (runSteps (padDataButtons _ _) _) as [e | [b1 i1]] eqn:Hbuttons; [done |].
  apply (padDataButtons_index _ _ _ _ Hmac) in Hbuttons as (Hi1 & Hl1 & H55);
    [| rewrite length_headerOf; simpl; lia].
  cbn [outIndex outBuffer] in Hi1, Hl1, H55. subst i1.
  rewrite length_headerOf in Hl1. cbn [mbind error_bind] in HD.
  unfold mbind, error_bind in HD.
  destruct (runSteps (padDataMotion _) _) as [e | out] eqn:Hmotion; [done |].
  apply padDataMotion_layout in Hmotion as (Hl & Hkeep & H56 & H57 & H58 & H68);
    [| by rewrite Hl1].
  rewrite H55 in Hkeep.
  unfold finishPacket in HD. apply writeUInt32LE_inr in HD as ->.
  unfold Buf.readUInt16LE, Buf.readUInt32LE in *.
  rewrite !lookup_store32_other by lia. done.
Qed.

(** ** Malformed datagrams *)

Lemma lookup_clearCrc data i : (12 ≤ i)%nat → clearCrc data !! i = data !! i.
Proof. intros Hi. unfold clearCrc. rewrite !lookup_set_ne by lia. done. Qed.

Lemma readUInt32LE_clearCrc data off :
  (12 ≤ off)%nat → Buf.readUInt32LE (clearCrc data) off = Buf.readUInt32LE data off.
Proof.
  intros Hoff. unfold Buf.readUInt32LE. rewrite !lookup_clearCrc by lia. done.
Qed.

Lemma readInt32LE_clearCrc data off :
  (12 ≤ off)%nat → Buf.readInt32LE (clearCrc data) off = Buf.readInt32LE data off.
Proof.
  intros Hoff. unfold Buf.readInt32LE. by rewrite readUInt32LE_clearCrc.
Qed.

Lemma checkPadIndices_throws data index rounds i :
  In i rounds → byteAbove3 data (index + i) = true →
  ∃ e, checkPadIndices data index rounds = inl e.
Proof.
  induction rounds as [| j rounds IH]; simpl; [done |].
  intros [-> | Hin] Habove.
  - rewrite Habove. eauto.
  - destruct (byteAbove3 data (index + j)); eauto.
Qed.

Lemma onMessage_bad_magic now data clientEndpoint srv :
  magicDSUC data = false → onMessage now data clientEndpoint srv = (srv, []).
Proof.
  intros Hmagic. unfold onMessage, tryCatch, onMessageBody.
  rewrite Hmagic. reflexivity.
Qed.

Ltac dropped := solve [eexists; reflexivity].

Lemma onMessage_malformed_dropped now data clientEndpoint srv :
  magicDSUC data = true → malformed data →
  ∃ e, onMessage now data clientEndpoint srv = (srv, [EvError e]).
Proof.
  intros Hmagic Hbad. unfold onMessage, tryCatch, onMessageBody.
  rewrite Hmagic. unfold mbind, op_bind, lift, throw.
  destruct (Buf.readUInt16LE data 4) as [e | v] eqn:Hv; [dropped |].
  destruct (v >? MaxProtocolVer) eqn:Hhigh; [dropped |].
  destruct (Buf.readUInt16LE data 6) as [e | size] eqn:Hsize; [dropped |].
  destruct (size <? 0) eqn:Hneg; [dropped |].
  destruct (Buf.readUInt32LE data 8) as [e | c] eqn:Hc; [dropped |].
  destruct (c =? crc32 (clearCrc data)) eqn:Hcrc; cbn [negb]; [| dropped].
  rewrite !readUInt32LE_clearCrc, readInt32LE_clearCrc by lia.
  destruct (Buf.readUInt32LE data 12) as [e | clientId]; [dropped |].
  destruct (Buf.readUInt32LE data 16) as [e | msgType] eqn:Htype; [dropped |].
  destruct Hbad as [(v' & Hv' & Hgt) | [(c' & Hc' & Hne) | [Hcount | Hindex]]].
  - rewrite Hv in Hv'. injection Hv' as <-. lia.
  - rewrite Hc in Hc'. injection Hc' as <-. apply Z.eqb_eq in Hcrc. done.
  - destruct Hcount as (count & (Hlist & Hdistinct & Hn) & Hrange).
    rewrite Htype in Hlist. injection Hlist as ->.
    replace (DSUC_ListPorts =? DSUC_VersionReq) with false by lia.
    rewrite Z.eqb_refl, Hn.
    replace ((count <? 0) || (count >? 4)) with true by lia.
    dropped.
  - destruct Hindex as (count & i & x & (Hlist & Hdistinct & Hn) & Hrange & Hi & Hx & Hgt).
    rewrite Htype in Hlist. injection Hlist as ->.
    replace (DSUC_ListPorts =? DSUC_VersionReq) with false by lia.
    rewrite Z.eqb_refl, Hn.
    replace ((count <? 0) || (count >? 4)) with false by lia.
    destruct (checkPadIndices_throws (clearCrc data) 24 (seq 0 (Z.to_nat count)) i)
      as [e He].
    + apply in_seq. lia.
    + unfold byteAbove3, Buf.get. rewrite lookup_clearCrc by lia. rewrite Hx. lia.
    + rewrite He. dropped.
Qed.

(** C4, as the code has it: no malformed datagram is answered and none
    changes the server.  One that carries the client magic and declares
    too high a version, fails the checksum, or is a ListPorts request
    with a pad count outside 0..4 or a pad index above 3, raises exactly
    one error event; one without the client magic is dropped in silence,
    with no error event. *)
Theorem onMessage_malformed now data clientEndpoint srv :
  magicDSUC data = false ∨ malformed data →
  ∃ evs, onMessage now data clientEndpoint srv = (srv, evs)
         ∧ sentBuffers evs = []
         ∧ (magicDSUC data = true → ∃ e, evs = [EvError e])
         ∧ (magicDSUC data = false → evs = []).
Proof.
  intros Hbad. destruct (magicDSUC data) eqn:Hmagic.
  - destruct Hbad as [? | Hbad]; [done |].
    destruct (onMessage_malformed_dropped now data clientEndpoint srv Hmagic Hbad)
      as [e He].
    exists [EvError e]. rewrite He.
    split; [done |]. split; [done |]. split; [eauto | done].
  - exists []. rewrite onMessage_bad_magic by done. done.
Qed.

(** ** The registry stays a Map *)

Lemma refs_set {V} k (v : V) m :
  List.map (fun e => ref (fst e)) (JsMap.set k v m)
  = if JsMap.has k m then List.map (fun e => ref (fst e)) m
    else List.map (fun e => ref (fst e)) m ++ [ref k].
Proof.
  induction m as [| [k' v'] m IH]; simpl; [done |].
  unfold JsMap.has in *. simpl.
  destruct (JsMap.sameKey k k'); simpl; [done |].
  rewrite IH. by destruct (existsb _ m).
Qed.

Lemma has_ref {V} k (m : list (AddressInfo * V)) :
  JsMap.has k m = false → ¬ In (ref k) (List.map (fun e => ref (fst e)) m).
Proof.
  unfold JsMap.has. intros Hhas Hin.
  apply in_map_iff in Hin as (e & Href & He).
  apply not_true_iff_false in Hhas. apply Hhas.
  apply existsb_exists. exists e. split; [done |].
  unfold JsMap.sameKey. rewrite Href. apply Nat.eqb_refl.
Qed.

Lemma set_wf {V} k (v : V) m : JsMap.wf m → JsMap.wf (JsMap.set k v m).
Proof.
  unfold JsMap.wf. intros Hwf. rewrite refs_set.
  destruct (JsMap.has k m) eqn:Hhas; [done |].
  apply NoDup_app. split; [done |]. split.
  - intros x Hx Hk. apply list_elem_of_In in Hx.
    apply list_elem_of_In in Hk as [<- | []].
    by apply has_ref in Hhas.
  - apply NoDup_singleton.
Qed.

Lemma filter_wf {V} (f : AddressInfo * V → bool) m :
  JsMap.wf m → JsMap.wf (List.filter f m).
Proof.
  unfold JsMap.wf. induction m as [| e m IH]; simpl; [done |].
  intros Hwf. apply NoDup_cons in Hwf as [Hnotin Hwf].
  destruct (f e); simpl; [| by apply IH].
  apply NoDup_cons. split; [| by apply IH].
  intros Hin. apply Hnotin.
  apply list_elem_of_In, in_map_iff in Hin as (e' & Href & He').
  apply list_elem_of_In, in_map_iff. exists e'. split; [done |].
  by apply filter_In in He' as [? _].
Qed.

Lemma serverOk_ret {A} P (x : A) : serverOk P (mret x).
Proof. by intros w r w' [= <- <-]. Qed.

Lemma serverOk_throw {A} P e : serverOk P (@throw A e).
Proof. by intros w r w' [= <- <-]. Qed.

Lemma serverOk_lift {A} P (x : Error + A) : serverOk P (lift x).
Proof. by intros w r w' [= <- <-]. Qed.

Lemma serverOk_getServer P : serverOk P getServer.
Proof. by intros w r w' [= <- <-]. Qed.

Lemma serverOk_emit P ev : serverOk P (emit ev).
Proof. by intros w r w' [= <- <-]. Qed.

Lemma serverOk_bind {A B} P (m : Op A) (f : A → Op B) :
  serverOk P m → (∀ x, serverOk P (f x)) → serverOk P (m ≫= f).
Proof.
  intros Hm Hf w r w' Hrun Hok. unfold mbind, op_bind in Hrun.
  destruct (m w) as [[e | x] w1] eqn:Hmw.
  - inversion Hrun; subst. eapply Hm; eauto.
  - eapply Hf; [exact Hrun |]. eapply Hm; eauto.
Qed.

Ltac server_ok :=
  repeat first
    [ apply serverOk_ret | apply serverOk_throw | apply serverOk_lift
    | apply serverOk_getServer | apply serverOk_emit
    | apply serverOk_bind; [| intros ?]
    | match goal with
      | |- serverOk _ (if ?c then _ else _) => destruct c
      | |- serverOk _ (match ?x with _ => _ end) => destruct x
      end ].

Lemma sendPacket_serverOk P clientEndpoint data protocolVer :
  serverOk P (sendPacket clientEndpoint data protocolVer).
Proof. unfold sendPacket. server_ok. Qed.

Lemma listPortsLoop_serverOk P data clientEndpoint index rounds shared :
  serverOk P (listPortsLoop data clientEndpoint index rounds shared).
Proof.
  revert shared. induction rounds as [| i rounds IH]; intros shared; simpl.
  { apply serverOk_ret. }
  apply serverOk_bind; [apply serverOk_getServer |]. intros srv.
  destruct (_ ≫= _) as [meta |]; [| apply IH].
  apply serverOk_bind; [apply serverOk_lift |]. intros filled.
  apply serverOk_bind; [apply sendPacket_serverOk |]. intros _. apply IH.
Qed.

Lemma registerClient_serverOk now clientEndpoint flags id mac :
  serverOk registryWf (registerClient now clientEndpoint flags id mac).
Proof.
  intros w r w' Hrun Hwf.
  unfold registerClient, mbind, op_bind, getServer, putServer, throw in Hrun.
  destruct (JsMap.get _ _); inversion Hrun; subst; [| done].
  unfold registryWf in *. cbn [server clients with_clients].
  apply set_wf. destruct (JsMap.has _ _); [done | by apply set_wf].
Qed.

(** [onMessage] and [handleReport] keep the registry a Map, and a new
    server starts with one. *)
Lemma onMessage_keeps_registry now data clientEndpoint srv :
  registryWf srv → registryWf (fst (onMessage now data clientEndpoint srv)).
Proof.
  intros Hwf. unfold onMessage, tryCatch.
  destruct (onMessageBody _ _ _ _) as [r w] eqn:Hrun.
  assert (registryWf (server w)) as Hw.
  { assert (serverOk registryWf (onMessageBody now data clientEndpoint)) as Hok.
    { unfold onMessageBody.
      repeat first
        [ apply registerClient_serverOk | apply sendPacket_serverOk
        | apply listPortsLoop_serverOk
        | apply serverOk_ret | apply serverOk_throw | apply serverOk_lift
        | apply serverOk_getServer | apply serverOk_emit
        | apply serverOk_bind; [| intros ?]
        | match goal with
          | |- serverOk _ (if ?c then _ else _) => destruct c
          end ]. }
    eapply Hok; [exact Hrun | exact Hwf]. }
  by destruct r.
Qed.

Lemma handleReport_keeps_registry now data srv :
  registryWf srv → registryWf (fst (handleReport now data srv)).
Proof.
  intros Hwf. rewrite handleReport_run.
  destruct (socket srv); [| done]. cbv zeta.
  assert (registryWf (snd (getClientsForReport (DualshockData.meta data) now srv))).
  { unfold registryWf. rewrite getClientsForReport_run by done.
    by apply filter_wf. }
  destruct (0 <? _)%nat; [| done].
  by destruct (padDataPacket _ _).
Qed.

Lemma newUdpServer_registry draw : registryWf (newUdpServer draw).
Proof. apply NoDup_nil_2. Qed.

(** * Further properties of the server *)

(** ** The slot table: addController and removeController *)

Lemma firstNull_spec slots i :
  match firstNull slots i with
  | Some j =>
      ∃ k, j = (i + k)%nat ∧ slots !! k = Some None
           ∧ ∀ k', (k' < k)%nat → ∃ s, slots !! k' = Some (Some s)
  | None => Forall (fun slot => slot ≠ None) slots
  end.
Proof.
  revert i. induction slots as [| [s |] slots IH]; intros i; simpl.
  - constructor.
  - specialize (IH (S i)). destruct (firstNull slots (S i)) as [j |].
    + destruct IH as (k & -> & Hk & Hbefore). exists (S k).
      split; [lia |]. split; [done |].
      intros [| k'] Hlt; simpl; [eauto | apply Hbefore; lia].
    + by constructor.
  - exists 0%nat. split; [lia |]. split; [done |]. intros k' Hlt. lia.
Qed.

(** X1: [addController] installs the controller in the lowest empty slot and
    returns true; when no slot is empty it returns false and leaves the
    server as it was. *)
Theorem addController_lowest_empty controller sub srv :
  (Forall (fun slot => slot ≠ None) (controllers srv)
   ∧ addController controller sub srv = (false, srv))
  ∨ (∃ i, controllers srv !! i = Some None
          ∧ (∀ j, (j < i)%nat → ∃ s, controllers srv !! j = Some (Some s))
          ∧ addController controller sub srv
            = (true,
               with_controllers
                 (<[i := Some (mkSlot controller sub)]> (controllers srv)) srv)).
Proof.
  unfold addController.
  pose proof (firstNull_spec (controllers srv) 0) as Hspec.
  destruct (firstNull (controllers srv) 0) as [j |].
  - right. destruct Hspec as (k & -> & Hk & Hbefore). exists k. done.
  - left. done.
Qed.

(** What one call [removeController(i)] does to the table. *)
Lemma removeControllerAt_table index srv j :
  controllers (fst (removeControllerAt index srv)) !! j
  = if bool_decide (0 < index ∧ Z.of_nat j = index)
    then (fun _ => None) <$> controllers srv !! j
    else controllers srv !! j.
Proof.
  unfold removeControllerAt.
  destruct ((index >? 0) && (index <? Z.of_nat (length (controllers srv)))) eqn:Hguard.
  - apply andb_true_iff in Hguard as [Hpos Hlt].
    destruct (controllers srv !! Z.to_nat index) as [[slot |] |] eqn:Hslot;
      cbn [fst controllers with_controllers].
    + destruct (decide (Z.to_nat index = j)) as [<- | Hne].
      * rewrite bool_decide_true by lia.
        rewrite list_lookup_insert_eq by (apply lookup_lt_Some in Hslot; lia).
        by rewrite Hslot.
      * rewrite bool_decide_false by lia. by apply list_lookup_insert_ne.
    + case_bool_decide as Hj; [| done].
      destruct Hj as [_ <-]. rewrite Nat2Z.id in Hslot. by rewrite Hslot.
    + case_bool_decide as Hj; [| done].
      destruct Hj as [_ <-]. rewrite Nat2Z.id in Hslot. by rewrite Hslot.
  - cbn [fst]. case_bool_decide as Hj; [| done].
    destruct Hj as [Hpos <-].
    destruct (controllers srv !! j) eqn:Hslot; [| done].
    apply lookup_lt_Some in Hslot.
    apply andb_false_iff in Hguard as [Hguard | Hguard]; lia.
Qed.

Lemma removeControllerAt_events index srv :
  snd (removeControllerAt index srv)
  = if bool_decide (0 < index)
    then match controllers srv !! Z.to_nat index with
         | Some (Some slot) => [EvUnsubscribe (subscription slot)]
         | _ => []
         end
    else [].
Proof.
  unfold removeControllerAt.
  destruct ((index >? 0) && (index <? Z.of_nat (length (controllers srv)))) eqn:Hguard.
  - apply andb_true_iff in Hguard as [Hpos Hlt].
    rewrite bool_decide_true by lia.
    by destruct (controllers srv !! Z.to_nat index) as [[slot |] |].
  - cbn [snd]. case_bool_decide as Hpos; [| done].
    destruct (controllers srv !! Z.to_nat index) as [slot |] eqn:Hslot; [| done].
    apply lookup_lt_Some in Hslot.
    apply andb_false_iff in Hguard as [Hguard | Hguard]; lia.
Qed.

Lemma removeControllerAt_rest index srv :
  socket (fst (removeControllerAt index srv)) = socket srv
  ∧ serverId (fst (removeControllerAt index srv)) = serverId srv
  ∧ clients (fst (removeControllerAt index srv)) = clients srv
  ∧ length (controllers (fst (removeControllerAt index srv)))
    = length (controllers srv).
Proof.
  unfold removeControllerAt.
  destruct (_ && _); [| done].
  destruct (controllers srv !! Z.to_nat index) as [[slot |] |]; try done.
  cbn [fst socket serverId clients controllers with_controllers].
  by rewrite length_insert.
Qed.

(** X2: [removeController(i)] empties slot [i] and cancels its subscription
    exactly when [0 < i], the index is in the table and the slot is
    occupied; it touches no other slot, keeps the length of the table,
    the socket, the server id and the client registry, and a second call
    with the same index does nothing. *)
Theorem removeController_index index srv :
  let srv' := fst (removeController (Some index) srv) in
  (∀ j, controllers srv' !! j
        = if bool_decide (0 < index ∧ Z.of_nat j = index)
          then (fun _ => None) <$> controllers srv !! j
          else controllers srv !! j)
  ∧ snd (removeController (Some index) srv)
    = (if bool_decide (0 < index)
       then slotUnsubscribe (controllers srv) (Z.to_nat index) else [])
  ∧ length (controllers srv') = length (controllers srv)
  ∧ socket srv' = socket srv ∧ serverId srv' = serverId srv
  ∧ clients srv' = clients srv
  ∧ removeController (Some index) srv' = (srv', []).
Proof.
  intros srv'. subst srv'. cbn [removeController].
  destruct (removeControllerAt_rest index srv) as (Hsock & Hid & Hclients & Hlen).
  split; [apply removeControllerAt_table |].
  split; [apply removeControllerAt_events |].
  repeat (split; [done |]).
  pose proof (removeControllerAt_table index srv (Z.to_nat index)) as Hslot.
  set (srv' := fst (removeControllerAt index srv)) in *.
  unfold removeControllerAt at 1. rewrite Hlen.
  destruct ((index >? 0) && _) eqn:Hguard; [| done].
  apply andb_true_iff in Hguard as [Hpos Hlt].
  rewrite bool_decide_true in Hslot by lia.
  rewrite Hslot. by destruct (controllers srv !! Z.to_nat index).
Qed.

Lemma removeController_rounds k srv :
  let r := fold_left
             (fun acc i =>
                let '(srv', evs) := removeControllerAt (Z.of_nat i) (fst acc) in
                (srv', snd acc ++ evs))
             (seq 0 k) (srv, []) in
  (∀ j, controllers (fst r) !! j
        = if bool_decide (0 < j < k)%nat
          then (fun _ => None) <$> controllers srv !! j
          else controllers srv !! j)
  ∧ snd r = concat (List.map (slotUnsubscribe (controllers srv)) (seq 1 (k - 1)))
  ∧ length (controllers (fst r)) = length (controllers srv)
  ∧ socket (fst r) = socket srv ∧ serverId (fst r) = serverId srv
  ∧ clients (fst r) = clients srv.
Proof.
  induction k as [| k IH].
  { simpl. repeat split; try done. intros j. by rewrite bool_decide_false by lia. }
  rewrite seq_S, fold_left_app. cbn [fold_left Nat.add].
  destruct IH as (Htable & Hevs & Hlen & Hsock & Hid & Hclients).
  set (r := fold_left _ (seq 0 k) (srv, [])) in *.
  destruct (removeControllerAt (Z.of_nat k) (fst r)) as [srv1 evs1] eqn:Hstep.
  pose proof (removeControllerAt_table (Z.of_nat k) (fst r)) as Htable1.
  pose proof (removeControllerAt_events (Z.of_nat k) (fst r)) as Hevs1.
  pose proof (removeControllerAt_rest (Z.of_nat k) (fst r)) as Hrest1.
  rewrite Hstep in Htable1, Hevs1, Hrest1. cbn [fst snd] in *.
  destruct Hrest1 as (Hsock1 & Hid1 & Hclients1 & Hlen1).
  split; [| split; [| repeat split; congruence]].
  - intros j. rewrite Htable1, Htable.
    repeat case_bool_decide; try done; lia.
  - rewrite Hevs, Hevs1, Nat2Z.id, Htable.
    rewrite (bool_decide_false (0 < k < k)%nat) by lia.
    destruct k as [| k]; [done |].
    rewrite bool_decide_true by lia.
    replace (S (S k) - 1)%nat with (S k) by lia.
    replace (S k - 1)%nat with k by lia.
    rewrite (seq_S k 1), map_app, concat_app. simpl.
    by rewrite app_nil_r.
Qed.

(** X3: [removeController()] empties every slot but slot 0, cancels, in
    slot order, the subscriptions of the occupied slots from 1 on, and
    keeps slot 0, the socket, the server id and the client registry. *)
Theorem removeController_all srv :
  let srv' := fst (removeController None srv) in
  (∀ j, controllers srv' !! j
        = if bool_decide (0 < j)%nat
          then (fun _ => None) <$> controllers srv !! j
          else controllers srv !! j)
  ∧ snd (removeController None srv)
    = concat (List.map (slotUnsubscribe (controllers srv))
                (seq 1 (length (controllers srv) - 1)))
  ∧ length (controllers srv') = length (controllers srv)
  ∧ socket srv' = socket srv ∧ serverId srv' = serverId srv
  ∧ clients srv' = clients srv.
Proof.
  intros srv'. subst srv'. cbn [removeController].
  destruct (removeController_rounds (length (controllers srv)) srv)
    as (Htable & Hrest).
  split; [| exact Hrest].
  intros j. rewrite Htable.
  destruct (decide (j < length (controllers srv))%nat) as [Hj | Hj].
  - repeat case_bool_decide; try done; lia.
  - rewrite (lookup_ge_None_2 (controllers srv) j) by lia.
    by repeat case_bool_decide.
Qed.

(** ** Framing: beginPacket and sendPacket *)

Lemma writeUInt16LE_ok v off (b : Buffer) :
  0 <= v <= 65535 → (off + 2 ≤ length b)%nat →
  Buf.writeUInt16LE legacyNoAssert v off true b = inr (Buf.store16 v off b).
Proof.
  intros Hv Hoff. unfold Buf.writeUInt16LE, Buf.inBounds.
  destruct (Buf.unchecked _ _); [done |].
  replace (0 <=? v) with true by lia. replace (v <=? 65535) with true by lia.
  replace (off + 2 <=? length b)%nat with true; [done |].
  symmetry. apply Nat.leb_le. lia.
Qed.

Lemma writeUInt32LE_ok v off (b : Buffer) :
  0 <= v <= 4294967295 → (off + 4 ≤ length b)%nat →
  Buf.writeUInt32LE legacyNoAssert v off true b = inr (Buf.store32 v off b).
Proof.
  intros Hv Hoff. unfold Buf.writeUInt32LE, Buf.inBounds.
  destruct (Buf.unchecked _ _); [done |].
  replace (0 <=? v) with true by lia. replace (v <=? 4294967295) with true by lia.
  replace (off + 4 <=? length b)%nat with true; [done |].
  symmetry. apply Nat.leb_le. lia.
Qed.

Lemma writeFloatLE_ok v off (b : Buffer) :
  (off + 4 ≤ length b)%nat →
  Buf.writeFloatLE legacyNoAssert v off true b = inr (Buf.store32 v off b).
Proof.
  intros Hoff. unfold Buf.writeFloatLE, Buf.inBounds.
  destruct (Buf.unchecked _ _); [done |].
  replace (off + 4 <=? length b)%nat with true; [done |].
  symmetry. apply Nat.leb_le. lia.
Qed.

Lemma beginPacket_ok srvId data protocolVer :
  (16 ≤ length data)%nat → Z.of_nat (length data) - 16 <= 65535 →
  0 <= protocolVer <= 65535 → 0 <= srvId <= 4294967295 →
  beginPacket srvId data protocolVer = inr (headerOf srvId protocolVer data, 16%nat).
Proof.
  intros Hlen Hsmall Hver Hid. unfold beginPacket, headerOf.
  replace (16 <=? length data)%nat with true by (symmetry; apply Nat.leb_le; lia).
  rewrite writeUInt16LE_ok by (rewrite ?length_set; lia).
  cbn [mbind error_bind].
  rewrite writeUInt16LE_ok
    by (rewrite ?length_store16, ?length_set; lia).
  cbn [mbind error_bind].
  rewrite writeUInt32LE_ok
    by (rewrite ?length_store16, ?length_set; lia).
  cbn [mbind error_bind].
  rewrite writeUInt32LE_ok
    by (rewrite ?length_store32, ?length_store16, ?length_set; lia).
  cbn [mbind error_bind mret error_ret].
  by rewrite length_store16, !length_set.
Qed.

Lemma headerOf_magic srvId protocolVer (b : Buffer) :
  (16 ≤ length b)%nat → take 4 (headerOf srvId protocolVer b) = [68; 83; 85; 83].
Proof.
  intros Hlen. unfold headerOf, Buf.store32, Buf.store16, Buf.set.
  rewrite !take_insert_ge by lia.
  do 4 (destruct b as [| ? b]; [simpl in Hlen; lia |]). simpl.
  by rewrite take_0.
Qed.

Lemma headerOf_version srvId protocolVer (b : Buffer) :
  (16 ≤ length b)%nat → 0 <= protocolVer < 2 ^ 16 →
  Buf.readUInt16LE (headerOf srvId protocolVer b) 4 = inr protocolVer.
Proof.
  intros Hlen Hver. unfold headerOf, Buf.readUInt16LE.
  rewrite !lookup_store32_other by lia.
  rewrite (lookup_store16_other 6 _ 4), (lookup_store16_other 6 _ (4 + 1)) by lia.
  apply (read_store16 protocolVer 4); [rewrite !length_set; lia | done].
Qed.

Lemma headerOf_serverId srvId protocolVer (b : Buffer) :
  (16 ≤ length b)%nat → 0 <= srvId < 2 ^ 32 →
  Buf.readUInt32LE (headerOf srvId protocolVer b) 12 = inr srvId.
Proof.
  intros Hlen Hid. unfold headerOf.
  apply read_store32; [| done].
  rewrite length_store32, !length_store16, !length_set. lia.
Qed.

Lemma headerOf_body srvId protocolVer (b : Buffer) i :
  (16 ≤ i)%nat → headerOf srvId protocolVer b !! i = b !! i.
Proof.
  intros Hi. unfold headerOf.
  rewrite !lookup_store32_other, !lookup_store16_other, !lookup_set_ne by lia.
  done.
Qed.

(** X4: On a buffer of at least 16 bytes, with a version and a payload
    length that fit 16 bits and a server id that fits 32 bits,
    [beginPacket] returns index 16 and a buffer of the same length that
    starts with "DSUS", reads back the version at offset 4, the length
    less 16 at offset 6, zero at offset 8 and the server id at
    offset 12, and is unchanged from offset 16 on. *)
Theorem beginPacket_header srvId data protocolVer :
  (16 ≤ length data)%nat → Z.of_nat (length data) - 16 < 2 ^ 16 →
  0 <= protocolVer < 2 ^ 16 → 0 <= srvId < 2 ^ 32 →
  ∃ b, beginPacket srvId data protocolVer = inr (b, 16%nat)
       ∧ length b = length data
       ∧ take 4 b = [68; 83; 85; 83]
       ∧ Buf.readUInt16LE b 4 = inr protocolVer
       ∧ Buf.readUInt16LE b 6 = inr (Z.of_nat (length data) - 16)
       ∧ Buf.readUInt32LE b 8 = inr 0
       ∧ Buf.readUInt32LE b 12 = inr srvId
       ∧ ∀ i, (16 ≤ i)%nat → b !! i = data !! i.
Proof.
  intros Hlen Hsmall Hver Hid. exists (headerOf srvId protocolVer data).
  split; [apply beginPacket_ok; lia |].
  split; [apply length_headerOf |].
  split; [by apply headerOf_magic |].
  split; [by apply headerOf_version |].
  split; [by apply headerOf_length_field |].
  split.
  { unfold Buf.readUInt32LE.
    rewrite !headerOf_crc_cleared by (done || lia). done. }
  split; [by apply headerOf_serverId |].
  intros i Hi. by apply headerOf_body.
Qed.

Lemma length_alloc n : length (Buf.alloc n) = n.
Proof. unfold Buf.alloc. apply length_replicate. Qed.

Lemma lookup_fill_from value off (b : Buffer) i :
  (off ≤ i)%nat → (i - off < length value)%nat → (i < length b)%nat →
  Buf.fill value off b !! i = value !! (i - off)%nat.
Proof.
  intros Hoff Hval Hlen. unfold Buf.fill. rewrite list_lookup_imap.
  destruct (lookup_lt_is_Some_2 b i Hlen) as [x ->]. simpl.
  rewrite bool_decide_false by lia.
  rewrite Nat.mod_small by lia.
  destruct (lookup_lt_is_Some_2 value (i - off) Hval) as [y ->]. done.
Qed.

Lemma length_packetOf srvId protocolVer data :
  length (packetOf srvId protocolVer data) = (length data + 16)%nat.
Proof.
  unfold packetOf. cbv zeta.
  by rewrite length_store32, length_fill, length_headerOf, length_alloc.
Qed.

Lemma packetOf_header srvId protocolVer data i :
  (i < 8 ∨ 12 ≤ i < 16)%nat →
  packetOf srvId protocolVer data !! i
  = headerOf srvId protocolVer (Buf.alloc (length data + 16)) !! i.
Proof.
  intros Hi. unfold packetOf. cbv zeta.
  rewrite lookup_store32_other by lia. apply lookup_fill_before. lia.
Qed.

Lemma packetOf_body srvId protocolVer data :
  drop 16 (packetOf srvId protocolVer data) = data.
Proof.
  apply list_eq. intros i. rewrite lookup_drop.
  unfold packetOf. cbv zeta. rewrite lookup_store32_other by lia.
  destruct (decide (i < length data)%nat) as [Hi | Hi].
  - rewrite lookup_fill_from
      by (rewrite ?length_headerOf, ?length_alloc; lia).
    f_equal. lia.
  - rewrite (lookup_ge_None_2 data i) by lia.
    apply lookup_ge_None_2.
    rewrite length_fill, length_headerOf, length_alloc. lia.
Qed.

Lemma store32_crcOk (b : Buffer) :
  (12 ≤ length b)%nat →
  (∀ i, (8 ≤ i < 12)%nat → b !! i = Some 0) →
  crcOk (Buf.store32 (crc32 b) 8 b).
Proof.
  intros Hlen Hzero. unfold crcOk.
  rewrite read_store32 by (lia || apply crc32_range).
  f_equal. f_equal. symmetry. apply list_eq. intros i.
  unfold clearCrc, Buf.store32.
  destruct (decide (8 ≤ i < 12)%nat) as [Hi | Hi].
  - rewrite Hzero by done.
    assert (i = 8 ∨ i = 9 ∨ i = 10 ∨ i = 11)%nat as [-> | [-> | [-> | ->]]] by lia.
    + rewrite !lookup_set_ne, lookup_set_eq by (rewrite ?length_set; lia). done.
    + rewrite !lookup_set_ne, lookup_set_eq by (rewrite ?length_set; lia). done.
    + rewrite !lookup_set_ne, lookup_set_eq by (rewrite ?length_set; lia). done.
    + rewrite lookup_set_eq by (rewrite ?length_set; lia). done.
  - rewrite !lookup_set_ne by (simpl; lia). done.
Qed.

Lemma packetOf_crcOk srvId protocolVer data :
  crcOk (packetOf srvId protocolVer data).
Proof.
  unfold packetOf. cbv zeta. apply store32_crcOk.
  - rewrite length_fill, length_headerOf, length_alloc. lia.
  - intros i Hi. rewrite lookup_fill_before by lia.
    apply headerOf_crc_cleared; [rewrite length_alloc; lia | done].
Qed.

Lemma sendPacket_run clientEndpoint data protocolVer w sock :
  socket (server w) = Some sock →
  0 <= serverId (server w) <= 4294967295 →
  0 <= protocolVer <= 65535 → Z.of_nat (length data) <= 65535 →
  sendPacket clientEndpoint data protocolVer w
  = (inr tt,
     mkWorld (server w)
       (trace w ++ [EvAlloc (length data + 16);
                    EvSend (packetOf (serverId (server w)) protocolVer data)
                      (port clientEndpoint) (address clientEndpoint)])).
Proof.
  intros Hsock Hid Hver Hlen.
  unfold sendPacket, mbind, op_bind, emit, getServer, lift. cbn [server trace].
  rewrite beginPacket_ok by (rewrite ?length_alloc; lia).
  unfold finishPacket.
  rewrite writeUInt32LE_ok.
  - rewrite Hsock. cbn [server trace]. unfold packetOf. cbv zeta.
    by rewrite <- app_assoc.
  - pose proof (crc32_range
                  (Buf.fill data 16
                     (headerOf (serverId (server w)) protocolVer
                        (Buf.alloc (length data + 16))))).
    lia.
  - rewrite length_fill, length_headerOf, length_alloc. lia.
Qed.

Lemma packetOf_facts srvId protocolVer data :
  0 <= srvId < 2 ^ 32 → 0 <= protocolVer < 2 ^ 16 →
  Z.of_nat (length data) < 2 ^ 16 →
  let D := packetOf srvId protocolVer data in
  length D = (length data + 16)%nat
  ∧ take 4 D = [68; 83; 85; 83]
  ∧ Buf.readUInt16LE D 4 = inr protocolVer
  ∧ Buf.readUInt16LE D 6 = inr (Z.of_nat (length data))
  ∧ Buf.readUInt32LE D 12 = inr srvId
  ∧ crcOk D
  ∧ drop 16 D = data.
Proof.
  intros Hid Hver Hlen D. subst D.
  assert (Halloc : (16 ≤ length (Buf.alloc (length data + 16)))%nat)
    by (rewrite length_alloc; lia).
  split; [apply length_packetOf |].
  split.
  { apply list_eq. intros i. destruct (decide (i < 4)%nat) as [Hi | Hi].
    - rewrite lookup_take_lt by done. rewrite packetOf_header by lia.
      rewrite <- (lookup_take_lt _ 4 i) by done.
      by rewrite headerOf_magic.
    - rewrite lookup_take_ge by lia. by rewrite lookup_ge_None_2 by (simpl; lia). }
  split.
  { unfold Buf.readUInt16LE. rewrite !packetOf_header by lia.
    by apply headerOf_version. }
  split.
  { unfold Buf.readUInt16LE. rewrite !packetOf_header by lia.
    pose proof (headerOf_length_field srvId protocolVer
                  (Buf.alloc (length data + 16)) Halloc) as Hfield.
    rewrite length_alloc in Hfield. unfold Buf.readUInt16LE in Hfield.
    rewrite Hfield by lia. f_equal. lia. }
  split.
  { unfold Buf.readUInt32LE. rewrite !packetOf_header by lia.
    by apply headerOf_serverId. }
  split; [apply packetOf_crcOk | apply packetOf_body].
Qed.

(** X5: With an open socket, a server id that fits 32 bits, and a version
    and a payload length that fit 16 bits, [sendPacket] allocates one
    buffer of the payload length plus 16 and sends one datagram to the
    endpoint's port and address; the datagram starts with "DSUS",
    carries the version, the payload length and the server id in its
    header, has a valid checksum, and its bytes from offset 16 on are
    the payload; the server is not changed. *)
Theorem sendPacket_datagram clientEndpoint data protocolVer w sock :
  socket (server w) = Some sock →
  0 <= serverId (server w) < 2 ^ 32 →
  0 <= protocolVer < 2 ^ 16 → Z.of_nat (length data) < 2 ^ 16 →
  ∃ D, sendPacket clientEndpoint data protocolVer w
       = (inr tt,
          mkWorld (server w)
            (trace w ++ [EvAlloc (length data + 16);
                         EvSend D (port clientEndpoint) (address clientEndpoint)]))
       ∧ length D = (length data + 16)%nat
       ∧ take 4 D = [68; 83; 85; 83]
       ∧ Buf.readUInt16LE D 4 = inr protocolVer
       ∧ Buf.readUInt16LE D 6 = inr (Z.of_nat (length data))
       ∧ Buf.readUInt32LE D 12 = inr (serverId (server w))
       ∧ crcOk D
       ∧ drop 16 D = data.
Proof.
  intros Hsock Hid Hver Hlen.
  exists (packetOf (serverId (server w)) protocolVer data).
  split; [apply (sendPacket_run _ _ _ _ sock); (done || lia) |].
  by apply packetOf_facts.
Qed.

(** ** Requests that pass the checks *)

Lemma isBytes_lookup (b : Buffer) i x : isBytes b → b !! i = Some x → 0 <= x < 256.
Proof.
  intros Hb Hx. unfold isBytes in Hb. rewrite Forall_forall in Hb.
  apply Hb. eapply list_elem_of_lookup_2. exact Hx.
Qed.

Lemma readUInt16LE_bytes (b : Buffer) off :
  isBytes b → (off + 2 ≤ length b)%nat →
  ∃ v, Buf.readUInt16LE b off = inr v ∧ 0 <= v < 2 ^ 16.
Proof.
  intros Hb Hlen. unfold Buf.readUInt16LE.
  destruct (lookup_lt_is_Some_2 b off) as [b0 H0]; [lia |].
  destruct (lookup_lt_is_Some_2 b (off + 1)) as [b1 H1]; [lia |].
  rewrite H0, H1. eexists. split; [done |].
  pose proof (isBytes_lookup _ _ _ Hb H0). pose proof (isBytes_lookup _ _ _ Hb H1).
  lia.
Qed.

Lemma readUInt32LE_bytes (b : Buffer) off :
  isBytes b → (off + 4 ≤ length b)%nat →
  ∃ v, Buf.readUInt32LE b off = inr v ∧ 0 <= v < 2 ^ 32.
Proof.
  intros Hb Hlen. unfold Buf.readUInt32LE.
  destruct (lookup_lt_is_Some_2 b off) as [b0 H0]; [lia |].
  destruct (lookup_lt_is_Some_2 b (off + 1)) as [b1 H1]; [lia |].
  destruct (lookup_lt_is_Some_2 b (off + 2)) as [b2 H2]; [lia |].
  destruct (lookup_lt_is_Some_2 b (off + 3)) as [b3 H3]; [lia |].
  rewrite H0, H1, H2, H3. eexists. split; [done |].
  pose proof (isBytes_lookup _ _ _ Hb H0). pose proof (isBytes_lookup _ _ _ Hb H1).
  pose proof (isBytes_lookup _ _ _ Hb H2). pose proof (isBytes_lookup _ _ _ Hb H3).
  lia.
Qed.

Lemma readUInt32LE_length (b : Buffer) off v :
  Buf.readUInt32LE b off = inr v → (off + 4 ≤ length b)%nat.
Proof.
  unfold Buf.readUInt32LE.
  destruct (b !! off); [| done]. destruct (b !! (off + 1)%nat); [| done].
  destruct (b !! (off + 2)%nat); [| done].
  destruct (b !! (off + 3)%nat) eqn:H3; [| done].
  intros _. apply lookup_lt_Some in H3. lia.
Qed.

Lemma readUInt32LE_drop (b : Buffer) n off :
  Buf.readUInt32LE (drop n b) off = Buf.readUInt32LE b (n + off).
Proof.
  unfold Buf.readUInt32LE. rewrite !lookup_drop.
  by rewrite !Nat.add_assoc.
Qed.

(** An accepted datagram reaches the dispatch on its message type. *)
Lemma onMessageBody_accepted now data clientEndpoint msgType w :
  accepted data msgType →
  onMessageBody now data clientEndpoint w
  = (if msgType =? DSUC_VersionReq then
       emit (EvAlloc 8) ≫= fun _ =>
       outBuffer ← lift (Buf.writeUInt32LE legacyNoAssert DSUS_VersionRsp 0 true
                           (Buf.alloc 8));
       outBuffer ← lift (Buf.writeUInt32LE legacyNoAssert MaxProtocolVer 4 true
                           outBuffer);
       sendPacket clientEndpoint outBuffer 1001
     else if msgType =? DSUC_ListPorts then
       numOfPadRequests ← lift (Buf.readInt32LE data 20);
       if (numOfPadRequests <? 0) || (numOfPadRequests >? 4)
       then throw (PadRequestsOutOfRange numOfPadRequests) else
       lift (checkPadIndices (clearCrc data) 24
               (seq 0 (Z.to_nat numOfPadRequests))) ≫= fun _ =>
       emit (EvAlloc 16) ≫= fun _ =>
       listPortsLoop (clearCrc data) clientEndpoint 24
         (seq 0 (Z.to_nat numOfPadRequests)) (Buf.alloc 16)
     else if msgType =? DSUC_PadDataReq then
       groups ← lift (macGroups (clearCrc data) 22 6);
       registerClient now clientEndpoint (Buf.get data 20) (Buf.get data 21)
         (Js.join_colon groups)
     else mret tt) w.
Proof.
  intros (Hbytes & Hmagic & (v & Hv & Hle) & Hcrc & Htype).
  pose proof (readUInt32LE_length _ _ _ Htype) as Hlen.
  destruct (readUInt16LE_bytes data 6 Hbytes) as (size & Hsize & Hrange); [lia |].
  destruct (readUInt32LE_bytes data 12 Hbytes) as (clientId & Hclient & _); [lia |].
  unfold onMessageBody. rewrite Hmagic.
  unfold mbind at 1, op_bind at 1, lift at 1. rewrite Hv.
  replace (v >? MaxProtocolVer) with false by lia.
  unfold mbind at 1, op_bind at 1, lift at 1. rewrite Hsize.
  replace (size <? 0) with false by lia.
  unfold mbind at 1, op_bind at 1, lift at 1. rewrite Hcrc.
  rewrite Z.eqb_refl. cbn [negb].
  unfold mbind at 1, op_bind at 1, lift at 1.
  rewrite readUInt32LE_clearCrc, Hclient by lia.
  unfold mbind at 1, op_bind at 1, lift at 1.
  rewrite readUInt32LE_clearCrc, Htype by lia.
  rewrite readInt32LE_clearCrc by lia.
  unfold Buf.get. rewrite !lookup_clearCrc by lia. done.
Qed.

(** X6: A datagram that passes the checks but carries a message type other
    than the three requests is ignored: no reply, no error event, no
    change of the server. *)
Theorem onMessage_unknown_type now data clientEndpoint srv msgType :
  accepted data msgType →
  msgType ≠ DSUC_VersionReq → msgType ≠ DSUC_ListPorts →
  msgType ≠ DSUC_PadDataReq →
  onMessage now data clientEndpoint srv = (srv, []).
Proof.
  intros Hacc Hv Hl Hp. unfold onMessage, tryCatch.
  rewrite (onMessageBody_accepted _ _ _ _ _ Hacc).
  replace (msgType =? DSUC_VersionReq) with false by lia.
  replace (msgType =? DSUC_ListPorts) with false by lia.
  replace (msgType =? DSUC_PadDataReq) with false by lia.
  done.
Qed.

(** X7: With an open socket, and a server id, reply code and protocol
    version that fit 32 bits, an accepted version request gets exactly
    one reply, sent to the sender's port and address: 24 bytes, header
    version 1001, payload length 8, a valid checksum, and a body made of
    [DSUS_VersionRsp] and [MaxProtocolVer] as little-endian u32; the
    server is not changed and no error is raised. *)
Theorem onMessage_version_reply now data clientEndpoint srv sock :
  accepted data DSUC_VersionReq →
  socket srv = Some sock → 0 <= serverId srv < 2 ^ 32 →
  0 <= DSUS_VersionRsp < 2 ^ 32 → 0 <= MaxProtocolVer < 2 ^ 32 →
  ∃ D, onMessage now data clientEndpoint srv
       = (srv, [EvAlloc 8; EvAlloc 24;
                EvSend D (port clientEndpoint) (address clientEndpoint)])
       ∧ length D = 24%nat
       ∧ take 4 D = [68; 83; 85; 83]
       ∧ Buf.readUInt16LE D 4 = inr 1001
       ∧ Buf.readUInt16LE D 6 = inr 8
       ∧ Buf.readUInt32LE D 12 = inr (serverId srv)
       ∧ Buf.readUInt32LE D 16 = inr DSUS_VersionRsp
       ∧ Buf.readUInt32LE D 20 = inr MaxProtocolVer
       ∧ crcOk D.
Proof.
  intros Hacc Hsock Hid Hrsp Hmax.
  set (body := Buf.store32 MaxProtocolVer 4
                 (Buf.store32 DSUS_VersionRsp 0 (Buf.alloc 8))).
  assert (Hbody : length body = 8%nat).
  { unfold body. by rewrite !length_store32, length_alloc. }
  assert (Hrun : sendPacket clientEndpoint body 1001 (mkWorld srv [EvAlloc 8])
                 = (inr tt,
                    mkWorld srv
                      [EvAlloc 8; EvAlloc 24;
                       EvSend (packetOf (serverId srv) 1001 body)
                         (port clientEndpoint) (address clientEndpoint)])).
  { rewrite (sendPacket_run _ _ _ _ sock); cbn [server trace];
      rewrite ?Hbody; try done; lia. }
  destruct (packetOf_facts (serverId srv) 1001 body)
    as (HlenD & Hmagic & Hver & Hsize & HsrvId & Hcrc & Hdrop);
    [done | lia | rewrite Hbody; lia |].
  rewrite Hbody in HlenD, Hsize.
  remember (packetOf (serverId srv) 1001 body) as D eqn:HD. clear HD.
  exists D. split.
  { unfold onMessage, tryCatch.
    rewrite (onMessageBody_accepted _ _ _ _ _ Hacc), Z.eqb_refl.
    unfold mbind at 1, op_bind at 1, emit at 1. cbn [server trace app].
    unfold mbind at 1, op_bind at 1, lift at 1.
    rewrite writeUInt32LE_ok by (rewrite ?length_alloc; lia).
    unfold mbind at 1, op_bind at 1, lift at 1.
    rewrite writeUInt32LE_ok by (rewrite ?length_store32, ?length_alloc; lia).
    fold body. rewrite Hrun. done. }
  repeat (split; [done |]).
  split; [| split; [| done]].
  - change 16%nat with (16 + 0)%nat. rewrite <- readUInt32LE_drop, Hdrop.
    unfold body, Buf.readUInt32LE. rewrite !lookup_store32_other by lia.
    apply (read_store32 DSUS_VersionRsp 0); [rewrite length_alloc; lia | done].
  - change 20%nat with (16 + 4)%nat. rewrite <- readUInt32LE_drop, Hdrop.
    unfold body.
    apply read_store32; [rewrite length_store32, length_alloc; lia | done].
Qed.

(** ** Registration of a client *)

Lemma get_set_eq {V} k (v : V) m : JsMap.get k (JsMap.set k v m) = Some v.
Proof.
  induction m as [| [k' v'] m IH]; simpl.
  - unfold JsMap.sameKey. by rewrite Nat.eqb_refl.
  - destruct (JsMap.sameKey k k') eqn:Hk; simpl; by rewrite Hk.
Qed.

Lemma get_set_ne {V} k k' (v : V) m :
  ref k' ≠ ref k → JsMap.get k' (JsMap.set k v m) = JsMap.get k' m.
Proof.
  intros Hne. induction m as [| [k1 v1] m IH]; simpl.
  - unfold JsMap.sameKey. by rewrite (proj2 (Nat.eqb_neq _ _) Hne).
  - destruct (JsMap.sameKey k k1) eqn:Hk; simpl.
    + unfold JsMap.sameKey in *. apply Nat.eqb_eq in Hk.
      assert (ref k' ≠ ref k1) as Hne1 by congruence.
      by rewrite !(proj2 (Nat.eqb_neq _ _) Hne1).
    + by rewrite IH.
Qed.

Lemma has_get {V} k (m : list (AddressInfo * V)) :
  JsMap.has k m = bool_decide (is_Some (JsMap.get k m)).
Proof.
  unfold JsMap.has. induction m as [| [k' v'] m IH]; simpl.
  - first [ done | symmetry; apply bool_decide_eq_false; by intros [? ?] ].
  - destruct (JsMap.sameKey k k'); simpl; [| done].
    first [ done | symmetry; apply bool_decide_eq_true; eauto ].
Qed.

Lemma macGroups_ok (data : Buffer) index count :
  (index + count ≤ length data)%nat →
  ∃ groups, macGroups data index count = inr groups ∧ length groups = count.
Proof.
  revert index. induction count as [| count IH]; intros index Hlen; simpl.
  { by exists []. }
  unfold Buf.get.
  destruct (lookup_lt_is_Some_2 data index) as [x Hx]; [lia |].
  destruct (IH (S index)) as (groups & Hgroups & Hcount); [lia |].
  rewrite Hx, Hgroups. simpl. eexists. split; [done |]. simpl. by rewrite Hcount.
Qed.

Lemma macGroups_clearCrc (data : Buffer) index count :
  (12 ≤ index)%nat →
  macGroups (clearCrc data) index count = macGroups data index count.
Proof.
  revert index. induction count as [| count IH]; intros index Hi; simpl; [done |].
  unfold Buf.get. rewrite lookup_clearCrc by done.
  by rewrite IH by lia.
Qed.

Lemma registerClient_run now clientEndpoint flags id key w :
  registerClient now clientEndpoint flags id key w
  = (inr tt,
     mkWorld
       (with_clients
          (JsMap.set clientEndpoint
             (registerPadRequest now flags id key
                (default newClientRequestTimes
                   (JsMap.get clientEndpoint (clients (server w)))))
             (if JsMap.has clientEndpoint (clients (server w))
              then clients (server w)
              else JsMap.set clientEndpoint newClientRequestTimes
                     (clients (server w))))
          (server w))
       (trace w)).
Proof.
  unfold registerClient, mbind, op_bind, getServer, putServer.
  rewrite has_get.
  destruct (JsMap.get clientEndpoint (clients (server w))) as [times |] eqn:Hget.
  - rewrite bool_decide_true by eauto. by rewrite Hget.
  - rewrite bool_decide_false by (by intros [? ?]).
    by rewrite get_set_eq.
Qed.

(** What an accepted PadDataReq of at least 28 bytes does. *)
Lemma onMessage_pad_request now data clientEndpoint srv :
  accepted data DSUC_PadDataReq →
  DSUC_PadDataReq ≠ DSUC_VersionReq → DSUC_PadDataReq ≠ DSUC_ListPorts →
  (28 ≤ length data)%nat →
  ∃ groups,
    macGroups data 22 6 = inr groups
    ∧ onMessage now data clientEndpoint srv
      = (with_clients
           (JsMap.set clientEndpoint
              (registerPadRequest now (data !! 20%nat) (data !! 21%nat)
                 (Js.join_colon groups)
                 (default newClientRequestTimes
                    (JsMap.get clientEndpoint (clients srv))))
              (if JsMap.has clientEndpoint (clients srv) then clients srv
               else JsMap.set clientEndpoint newClientRequestTimes (clients srv)))
           srv, []).
Proof.
  intros Hacc Hv Hl Hlen.
  destruct (macGroups_ok data 22 6) as (groups & Hgroups & _); [lia |].
  exists groups. split; [done |].
  unfold onMessage, tryCatch.
  rewrite (onMessageBody_accepted _ _ _ _ _ Hacc).
  replace (DSUC_PadDataReq =? DSUC_VersionReq) with false by lia.
  replace (DSUC_PadDataReq =? DSUC_ListPorts) with false by lia.
  rewrite Z.eqb_refl, macGroups_clearCrc, Hgroups by lia.
  unfold mbind, op_bind, lift. rewrite registerClient_run.
  cbn [server trace]. unfold Buf.get. done.
Qed.

(** X8: An accepted PadDataReq of at least 28 bytes is never answered and
    raises no error.  Afterwards the registry holds, under the sender's
    endpoint object, the record that was there before (a new one when
    there was none) stamped by [registerPadRequest] with the flags byte,
    the pad id byte and the key built from the six MAC bytes; the
    records under every other key, the socket, the server id and the
    slot table are as before. *)
Theorem onMessage_registers now data clientEndpoint srv :
  accepted data DSUC_PadDataReq →
  DSUC_PadDataReq ≠ DSUC_VersionReq → DSUC_PadDataReq ≠ DSUC_ListPorts →
  (28 ≤ length data)%nat →
  ∃ groups,
    macGroups data 22 6 = inr groups
    ∧ snd (onMessage now data clientEndpoint srv) = []
    ∧ let srv' := fst (onMessage now data clientEndpoint srv) in
      JsMap.get clientEndpoint (clients srv')
      = Some (registerPadRequest now (data !! 20%nat) (data !! 21%nat)
                (Js.join_colon groups)
                (default newClientRequestTimes
                   (JsMap.get clientEndpoint (clients srv))))
      ∧ (∀ other, ref other ≠ ref clientEndpoint →
                  JsMap.get other (clients srv') = JsMap.get other (clients srv))
      ∧ socket srv' = socket srv ∧ serverId srv' = serverId srv
      ∧ controllers srv' = controllers srv.
Proof.
  intros Hacc Hv Hl Hlen.
  destruct (onMessage_pad_request now data clientEndpoint srv Hacc Hv Hl Hlen)
    as (groups & Hgroups & ->).
  exists groups. split; [done |].
  cbn [fst snd clients with_clients socket serverId controllers].
  split; [done |]. split; [apply get_set_eq |].
  split; [| done]. intros other Hne. rewrite get_set_ne by done.
  destruct (JsMap.has _ _); [done | by apply get_set_ne].
Qed.

(** ** ListPorts *)










(** ** The pad-data datagram, byte by byte *)

Lemma storePre_pure v :
  stepPure (storePre v)
    (fun o => mkOut (Buf.set (S (outIndex o)) v (outBuffer o)) (S (outIndex o))).
Proof. by intros o o' [= <-]. Qed.

Lemma storeHere_pure v :
  stepPure (storeHere v)
    (fun o => mkOut (Buf.set (outIndex o) v (outBuffer o)) (outIndex o)).
Proof. by intros o o' [= <-]. Qed.

(** [outBuffer[outIndex] |= mask] under a condition changes the one
    element in place. *)
Lemma orHere_pure c mask :
  stepPure (orHere c mask)
    (fun o => mkOut (alter (fun x => if c then Z.lor x mask mod 256 else x)
                       (outIndex o) (outBuffer o))
                (outIndex o)).
Proof.
  intros [b i] o'. unfold orHere. cbn [outIndex outBuffer].
  destruct c; intros [= <-]; f_equal.
  - unfold Buf.set, Buf.get. apply list_eq. intros j.
    destruct (decide (j = i)) as [-> |].
    + destruct (b !! i) as [x |] eqn:Hx.
      * rewrite list_lookup_insert_eq by (by eapply lookup_lt_Some).
        rewrite list_lookup_alter_eq, Hx. done.
      * rewrite list_lookup_alter_eq, Hx.
        apply lookup_ge_None. rewrite length_insert. by apply lookup_ge_None.
    + rewrite list_lookup_insert_ne, list_lookup_alter_ne by done. done.
  - apply list_eq. intros j. destruct (decide (j = i)) as [-> |].
    + rewrite list_lookup_alter_eq. by destruct (b !! i).
    + by rewrite list_lookup_alter_ne.
Qed.

Ltac steps_pure :=
  repeat first
    [ apply List.Forall2_nil
    | apply List.Forall2_cons;
      [ first [ apply storePost_pure | apply storePre_pure | apply storeHere_pure
              | apply orHere_pure | apply advance_pure | apply u16Here_pure
              | apply u32Here_pure | apply f32Here_pure ] |] ].

Lemma flag_byte255 c : flag c 255 mod 256 = flag c 255.
Proof. by destruct c. Qed.

Ltac layout_fact :=
  lazymatch goal with
  | |- Some (flag _ 1 mod 256) = _ => f_equal; apply flag_byte
  | |- Some (flag _ 255 mod 256) = _ => f_equal; apply flag_byte255
  | |- inr (_ + _ * 2 ^ 8) = inr (_ mod 2 ^ 16) => f_equal; apply le16_bytes
  | |- inr _ = inr (_ mod 2 ^ 32) =>
      f_equal;
      first [ apply le32_bytes
            | rewrite le32_bytes; unfold Buf.toUint32; apply Z.mod_mod; lia ]
  | |- Some _ = Some (_ + flag _ _) =>
      repeat match goal with
             | |- context [flag ?c _] =>
                 lazymatch c with true => fail | false => fail | _ => destruct c end
             end;
      vm_compute; reflexivity
  | |- ?a = ?b => first [ constr_eq a b; reflexivity | vm_compute; reflexivity ]
  end.

(** The whole datagram of a report whose MAC has six groups. *)
Lemma padDataPacket_layout srvId data D :
  length (macParts (DualshockMeta.macAddress (DualshockData.meta data))) = 6%nat →
  padDataPacket srvId data = inr D →
  padIdentification srvId data D
  ∧ padButtons (DualshockData.report data) D
  ∧ padMotion (DualshockData.report data) D.
Proof.
  intros Hmac HD.
  unfold padDataPacket, mbind, error_bind in HD.
  destruct (beginPacket _ _ _) as [e | [b index]] eqn:Hbegin; [done |].
  apply beginPacket_inr in Hbegin as (-> & _ & ->).
  destruct (runSteps _ _) as [e | out] eqn:Hrun; [done |].
  unfold finishPacket in HD. apply writeUInt32LE_inr in HD as ->.
  unfold padIdentification, padButtons, padMotion. cbv zeta.
  unfold padDataSteps, padDataButtons, padDataMotion in Hrun. cbv zeta in Hrun.
  destruct (macParts _) as [| m0 [| m1 [| m2 [| m3 [| m4 [| m5 [| m6 rest]]]]]]];
    try discriminate Hmac.
  clear Hmac. cbn [List.map app] in Hrun.
  eapply runSteps_pure in Hrun; [| steps_pure].
  subst out.
  unfold Buf.readUInt16LE, Buf.readUInt32LE.
  cbv [fold_left outBuffer outIndex Buf.set Buf.store16 Buf.store32 Buf.alloc
       headerOf replicate insert list_insert alter list_alter lookup list_lookup
       Nat.add Init.Nat.add take drop firstn skipn List.map].
  repeat apply conj; layout_fact.
Qed.

(** X10: Every datagram [handleReport] sends for a report whose MAC has six
    groups starts with the magic DSUS, protocol version 1001 and the
    server id, and carries the message type at offset 16, then pad id,
    state, model and connection type, the six MAC bytes at 24..29,
    battery status at 30, the active flag at 31 and the packet counter
    at 32..35. *)
Theorem padData_identification now data srv :
  length (macParts (DualshockMeta.macAddress (DualshockData.meta data))) = 6%nat →
  Forall (padIdentification (serverId srv) data)
    (sentBuffers (snd (handleReport now data srv))).
Proof.
  intros Hmac. apply handleReport_sends. intros D HD.
  by apply padDataPacket_layout in HD as (? & _ & _).
Qed.

(** X11: In every such datagram offsets 36 and 37 are the two button bitmaps
    (D-pad left, down, right, up, options, R3, L3, share and square,
    cross, circle, triangle, R1, L1, R2, L2, from bit 7 down to bit 0),
    38 and 39 the PS and touch flags, 40..43 the sticks, 44..53 the
    analog values of D-pad and buttons as 0 or 255, 54 the analog
    trigger R2. *)
Theorem padData_buttons now data srv :
  length (macParts (DualshockMeta.macAddress (DualshockData.meta data))) = 6%nat →
  Forall (padButtons (DualshockData.report data))
    (sentBuffers (snd (handleReport now data srv))).
Proof.
  intros Hmac. apply handleReport_sends. intros D HD.
  by apply padDataPacket_layout in HD as (_ & ? & _).
Qed.

(** X12: In every such datagram touch 1's Y is at 60..61, touch 2 at 62..67
    (active flag, id, X, Y), the high half of the motion timestamp at
    72..75, and the bit patterns of the accelerometer's and the gyro's
    x, y, z at 76..87 and 88..99. *)
Theorem padData_motion now data srv :
  length (macParts (DualshockMeta.macAddress (DualshockData.meta data))) = 6%nat →
  Forall (padMotion (DualshockData.report data))
    (sentBuffers (snd (handleReport now data srv))).
Proof.
  intros Hmac. apply handleReport_sends. intros D HD.
  by apply padDataPacket_layout in HD as (_ & _ & ?).
Qed.

(** ** When the datagram is built, and when it is not *)

Lemma storePost_succeeds v : stepSucceeds (storePost v) 0.
Proof. intros o _. by eexists. Qed.

Lemma storePre_succeeds v : stepSucceeds (storePre v) 0.
Proof. intros o _. by eexists. Qed.

Lemma storeHere_succeeds v : stepSucceeds (storeHere v) 0.
Proof. intros o _. by eexists. Qed.

Lemma orHere_succeeds c mask : stepSucceeds (orHere c mask) 0.
Proof. intros o _. unfold orHere. destruct c; by eexists. Qed.

Lemma advance_succeeds n : stepSucceeds (advance n) 0.
Proof. intros o _. by eexists. Qed.

Lemma u16Here_succeeds v : 0 <= v <= 65535 → stepSucceeds (u16Here v) 2.
Proof.
  intros Hv o Ho. unfold u16Here. rewrite writeUInt16LE_ok by done. by eexists.
Qed.

Lemma u32Here_succeeds v : 0 <= v <= 4294967295 → stepSucceeds (u32Here v) 4.
Proof.
  intros Hv o Ho. unfold u32Here. rewrite writeUInt32LE_ok by done. by eexists.
Qed.

Lemma f32Here_succeeds bits : stepSucceeds (f32Here bits) 4.
Proof.
  intros o Ho. unfold f32Here. rewrite writeFloatLE_ok by done. by eexists.
Qed.

Lemma u16Here_moves v : stepMoves (u16Here v) 0.
Proof.
  intros o o' Hrun. apply u16Here_pure in Hrun as ->. cbn [outIndex outBuffer].
  rewrite length_store16. split; [lia | done].
Qed.

Lemma f32Here_moves bits : stepMoves (f32Here bits) 0.
Proof.
  intros o o' Hrun. apply f32Here_pure in Hrun as ->. cbn [outIndex outBuffer].
  rewrite length_store32. split; [lia | done].
Qed.

Lemma runSteps_succeeds steps needs ns :
  Forall2 stepSucceeds steps needs → Forall2 stepMoves steps ns →
  ∀ o, fits (length (outBuffer o)) (outIndex o) needs ns = true →
       ∃ o', runSteps steps o = inr o'.
Proof.
  intros Hneeds. revert ns.
  induction Hneeds as [| s need steps needs Hs _ IH]; intros ns Hns o Hfits.
  { by eexists. }
  inversion Hns as [| ? n ? ns' Hmove Hrest]; subst.
  cbn [fits] in Hfits. apply andb_true_iff in Hfits as [Hneed Hfits].
  apply Nat.leb_le in Hneed.
  destruct (Hs o Hneed) as [o1 Hso]. rewrite runSteps_cons, Hso.
  destruct (Hmove o o1 Hso) as [Hi Hl]. cbn [mbind error_bind].
  apply (IH ns' Hrest). by rewrite Hl, Hi.
Qed.

Ltac steps_succeed :=
  repeat first
    [ apply List.Forall2_nil
    | apply List.Forall2_cons;
      [ first [ apply storePost_succeeds | apply storePre_succeeds
              | apply storeHere_succeeds | apply orHere_succeeds
              | apply advance_succeeds
              | apply u16Here_succeeds; lia
              | apply u32Here_succeeds;
                first [ lia
                      | match goal with
                        | |- _ <= Buf.toUint32 ?v <= _ =>
                            pose proof (toUint32_range v); lia
                        end ]
              | apply f32Here_succeeds ] |] ].

Ltac steps_move :=
  repeat first
    [ apply List.Forall2_nil
    | apply List.Forall2_cons;
      [ first [ apply storePost_moves | apply storePre_moves
              | apply storeHere_moves | apply orHere_moves
              | apply advance_moves | apply u16Here_moves
              | apply u32Here_moves | apply f32Here_moves ] |] ].

(** With six MAC groups and numbers that fit, the datagram is built. *)
Lemma padDataPacket_succeeds srvId data :
  length (macParts (DualshockMeta.macAddress (DualshockData.meta data))) = 6%nat →
  reportFits srvId (DualshockData.report data) →
  ∃ D, padDataPacket srvId data = inr D.
Proof.
  intros Hmac (Hid & Hcode & Hcounter & Hx1 & Hy1 & Hx2 & Hy2).
  unfold padDataPacket.
  rewrite beginPacket_ok by (rewrite ?length_alloc; simpl; lia).
  cbn [mbind error_bind].
  assert (∃ out, runSteps (padDataSteps (DualshockData.meta data)
                             (DualshockData.report data))
                   (mkOut (headerOf srvId 1001 (Buf.alloc 100)) 16) = inr out
                 ∧ length (outBuffer out) = 100%nat) as (out & -> & Hlen).
  { unfold padDataSteps, padDataButtons, padDataMotion. cbv zeta.
    destruct (macParts _) as [| m0 [| m1 [| m2 [| m3 [| m4 [| m5 [| m6 rest]]]]]]];
      try discriminate Hmac.
    cbn [List.map app].
    match goal with
    | |- ∃ out, runSteps ?steps ?o = inr out ∧ _ =>
        assert (∃ out, runSteps steps o = inr out) as [out Hout]
    end.
    { eapply runSteps_succeeds; [steps_succeed | steps_move |].
      cbn [outBuffer outIndex]. rewrite length_headerOf, length_alloc.
      reflexivity. }
    exists out. split; [exact Hout |].
    eapply runSteps_moves in Hout as [_ Hl]; [| steps_move].
    cbn [outBuffer] in Hl. by rewrite Hl, length_headerOf, length_alloc. }
  cbn [mbind error_bind]. unfold finishPacket.
  rewrite writeUInt32LE_ok; [by eexists | | lia].
  pose proof (crc32_range (outBuffer out)). lia.
Qed.

(** X13: With an open socket, a report whose MAC has six groups and whose
    numbers fit is delivered: one 100-byte buffer is allocated and the
    same datagram, with a valid checksum, is sent once to every
    interested client, in registry order, and to nobody else; the
    clients without any fresh stamp leave the registry, the rest of the
    server is untouched and no error is raised. *)
Theorem handleReport_delivers now data srv sock :
  socket srv = Some sock → registryWf srv →
  length (macParts (DualshockMeta.macAddress (DualshockData.meta data))) = 6%nat →
  reportFits (serverId srv) (DualshockData.report data) →
  let found :=
    List.map fst
      (List.filter (fun e => interestedb (DualshockData.meta data) now (snd e))
         (clients srv)) in
  found ≠ [] →
  ∃ D,
    handleReport now data srv
    = (with_clients (List.filter (fun e => hasFreshStampb now (snd e)) (clients srv))
         srv,
       EvAlloc 100
       :: List.map (fun client => EvSend D (port client) (address client)) found)
    ∧ length D = 100%nat ∧ crcOk D.
Proof.
  intros Hsock Hwf Hmac Hfits found Hfound.
  destruct (padDataPacket_succeeds _ _ Hmac Hfits) as [D HD].
  exists D. rewrite handleReport_run, Hsock. cbv zeta.
  rewrite getClientsForReport_run by done. cbn [fst snd]. fold found.
  replace (0 <? length found)%nat with true
    by (symmetry; apply Nat.ltb_lt; destruct found; [done | simpl; lia]).
  rewrite HD. split; [done |].
  by apply padDataPacket_framed in HD as (? & ? & _).
Qed.

(** X14: With an open socket and no interested client, a report costs
    nothing but the sweep: no buffer is allocated, nothing is sent, no
    error is raised, and the clients without any fresh stamp leave the
    registry. *)
Theorem handleReport_idle now data srv sock :
  socket srv = Some sock → registryWf srv →
  List.filter (fun e => interestedb (DualshockData.meta data) now (snd e))
    (clients srv) = [] →
  handleReport now data srv
  = (with_clients (List.filter (fun e => hasFreshStampb now (snd e)) (clients srv))
       srv, []).
Proof.
  intros Hsock Hwf Hnone. rewrite handleReport_run, Hsock. cbv zeta.
  rewrite getClientsForReport_run by done. cbn [fst snd]. by rewrite Hnone.
Qed.

(** X15: After [clearClients] no report reaches anybody, whatever the
    registry held and whether or not the socket is open: the next
    [handleReport] sends nothing and allocates nothing. *)
Theorem clearClients_silences now data srv :
  handleReport now data (clearClients srv) = (clearClients srv, []).
Proof.
  rewrite handleReport_run. destruct (socket (clearClients srv)); [| done].
  cbv zeta. rewrite getClientsForReport_run by apply NoDup_nil_2.
  destruct srv. reflexivity.
Qed.

(** *** Reports the validating writers refuse *)

Lemma writeUInt16LE_checked v off (b b' : Buffer) :
  legacyNoAssert = false →
  Buf.writeUInt16LE legacyNoAssert v off true b = inr b' → 0 <= v <= 65535.
Proof.
  intros ->. unfold Buf.writeUInt16LE, Buf.unchecked. cbn [andb].
  destruct (0 <=? v) eqn:H0; [| done]. destruct (v <=? 65535) eqn:H1; [| done].
  lia.
Qed.

Lemma writeUInt32LE_checked v off (b b' : Buffer) :
  legacyNoAssert = false →
  Buf.writeUInt32LE legacyNoAssert v off true b = inr b' → 0 <= v <= 4294967295.
Proof.
  intros ->. unfold Buf.writeUInt32LE, Buf.unchecked. cbn [andb].
  destruct (0 <=? v) eqn:H0; [| done]. destruct (v <=? 4294967295) eqn:H1; [| done].
  lia.
Qed.

Lemma writeUInt16LE_throws v off noAssert (b : Buffer) e :
  Buf.writeUInt16LE legacyNoAssert v off noAssert b = inl e → e = RangeError.
Proof.
  unfold Buf.writeUInt16LE. destruct (Buf.unchecked _ _); [done |].
  destruct (_ && _); [done |]. by intros [= <-].
Qed.

Lemma writeUInt32LE_throws v off noAssert (b : Buffer) e :
  Buf.writeUInt32LE legacyNoAssert v off noAssert b = inl e → e = RangeError.
Proof.
  unfold Buf.writeUInt32LE. destruct (Buf.unchecked _ _); [done |].
  destruct (_ && _); [done |]. by intros [= <-].
Qed.

Lemma writeFloatLE_throws v off noAssert (b : Buffer) e :
  Buf.writeFloatLE legacyNoAssert v off noAssert b = inl e → e = RangeError.
Proof.
  unfold Buf.writeFloatLE. destruct (Buf.unchecked _ _); [done |].
  destruct (Buf.inBounds _ _ _); [done |]. by intros [= <-].
Qed.

Lemma plain_throwsRange (s : Step) :
  (∀ o, ∃ o', s o = inr o') → stepThrowsRange s.
Proof. intros Hs o e He. destruct (Hs o) as [o' Ho']. congruence. Qed.

Lemma storePost_throwsRange v : stepThrowsRange (storePost v).
Proof. apply plain_throwsRange. intros o. by eexists. Qed.

Lemma storePre_throwsRange v : stepThrowsRange (storePre v).
Proof. apply plain_throwsRange. intros o. by eexists. Qed.

Lemma storeHere_throwsRange v : stepThrowsRange (storeHere v).
Proof. apply plain_throwsRange. intros o. by eexists. Qed.

Lemma orHere_throwsRange c mask : stepThrowsRange (orHere c mask).
Proof. apply plain_throwsRange. intros o. unfold orHere. destruct c; by eexists. Qed.

Lemma advance_throwsRange n : stepThrowsRange (advance n).
Proof. apply plain_throwsRange. intros o. by eexists. Qed.

Lemma u16Here_throwsRange v : stepThrowsRange (u16Here v).
Proof.
  intros o e. unfold u16Here, mbind, error_bind.
  destruct (Buf.writeUInt16LE _ _ _ _ _) as [e' | b] eqn:Hw; [| done].
  intros [= <-]. by apply writeUInt16LE_throws in Hw.
Qed.

Lemma u32Here_throwsRange v : stepThrowsRange (u32Here v).
Proof.
  intros o e. unfold u32Here, mbind, error_bind.
  destruct (Buf.writeUInt32LE _ _ _ _ _) as [e' | b] eqn:Hw; [| done].
  intros [= <-]. by apply writeUInt32LE_throws in Hw.
Qed.

Lemma f32Here_throwsRange v : stepThrowsRange (f32Here v).
Proof.
  intros o e. unfold f32Here, mbind, error_bind.
  destruct (Buf.writeFloatLE _ _ _ _ _) as [e' | b] eqn:Hw; [| done].
  intros [= <-]. by apply writeFloatLE_throws in Hw.
Qed.

Lemma runSteps_throwsRange steps :
  Forall stepThrowsRange steps →
  ∀ o e, runSteps steps o = inl e → e = RangeError.
Proof.
  induction 1 as [| s steps Hs _ IH]; intros o e; [done |].
  rewrite runSteps_cons. destruct (s o) as [e' | o1] eqn:Hso.
  - intros [= <-]. by eapply Hs.
  - apply IH.
Qed.

Ltac steps_throw :=
  repeat first
    [ apply List.Forall_nil
    | apply List.Forall_cons;
      [ first [ apply storePost_throwsRange | apply storePre_throwsRange
              | apply storeHere_throwsRange | apply orHere_throwsRange
              | apply advance_throwsRange | apply u16Here_throwsRange
              | apply u32Here_throwsRange | apply f32Here_throwsRange ] |] ].

Lemma padDataSteps_throwRange meta report :
  Forall stepThrowsRange (padDataSteps meta report).
Proof.
  unfold padDataSteps, padDataButtons, padDataMotion. cbv zeta.
  apply Forall_app. split; [| steps_throw].
  apply Forall_app. split; [steps_throw |].
  apply Forall_app. split; [| steps_throw].
  apply Forall_map, Forall_forall. intros v _. apply storePost_throwsRange.
Qed.

(** The only error of building a pad-data datagram is a RangeError. *)
Lemma padDataPacket_throws srvId data e :
  padDataPacket srvId data = inl e → e = RangeError.
Proof.
  unfold padDataPacket, mbind, error_bind.
  destruct (beginPacket _ _ _) as [e' | [b index]] eqn:Hbegin.
  - intros [= <-]. unfold beginPacket in Hbegin.
    rewrite length_alloc in Hbegin. cbn [Nat.leb] in Hbegin.
    unfold mbind, error_bind in Hbegin.
    repeat match type of Hbegin with
           | match ?w with _ => _ end = _ =>
               let Hw := fresh "Hw" in
               destruct w eqn:Hw;
               [ first [ apply writeUInt16LE_throws in Hw
                       | apply writeUInt32LE_throws in Hw ];
                 congruence |]
           end.
    done.
  - destruct (runSteps _ _) as [e' | out] eqn:Hrun.
    + intros [= <-]. eapply runSteps_throwsRange; [| exact Hrun].
      apply padDataSteps_throwRange.
    + apply writeUInt32LE_throws.
Qed.

Lemma plain_checked (s : Step) : stepChecked s True.
Proof. by intros o o' _. Qed.

Lemma u16Here_checked v :
  legacyNoAssert = false → stepChecked (u16Here v) (0 <= v <= 65535).
Proof.
  intros Hlegacy o o'. unfold u16Here, mbind, error_bind.
  destruct (Buf.writeUInt16LE _ _ _ _ _) as [e | b] eqn:Hw; [done |].
  intros _. by eapply writeUInt16LE_checked.
Qed.

Lemma u32Here_checked v :
  legacyNoAssert = false → stepChecked (u32Here v) (0 <= v <= 4294967295).
Proof.
  intros Hlegacy o o'. unfold u32Here, mbind, error_bind.
  destruct (Buf.writeUInt32LE _ _ _ _ _) as [e | b] eqn:Hw; [done |].
  intros _. by eapply writeUInt32LE_checked.
Qed.

Lemma runSteps_checked steps Ps :
  Forall2 stepChecked steps Ps →
  ∀ o o', runSteps steps o = inr o' → Forall (fun P : Prop => P) Ps.
Proof.
  induction 1 as [| s P steps Ps Hs _ IH]; intros o o'; [constructor |].
  rewrite runSteps_cons. destruct (s o) as [e | o1] eqn:Hso; [done |].
  cbn [mbind error_bind]. intros Hrest. constructor.
  - by eapply Hs.
  - by eapply IH.
Qed.

Ltac steps_checked Hlegacy :=
  repeat first
    [ apply List.Forall2_nil
    | apply List.Forall2_cons;
      [ first [ apply (u16Here_checked _ Hlegacy)
              | apply (u32Here_checked _ Hlegacy)
              | apply plain_checked ] |] ].

(** On a validating runtime a datagram is built only from numbers that
    fit. *)
Lemma padDataPacket_checked srvId data D :
  legacyNoAssert = false →
  padDataPacket srvId data = inr D → reportFits srvId (DualshockData.report data).
Proof.
  intros Hlegacy. unfold padDataPacket, mbind, error_bind.
  destruct (beginPacket _ _ _) as [e | [b index]] eqn:Hbegin; [done |].
  destruct (runSteps _ _) as [e | out] eqn:Hrun; [done |]. intros _.
  assert (0 <= srvId <= 4294967295) as Hid.
  { unfold beginPacket in Hbegin. rewrite length_alloc in Hbegin.
    cbn [Nat.leb] in Hbegin. unfold mbind, error_bind in Hbegin.
    repeat match type of Hbegin with
           | match ?w with _ => _ end = _ =>
               let Hw := fresh "Hw" in destruct w eqn:Hw; [done |]
           end.
    by eapply writeUInt32LE_checked. }
  unfold padDataSteps, padDataButtons in Hrun. cbv zeta in Hrun.
  rewrite !runSteps_app in Hrun. unfold mbind, error_bind in Hrun.
  destruct (runSteps _ (mkOut b index)) as [e | o1] eqn:Hfirst; [done |].
  rewrite runSteps_app in Hrun. unfold mbind, error_bind in Hrun.
  destruct (runSteps (List.map _ _) o1) as [e | o2] eqn:Hmac; [done |].
  destruct (runSteps _ o2) as [e | o3] eqn:Hbuttons; [done |].
  eapply runSteps_checked in Hfirst; [| steps_checked Hlegacy].
  eapply runSteps_checked in Hbuttons; [| steps_checked Hlegacy].
  eapply runSteps_checked in Hrun;
    [| unfold padDataMotion; cbv zeta; steps_checked Hlegacy].
  repeat match goal with
         | H : Forall _ (_ :: _) |- _ => apply Forall_cons in H as [? H]
         end.
  unfold reportFits. cbv zeta. repeat split; lia.
Qed.

(** X16: On a runtime whose Buffer writers validate, a report with a number
    that does not fit (a server id, message type or packet counter
    outside 32 bits, a touch coordinate outside 16) is delivered to
    nobody: with interested clients present, one buffer is allocated, a
    RangeError is raised on the error stream and nothing is sent.  The
    sweep of stale clients has happened all the same. *)
Theorem handleReport_range_error now data srv sock :
  legacyNoAssert = false → socket srv = Some sock → registryWf srv →
  List.filter (fun e => interestedb (DualshockData.meta data) now (snd e))
    (clients srv) ≠ [] →
  ¬ reportFits (serverId srv) (DualshockData.report data) →
  handleReport now data srv
  = (with_clients (List.filter (fun e => hasFreshStampb now (snd e)) (clients srv))
       srv,
     [EvAlloc 100; EvError RangeError]).
Proof.
  intros Hlegacy Hsock Hwf Hfound Hbad. rewrite handleReport_run, Hsock. cbv zeta.
  rewrite getClientsForReport_run by done. cbn [fst snd].
  rewrite length_map.
  replace (0 <? length _)%nat with true
    by (symmetry; apply Nat.ltb_lt; destruct (List.filter _ _); [done | simpl; lia]).
  destruct (padDataPacket _ _) as [e | D] eqn:HD.
  - by apply padDataPacket_throws in HD as ->.
  - by apply padDataPacket_checked in HD.
Qed.

(** ** What a datagram can change, and what it can raise *)

Lemma registerClient_sameBut srv clientEndpoint now flags id key :
  serverOk (sameBut clientEndpoint srv) (registerClient now clientEndpoint flags id key).
Proof.
  intros w r w' Hrun (Hsock & Hid & Hslots & Hothers & Hkept).
  rewrite registerClient_run in Hrun. injection Hrun as <- <-.
  cbn [server]. unfold sameBut.
  cbn [socket serverId controllers clients with_clients].
  split; [done |]. split; [done |]. split; [done |]. split.
  - intros other Hne. rewrite get_set_ne by done. rewrite <- Hothers by done.
    destruct (JsMap.has _ _); [done | by apply get_set_ne].
  - intros _. rewrite get_set_eq. eauto.
Qed.

(** X17: Whatever a datagram holds, handling it leaves the socket, the
    server id and the slot table as they were, and of the registry it
    can touch only the entry of the sender: no other client is added,
    changed or removed, and a registered sender stays registered. *)
Theorem onMessage_frame now data clientEndpoint srv :
  sameBut clientEndpoint srv (fst (onMessage now data clientEndpoint srv)).
Proof.
  unfold onMessage, tryCatch.
  destruct (onMessageBody _ _ _ _) as [r w] eqn:Hrun.
  assert (sameBut clientEndpoint srv (server w)) as Hw.
  { assert (serverOk (sameBut clientEndpoint srv)
              (onMessageBody now data clientEndpoint)) as Hok.
    { unfold onMessageBody.
      repeat first
        [ apply registerClient_sameBut | apply sendPacket_serverOk
        | apply listPortsLoop_serverOk
        | apply serverOk_ret | apply serverOk_throw | apply serverOk_lift
        | apply serverOk_getServer | apply serverOk_emit
        | apply serverOk_bind; [| intros ?]
        | match goal with
          | |- serverOk _ (if ?c then _ else _) => destruct c
          end ]. }
    eapply Hok; [exact Hrun |]. cbn [server]. by repeat split. }
  by destruct r.
Qed.

Lemma macGroups_short (data : Buffer) index count :
  (0 < count)%nat → (length data < index + count)%nat →
  macGroups data index count = inl TypeError.
Proof.
  revert index. induction count as [| count IH]; intros index Hcount Hshort; [lia |].
  cbn [macGroups]. unfold Buf.get.
  destruct (data !! index) as [x |] eqn:Hx; [| done].
  cbn [macGroup mbind error_bind]. apply lookup_lt_Some in Hx.
  rewrite IH; [done | lia | lia].
Qed.

Lemma length_clearCrc (data : Buffer) : length (clearCrc data) = length data.
Proof. unfold clearCrc. by rewrite !length_set. Qed.

(** X18: An accepted PadDataReq shorter than 28 bytes, one that ends before
    the sixth MAC byte, registers nobody: reading the missing byte
    throws a TypeError, which goes to the error stream, and the server
    is left as it was. *)
Theorem onMessage_short_pad_request now data clientEndpoint srv :
  accepted data DSUC_PadDataReq →
  DSUC_PadDataReq ≠ DSUC_VersionReq → DSUC_PadDataReq ≠ DSUC_ListPorts →
  (length data < 28)%nat →
  onMessage now data clientEndpoint srv = (srv, [EvError TypeError]).
Proof.
  intros Hacc Hv Hl Hlen. unfold onMessage, tryCatch.
  rewrite (onMessageBody_accepted _ _ _ _ _ Hacc).
  replace (DSUC_PadDataReq =? DSUC_VersionReq) with false by lia.
  replace (DSUC_PadDataReq =? DSUC_ListPorts) with false by lia.
  rewrite Z.eqb_refl, macGroups_short by (rewrite ?length_clearCrc; lia).
  done.
Qed.

Lemma raises_ret {A} P (x : A) : raises P (mret x).
Proof. by intros w r w' [= <- <-]. Qed.

Lemma raises_throw {A} (P : Error → Prop) e : P e → raises P (@throw A e).
Proof. by intros He w r w' [= <- <-]. Qed.

Lemma raises_getServer P : raises P getServer.
Proof. by intros w r w' [= <- <-]. Qed.

Lemma raises_putServer P srv : raises P (putServer srv).
Proof. by intros w r w' [= <- <-]. Qed.

Lemma raises_emit P ev : quiet ev → raises P (emit ev).
Proof.
  intros Hev w r w' [= <- <-] Hw. split; [| done].
  cbn [trace]. apply Forall_app. split; [done |]. by constructor.
Qed.

Lemma raises_bind {A B} P (m : Op A) (f : A → Op B) :
  raises P m → (∀ x, raises P (f x)) → raises P (m ≫= f).
Proof.
  intros Hm Hf w r w' Hrun Hw. unfold mbind, op_bind in Hrun.
  destruct (m w) as [[e | x] w1] eqn:Hmw.
  - injection Hrun as <- <-. by apply (Hm _ _ _ Hmw).
  - apply (Hf x _ _ _ Hrun). by apply (Hm _ _ _ Hmw).
Qed.

(** A lifted computation hands on only the value it returned. *)
Lemma raises_lift_bind {A B} (P : Error → Prop) (x : Error + A) (f : A → Op B) :
  (∀ e, x = inl e → P e) → (∀ a, x = inr a → raises P (f a)) →
  raises P (lift x ≫= f).
Proof.
  intros He Hf w r w' Hrun Hw. unfold mbind, op_bind, lift in Hrun.
  destruct x as [e | a].
  - injection Hrun as <- <-. split; [done | by apply He].
  - by apply (Hf a eq_refl _ _ _ Hrun).
Qed.

Lemma raises_lift {A} (P : Error → Prop) (x : Error + A) :
  (∀ e, x = inl e → P e) → raises P (lift x).
Proof.
  intros He w r w' [= <- <-] Hw. split; [done |].
  destruct x as [e |]; [by apply He | done].
Qed.

Lemma readUInt16LE_throws (b : Buffer) off e :
  Buf.readUInt16LE b off = inl e → e = RangeError.
Proof.
  unfold Buf.readUInt16LE. repeat destruct (b !! _); by intros [= <-].
Qed.

Lemma readUInt32LE_throws (b : Buffer) off e :
  Buf.readUInt32LE b off = inl e → e = RangeError.
Proof.
  unfold Buf.readUInt32LE. repeat destruct (b !! _); by intros [= <-].
Qed.

Lemma readInt32LE_throws (b : Buffer) off e :
  Buf.readInt32LE b off = inl e → e = RangeError.
Proof.
  unfold Buf.readInt32LE.
  destruct (Buf.readUInt32LE b off) eqn:Hread; [| done].
  intros [= <-]. by apply readUInt32LE_throws in Hread.
Qed.

(** [beginPacket] on a buffer of 16 bytes or more throws only what the
    writers throw. *)
Lemma beginPacket_throws srvId (data : Buffer) protocolVer e :
  (16 ≤ length data)%nat →
  beginPacket srvId data protocolVer = inl e → e = RangeError.
Proof.
  intros Hlen. unfold beginPacket.
  replace (16 <=? length data)%nat with true by (symmetry; apply Nat.leb_le; lia).
  unfold mbind, error_bind. intros Hbegin.
  repeat match type of Hbegin with
         | match ?w with _ => _ end = _ =>
             let Hw := fresh "Hw" in
             destruct w eqn:Hw;
             [ first [ apply writeUInt16LE_throws in Hw
                     | apply writeUInt32LE_throws in Hw ];
               congruence |]
         end.
  done.
Qed.

Lemma sendPacket_raises clientEndpoint data protocolVer :
  raises onMessageError (sendPacket clientEndpoint data protocolVer).
Proof.
  unfold sendPacket.
  apply raises_bind; [by apply raises_emit |]. intros _.
  apply raises_bind; [apply raises_getServer |]. intros srv.
  apply raises_lift_bind.
  { intros e He. apply beginPacket_throws in He as ->; [done |].
    rewrite length_alloc. lia. }
  intros [buffer index] _.
  apply raises_lift_bind.
  { intros e He. unfold finishPacket in He.
    by apply writeUInt32LE_throws in He as ->. }
  intros D _. destruct (socket srv).
  - by apply raises_emit.
  - by apply raises_throw.
Qed.

Lemma portInfo_throws shared meta e :
  portInfo shared meta = inl e → e = RangeError.
Proof.
  unfold portInfo, mbind, error_bind.
  destruct (Buf.writeUInt32LE _ _ _ _ _) as [e' | b] eqn:Hw.
  { intros [= <-]. by apply writeUInt32LE_throws in Hw. }
  destruct (runSteps _ _) as [e' | out] eqn:Hrun; [| done].
  intros [= <-]. eapply runSteps_throwsRange; [| exact Hrun].
  unfold portInfoSteps.
  apply Forall_app. split; [steps_throw |].
  apply Forall_app. split; [| steps_throw].
  destruct (_ =? _)%nat.
  - apply Forall_map, Forall_forall. intros v _. apply storePost_throwsRange.
  - apply Forall_replicate. apply storePost_throwsRange.
Qed.

Lemma listPortsLoop_raises data clientEndpoint index rounds shared :
  raises onMessageError (listPortsLoop data clientEndpoint index rounds shared).
Proof.
  revert shared. induction rounds as [| i rounds IH]; intros shared; simpl.
  { apply raises_ret. }
  apply raises_bind; [apply raises_getServer |]. intros srv.
  destruct (_ ≫= _) as [meta |]; [| apply IH].
  apply raises_lift_bind.
  { intros e He. by apply portInfo_throws in He as ->. }
  intros filled _.
  apply raises_bind; [apply sendPacket_raises |]. intros _. apply IH.
Qed.

Lemma checkPadIndices_raises data index rounds e :
  checkPadIndices data index rounds = inl e → onMessageError e.
Proof.
  induction rounds as [| i rounds IH]; simpl; [done |].
  unfold byteAbove3. destruct (Buf.get data (index + i)) as [x |]; [| exact IH].
  destruct (x >? 3) eqn:Hx; [| exact IH].
  intros [= <-]. simpl. lia.
Qed.

Lemma macGroups_throws data index count e :
  macGroups data index count = inl e → e = TypeError.
Proof.
  revert index. induction count as [| count IH]; intros index; simpl; [done |].
  destruct (Buf.get data index) as [x |]; cbn [macGroup mbind error_bind];
    [| by intros [= <-]].
  destruct (macGroups data (S index) count) as [e' |] eqn:Hrest; [| done].
  intros [= <-]. by eapply IH.
Qed.

Lemma registerClient_raises now clientEndpoint flags id key :
  raises onMessageError (registerClient now clientEndpoint flags id key).
Proof.
  intros w r w' Hrun Hw. rewrite registerClient_run in Hrun.
  by injection Hrun as <- <-.
Qed.

(** The size field of a datagram of bytes is never negative. *)
Lemma readUInt16LE_nonneg (b : Buffer) off v :
  isBytes b → Buf.readUInt16LE b off = inr v → 0 <= v.
Proof.
  intros Hb. unfold Buf.readUInt16LE.
  destruct (b !! off) as [b0 |] eqn:H0; [| done].
  destruct (b !! (off + 1)%nat) as [b1 |] eqn:H1; [| done].
  intros [= <-].
  pose proof (isBytes_lookup _ _ _ Hb H0). pose proof (isBytes_lookup _ _ _ Hb H1).
  lia.
Qed.

Lemma onMessageBody_raises now data clientEndpoint :
  isBytes data → raises onMessageError (onMessageBody now data clientEndpoint).
Proof.
  intros Hbytes. unfold onMessageBody.
  destruct (magicDSUC data); [| apply raises_ret].
  apply raises_lift_bind; [by intros e ->%readUInt16LE_throws |].
  intros protocolVer _.
  destruct (protocolVer >? MaxProtocolVer) eqn:Hver;
    [apply raises_throw; simpl; lia |].
  apply raises_lift_bind; [by intros e ->%readUInt16LE_throws |].
  intros packetSize Hsize. apply readUInt16LE_nonneg in Hsize; [| done].
  replace (packetSize <? 0) with false by lia.
  apply raises_lift_bind; [by intros e ->%readUInt32LE_throws |].
  intros receivedCrc _.
  destruct (receivedCrc =? crc32 (clearCrc data)) eqn:Hcrc; cbn [negb];
    [| apply raises_throw; simpl; lia].
  apply raises_lift_bind; [by intros e ->%readUInt32LE_throws |].
  intros clientId _.
  apply raises_lift_bind; [by intros e ->%readUInt32LE_throws |].
  intros msgType _.
  destruct (msgType =? DSUC_VersionReq).
  { apply raises_bind; [by apply raises_emit |]. intros _.
    apply raises_lift_bind; [by intros e ->%writeUInt32LE_throws |].
    intros b1 _.
    apply raises_lift_bind; [by intros e ->%writeUInt32LE_throws |].
    intros b2 _. apply sendPacket_raises. }
  destruct (msgType =? DSUC_ListPorts).
  { apply raises_lift_bind; [by intros e ->%readInt32LE_throws |].
    intros count _.
    destruct ((count <? 0) || (count >? 4)) eqn:Hcount;
      [apply raises_throw; simpl; lia |].
    apply raises_lift_bind; [intros e; apply checkPadIndices_raises |].
    intros _ _.
    apply raises_bind; [by apply raises_emit |]. intros _.
    apply listPortsLoop_raises. }
  destruct (msgType =? DSUC_PadDataReq); [| apply raises_ret].
  apply raises_lift_bind; [by intros e ->%macGroups_throws |].
  intros groups _. apply registerClient_raises.
Qed.

(** X19: Handling a datagram of bytes puts at most one error on the error
    stream, as the last event, and never one of the two the size checks
    would raise: the test for a negative packet size and
    [beginPacket]'s test for a buffer under 16 bytes cannot fire here.
    A version error tells a version above [MaxProtocolVer], a checksum
    error two different checksums, a pad-count error a count outside
    0..4 and a pad-index error an index above 3. *)
Theorem onMessage_errors now data clientEndpoint srv :
  isBytes data →
  ∃ evs, Forall quiet evs
         ∧ (snd (onMessage now data clientEndpoint srv) = evs
            ∨ ∃ e, snd (onMessage now data clientEndpoint srv) = evs ++ [EvError e]
                   ∧ onMessageError e).
Proof.
  intros Hbytes. unfold onMessage, tryCatch.
  destruct (onMessageBody _ _ _ _) as [r w] eqn:Hrun.
  destruct (onMessageBody_raises now data clientEndpoint Hbytes _ _ _ Hrun)
    as [Hquiet Hr]; [constructor |].
  exists (trace w). split; [done |].
  destruct r as [e | []]; [right; by exists e | by left].
Qed.

(** ** Sweeps at different times *)

Lemma fresh_earlier now later t :
  now <= later → fresh later t = true → fresh now t = true.
Proof. unfold fresh. lia. Qed.

Lemma hasFreshStampb_earlier now later times :
  now <= later → hasFreshStampb later times = true → hasFreshStampb now times = true.
Proof.
  intros Hle. rewrite !hasFreshStampb_spec. unfold hasFreshStamp.
  intros [H | [(i & t & Ht & Hf) | (mac & t & Ht & Hf)]].
  - left. by eapply fresh_earlier.
  - right; left. exists i, t. split; [done | by eapply fresh_earlier].
  - right; right. exists mac, t. split; [done | by eapply fresh_earlier].
Qed.

Lemma filter_filter_imp {A} (f g : A → bool) (l : list A) :
  (∀ x, f x = true → g x = true) →
  List.filter f (List.filter g l) = List.filter f l.
Proof.
  intros Himp. induction l as [| x l IH]; simpl; [done |].
  destruct (g x) eqn:Hg; simpl.
  - by rewrite IH.
  - destruct (f x) eqn:Hf; [| done]. apply Himp in Hf. congruence.
Qed.

(** X20: A sweep never costs a later report anything: after
    [getClientsForReport] has run at some time, a call at the same or a
    later time finds the same clients and leaves the same registry as
    it would have without the earlier call.  In particular a second
    call at the same time removes nobody. *)
Theorem getClientsForReport_later meta meta' now later srv :
  registryWf srv → now <= later →
  getClientsForReport meta' later (snd (getClientsForReport meta now srv))
  = getClientsForReport meta' later srv.
Proof.
  intros Hwf Hle. unfold registryWf in Hwf.
  rewrite (getClientsForReport_run meta now srv Hwf). cbn [snd].
  rewrite (getClientsForReport_run meta' later srv Hwf).
  rewrite getClientsForReport_run
    by (destruct srv; cbn [clients with_clients]; by apply filter_wf).
  destruct srv as [sock id slots registry]. cbn [clients with_clients].
  rewrite !filter_filter_imp; [done | |].
  - intros [info times] Hf. by apply (hasFreshStampb_earlier now later).
  - intros [info times] Hi. cbn [snd] in *.
    apply (hasFreshStampb_earlier now later); [done |].
    by apply (interestedb_hasFreshStampb meta').
Qed.

(** ** A controller that comes and goes *)

Lemma firstNull_lowest slots k i :
  slots !! i = Some None →
  (∀ j, (j < i)%nat → ∃ s, slots !! j = Some (Some s)) →
  firstNull slots k = Some (k + i)%nat.
Proof.
  revert k i. induction slots as [| slot slots IH]; intros k i Hi Hbefore; [done |].
  destruct i as [| i].
  - injection Hi as ->. simpl. f_equal. lia.
  - destruct (Hbefore 0%nat) as [s Hs]; [lia |]. injection Hs as ->. simpl.
    rewrite (IH (S k) i); [f_equal; lia | done |].
    intros j Hj. apply (Hbefore (S j)). lia.
Qed.

(** X21: A controller added into a slot other than slot 0 is removed again
    by [removeController] with that slot's index: its subscription is
    cancelled and the server is as it was before the controller came. *)
Theorem addController_then_remove controller sub srv i :
  controllers srv !! i = Some None →
  (∀ j, (j < i)%nat → ∃ s, controllers srv !! j = Some (Some s)) →
  (0 < i)%nat →
  addController controller sub srv
  = (true,
     with_controllers (<[i := Some (mkSlot controller sub)]> (controllers srv)) srv)
  ∧ removeController (Some (Z.of_nat i)) (snd (addController controller sub srv))
    = (srv, [EvUnsubscribe sub]).
Proof.
  intros Hi Hbefore Hpos. unfold addController.
  rewrite (firstNull_lowest _ 0 i Hi Hbefore). cbn [Nat.add snd].
  split; [done |].
  pose proof (lookup_lt_Some _ _ _ Hi) as Hlt.
  destruct srv as [sock id slots registry].
  cbn [removeController]. unfold removeControllerAt.
  cbn [controllers with_controllers] in *.
  rewrite length_insert, Nat2Z.id.
  replace ((Z.of_nat i >? 0) && (Z.of_nat i <? Z.of_nat (length slots)))
    with true by lia.
  rewrite list_lookup_insert_eq by done. cbn [subscription].
  rewrite list_insert_insert_eq, list_insert_id by done. done.
Qed.

(** ** From a request to a report *)

Lemma get_In {V} k (m : list (AddressInfo * V)) v :
  JsMap.get k m = Some v → ∃ k', ref k' = ref k ∧ In (k', v) m.
Proof.
  induction m as [| [k' v'] m IH]; simpl; [done |].
  unfold JsMap.sameKey. destruct (ref k =? ref k')%nat eqn:Hk.
  - intros [= <-]. apply Nat.eqb_eq in Hk. exists k'. split; [done | by left].
  - intros Hget. destruct (IH Hget) as (k'' & Href & Hin).
    exists k''. split; [done | by right].
Qed.

(** X22: A client that asks for pad data gets the reports it asked for: when
    an accepted PadDataReq of at least 28 bytes has been handled, and
    the record [registerPadRequest] has stamped makes the client
    interested in a report at the time the report comes, then
    [handleReport], with the socket open and a report whose MAC has six
    groups and whose numbers fit, sends the 100-byte datagram, with a
    valid checksum, to the endpoint registered for that sender. *)
Theorem registration_then_report now later request data clientEndpoint srv sock groups :
  accepted request DSUC_PadDataReq →
  DSUC_PadDataReq ≠ DSUC_VersionReq → DSUC_PadDataReq ≠ DSUC_ListPorts →
  (28 ≤ length request)%nat →
  socket srv = Some sock → registryWf srv →
  length (macParts (DualshockMeta.macAddress (DualshockData.meta data))) = 6%nat →
  reportFits (serverId srv) (DualshockData.report data) →
  macGroups request 22 6 = inr groups →
  interested (DualshockData.meta data) later
    (registerPadRequest now (request !! 20%nat) (request !! 21%nat)
       (Js.join_colon groups)
       (default newClientRequestTimes (JsMap.get clientEndpoint (clients srv)))) →
  ∃ D registered,
    ref registered = ref clientEndpoint ∧ length D = 100%nat ∧ crcOk D
    ∧ In (EvSend D (port registered) (address registered))
        (snd (handleReport later data
                (fst (onMessage now request clientEndpoint srv)))).
Proof.
  intros Hacc Hv Hl Hlen Hsock Hwf Hmac Hfits Hgroups Hint.
  destruct (onMessage_pad_request now request clientEndpoint srv Hacc Hv Hl Hlen)
    as (groups' & Hgroups' & ->).
  assert (groups' = groups) as -> by congruence. clear Hgroups'.
  cbn [fst].
  set (times := registerPadRequest _ _ _ _ _) in *.
  set (registry := JsMap.set clientEndpoint times _).
  assert (JsMap.wf registry) as Hwf'.
  { unfold registry. apply set_wf. destruct (JsMap.has _ _); [done | by apply set_wf]. }
  destruct (get_In clientEndpoint registry times) as (registered & Href & Hin).
  { unfold registry. apply get_set_eq. }
  destruct (padDataPacket_succeeds (serverId srv) data Hmac Hfits) as [D HD].
  exists D, registered. split; [done |].
  pose proof (padDataPacket_framed _ _ _ HD) as (Hcrc & HlenD & _).
  split; [done |]. split; [done |].
  rewrite handleReport_run. destruct srv as [sock' id slots clients0].
  cbn [socket serverId clients with_clients] in *. rewrite Hsock. cbv zeta.
  rewrite getClientsForReport_run by done.
  cbn [fst snd clients with_clients serverId].
  assert (In registered
            (List.map fst
               (List.filter
                  (fun e => interestedb (DualshockData.meta data) later (snd e))
                  registry))) as Hfound.
  { apply in_map_iff. exists (registered, times). split; [done |].
    apply filter_In. split; [done |]. by apply interestedb_spec. }
  destruct (List.map fst _) as [| c found] eqn:Hlist; [done |].
  cbn [length Nat.ltb Nat.leb]. rewrite HD. cbn [snd].
  right. apply in_map_iff. by exists registered.
Qed.

End Server.

(** ** The server run on the sample inputs *)

Abbreviation runOnMessage legacy :=
  (onMessage legacy sampleMaxProtocolVer sampleVersion sampleVersion
     sampleListPorts sampleListPorts samplePadData
     specNewClientRequestTimes specRegisterPadRequest).

Abbreviation runHandleReport legacy :=
  (handleReport legacy sampleTimeout samplePadData).

Example crc32_check_value :
  crc32 [49; 50; 51; 52; 53; 54; 55; 56; 57] = 0xCBF43926.
Proof. vm_compute. reflexivity. Qed.

(** A version request is answered with one 24-byte datagram whose body is
    the reply code and the protocol version. *)
Example version_handshake :
  snd (runOnMessage false 10000 sampleVersionReq peerFirst sampleServer)
  = [EvAlloc 8; EvAlloc 24;
     EvSend [68; 83; 85; 83; 233; 3; 8; 0; 221; 197; 126; 62; 254; 202; 0; 0;
             0; 0; 16; 0; 233; 3; 0; 0] 50000 "127.0.0.1"].
Proof. vm_compute. reflexivity. Qed.

(** The sample report reaches both interested clients. *)
Example sample_report_sent :
  List.map length
    (sentBuffers (snd (runHandleReport false 10000 sampleData sampleBusyServer)))
  = [100%nat; 100%nat].
Proof. vm_compute. reflexivity. Qed.

(** C1, refuted as stated: in the datagram sent for the sample report
    (touch 1 active, id 7, X 0x1234, timestamp low half 0xFFFFFFFE)
    offset 56 is not a zero byte, offset 57 is not the isActive flag,
    offsets 59..60 are not X and offsets 69..72 are not the low half of
    the timestamp. *)
Lemma padData_offset56_not_reserved :
  let first := TrackPad.first (DualshockReport.trackPad sampleReport) in
  ∃ D, In D (sentBuffers
               (snd (runHandleReport false 10000 sampleData sampleBusyServer)))
       ∧ D !! 56%nat ≠ Some 0
       ∧ D !! 57%nat ≠ Some (flag (Touch.isActive first) 1)
       ∧ D !! 58%nat ≠ Some (Touch.id first)
       ∧ Buf.readUInt16LE D 59 ≠ inr (Touch.x first)
       ∧ Buf.readUInt32LE D 69
         ≠ inr (Buf.toUint32 (Long.low (DualshockReport.motionTimestamp sampleReport))).
Proof.
  intros first.
  remember (sentBuffers _) as sent eqn:Hsent. vm_compute in Hsent. subst sent.
  eexists. split; [left; reflexivity |].
  repeat split; vm_compute; discriminate.
Qed.

Lemma padData_touch_layout_witness :
  length (macParts (DualshockMeta.macAddress sampleMeta)) = 6%nat
  ∧ Forall (fun D =>
              length D = 100%nat
              ∧ D !! 55%nat = Some (44 mod 256)
              ∧ D !! 56%nat = Some 1
              ∧ D !! 57%nat = Some (7 mod 256)
              ∧ Buf.readUInt16LE D 58 = inr (0x1234 mod 2 ^ 16)
              ∧ Buf.readUInt32LE D 68 = inr (-2 mod 2 ^ 32))
      (sentBuffers (snd (runHandleReport false 10000 sampleData sampleBusyServer))).
Proof.
  split; [reflexivity |].
  apply (padData_touch_layout false sampleTimeout samplePadData 10000 sampleData
           sampleBusyServer).
  reflexivity.
Defined.

(** C4, refuted as stated: a version request whose magic is "DSUS" is
    malformed, yet the server raises no error event for it. *)
Lemma bad_magic_raises_no_error :
  magicDSUC sampleBadMagic = false
  ∧ (∀ legacy,
       runOnMessage legacy 10000 sampleBadMagic peerFirst sampleServer
       = (sampleServer, []))
  ∧ ¬ ∃ e, In (EvError e)
             (snd (runOnMessage false 10000 sampleBadMagic peerFirst sampleServer)).
Proof.
  split; [vm_compute; reflexivity |]. split.
  - intros legacy. apply onMessage_bad_magic. vm_compute. reflexivity.
  - rewrite onMessage_bad_magic by (vm_compute; reflexivity). by intros [e []].
Qed.

Lemma onMessage_malformed_witness :
  (magicDSUC sampleTooNew = false
   ∨ malformed sampleMaxProtocolVer sampleVersion sampleListPorts sampleTooNew)
  ∧ ∃ evs, runOnMessage false 10000 sampleTooNew peerFirst sampleServer
           = (sampleServer, evs)
           ∧ sentBuffers evs = []
           ∧ (magicDSUC sampleTooNew = true → ∃ e, evs = [EvError e])
           ∧ (magicDSUC sampleTooNew = false → evs = []).
Proof.
  assert (Hbad : magicDSUC sampleTooNew = false
                 ∨ malformed sampleMaxProtocolVer sampleVersion sampleListPorts
                     sampleTooNew).
  { right. left. exists 1002. split; [vm_compute; reflexivity | reflexivity]. }
  split; [exact Hbad |].
  exact (onMessage_malformed false sampleMaxProtocolVer sampleVersion sampleVersion
           sampleListPorts sampleListPorts samplePadData specNewClientRequestTimes
           specRegisterPadRequest 10000 sampleTooNew peerFirst sampleServer Hbad).
Defined.

(** One port-info reply for the occupied slot 0, with the MAC bytes at
    offsets 24..29. *)
Example list_ports_reply :
  snd (runOnMessage false 10000 sampleListPortsReq peerFirst sampleServer)
  = [EvAlloc 16; EvAlloc 32;
     EvSend [68; 83; 85; 83; 233; 3; 16; 0; 238; 193; 252; 142; 254; 202; 0; 0;
             1; 0; 16; 0; 1; 2; 2; 1; 17; 34; 51; 68; 85; 102; 5; 0]
       50000 "127.0.0.1"].
Proof. vm_compute. reflexivity. Qed.

(** The other malformed samples: each raises its own error and nothing
    else. *)
Example malformed_samples_dropped :
  snd (runOnMessage false 10000 sampleListPortsBadIndex peerFirst sampleServer)
  = [EvError (PadIndexOutOfRange 0 7)]
  ∧ snd (runOnMessage false 10000 sampleListPortsBadCount peerFirst sampleServer)
    = [EvError (PadRequestsOutOfRange 5)]
  ∧ snd (runOnMessage false 10000 sampleTampered peerFirst sampleServer)
    = [EvError (CrcMismatch 3078339785 2077342807)].
Proof. repeat split; vm_compute; reflexivity. Qed.

(** The error raised for the sample is the version error. *)
Example too_new_is_dropped :
  runOnMessage false 10000 sampleTooNew peerFirst sampleServer
  = (sampleServer, [EvError (OutdatedProtocol 1002)]).
Proof. vm_compute. reflexivity. Qed.

(** A slot other than the first is emptied and its subscription
    cancelled. *)
Example removeController_valid_slot :
  removeController (Some 2) sampleServer
  = (with_controllers [Some slotA; Some slotB; None; Some slotD] sampleServer,
     [EvUnsubscribe 12]).
Proof. reflexivity. Qed.

(** C6, evaluated: two PadDataReq datagrams from 127.0.0.1:50000 arrive
    with their own endpoint objects.  Whatever ClientRequestTimes does,
    the second request does not find the record made by the first: the
    registry ends with two entries whose address and port are equal, and
    the first record is not updated. *)
Theorem registry_keyed_by_object_identity legacy newTimes register :
  let run := onMessage legacy sampleMaxProtocolVer sampleVersion sampleVersion
               sampleListPorts sampleListPorts samplePadData newTimes register in
  let srv1 := fst (run 10000 samplePadDataReq peerFirst sampleServer) in
  let srv2 := fst (run 10001 samplePadDataReq peerAgain srv1) in
  (address peerFirst, port peerFirst) = (address peerAgain, port peerAgain)
  ∧ clients srv1
    = [(peerFirst, register 10000 (Some 2) (Some 0) "f:f:f:f:f:f"%string newTimes)]
  ∧ clients srv2
    = [(peerFirst, register 10000 (Some 2) (Some 0) "f:f:f:f:f:f"%string newTimes);
       (peerAgain, register 10001 (Some 2) (Some 0) "f:f:f:f:f:f"%string newTimes)].
Proof. split; [reflexivity |]. split; vm_compute; reflexivity. Qed.

(** When the very same endpoint object comes back, its record is found
    and updated in place. *)
Example same_object_updates_record legacy newTimes register :
  let run := onMessage legacy sampleMaxProtocolVer sampleVersion sampleVersion
               sampleListPorts sampleListPorts samplePadData newTimes register in
  clients (fst (run 10001 samplePadDataReq peerFirst
                  (fst (run 10000 samplePadDataReq peerFirst sampleServer))))
  = [(peerFirst,
      register 10001 (Some 2) (Some 0) "f:f:f:f:f:f"%string
        (register 10000 (Some 2) (Some 0) "f:f:f:f:f:f"%string newTimes))].
Proof. vm_compute. reflexivity. Qed.

(** The duplicate entries make [handleReport] send every report twice to
    the same peer. *)
Example duplicate_entries_double_sends :
  List.map (fun ev => match ev with EvSend _ p a => Some (a, p) | _ => None end)
    (snd (runHandleReport false 10000 sampleData sampleBusyServer))
  = [None; Some ("127.0.0.1"%string, 50000); Some ("127.0.0.1"%string, 50000)].
Proof. vm_compute. reflexivity. Qed.

Lemma getClientsForReport_exact_witness :
  JsMap.wf (clients sampleBusyServer)
  ∧ fst (getClientsForReport sampleTimeout sampleMeta 10000 sampleBusyServer)
    = [peerFirst; peerAgain]
  ∧ clients (snd (getClientsForReport sampleTimeout sampleMeta 10000 sampleBusyServer))
    = [(peerFirst, timesAll); (peerAgain, timesPad1)].
Proof.
  assert (Hwf : JsMap.wf (clients sampleBusyServer)).
  { unfold JsMap.wf. apply (bool_decide_unpack _). vm_compute. exact I. }
  split; [exact Hwf |].
  destruct (getClientsForReport_exact sampleTimeout sampleMeta 10000 sampleBusyServer Hwf)
    as (Hfound & _ & Hleft & _).
  split; [rewrite Hfound | rewrite Hleft]; reflexivity.
Defined.

(** C8, evaluated: the group built for byte 0x0f is "f", not "0f", so the
    key registered for MAC 0f:0f:0f:0f:0f:0f is "f:f:f:f:f:f"; 15 is the
    only byte whose group is not its two-digit lowercase form. *)
Theorem mac_group_of_0f_unpadded :
  macGroup (Some 15) = inr "f"%string
  ∧ canonicalGroup 15 = "0f"%string
  ∧ (macGroups samplePadDataReq 22 6 ≫= fun groups => mret (Js.join_colon groups))
    = inr "f:f:f:f:f:f"%string
  ∧ List.filter (fun byte => negb (groupIsCanonical byte))
      (List.map Z.of_nat (seq 0 256))
    = [15].
Proof. repeat split; vm_compute; reflexivity. Qed.

(** With the registration method as the spec describes it, a client that
    subscribes by MAC 0f:0f:0f:0f:0f:0f is not found for the controller
    with that MAC. *)
Example subscription_by_mac_0f_is_lost :
  let srv := fst (runOnMessage false 10000 samplePadDataReq peerFirst sampleServer) in
  let meta := DualshockMeta.mk 0 2 2 1 "0f:0f:0f:0f:0f:0f" 5 true in
  fst (getClientsForReport sampleTimeout meta 10001 srv) = [].
Proof. vm_compute. reflexivity. Qed.

(** For a draw below 2^32 the header carries the server id. *)
Example serverId_in_header legacy :
  (beginPacket legacy 0xCAFE (Buf.alloc 16) 1001
     ≫= fun r => Buf.readUInt32LE (fst r) 12)
  = inr 0xCAFE.
Proof. destruct legacy; vm_compute; reflexivity. Qed.

Lemma handleReport_socket_null_witness :
  socket (stop sampleBusyServer) = None
  ∧ runHandleReport false 10000 sampleData (stop sampleBusyServer)
    = (stop sampleBusyServer, []).
Proof.
  split; [reflexivity |].
  apply (handleReport_socket_null false sampleTimeout samplePadData 10000 sampleData
           (stop sampleBusyServer)).
  reflexivity.
Defined.

(** ** The further properties on the sample inputs *)

Ltac sample_accepted v :=
  unfold accepted, isBytes;
  split; [apply (bool_decide_unpack _); vm_compute; exact I |];
  split; [vm_compute; reflexivity |];
  split; [exists v; split; [vm_compute; reflexivity | vm_compute; discriminate] |];
  split; vm_compute; reflexivity.

Ltac sample_registry :=
  unfold registryWf, JsMap.wf; apply (bool_decide_unpack _); vm_compute; exact I.

Lemma addController_then_remove_witness :
  controllers sampleBusyServer !! 1%nat = Some None
  ∧ (0 < 1)%nat
  ∧ removeController (Some 1)
      (snd (addController (mkController 104%nat None) 14%nat sampleBusyServer))
    = (sampleBusyServer, [EvUnsubscribe 14]).
Proof.
  split; [reflexivity |]. split; [lia |].
  apply (addController_then_remove (mkController 104%nat None) 14%nat
           sampleBusyServer 1%nat).
  - reflexivity.
  - intros j Hj. assert (j = 0%nat) as -> by lia. by exists slotA.
  - lia.
Defined.

Lemma beginPacket_header_witness :
  (16 <= length (Buf.alloc 100))%nat
  ∧ ∃ b, beginPacket false 0xCAFE (Buf.alloc 100) 1001 = inr (b, 16%nat)
         ∧ length b = length (Buf.alloc 100)
         ∧ take 4 b = [68; 83; 85; 83]
         ∧ Buf.readUInt16LE b 4 = inr 1001
         ∧ Buf.readUInt16LE b 6 = inr (Z.of_nat (length (Buf.alloc 100)) - 16)
         ∧ Buf.readUInt32LE b 8 = inr 0
         ∧ Buf.readUInt32LE b 12 = inr 0xCAFE
         ∧ ∀ i, (16 <= i)%nat → b !! i = Buf.alloc 100 !! i.
Proof.
  split; [vm_compute; lia |].
  apply (beginPacket_header false 0xCAFE (Buf.alloc 100) 1001);
    vm_compute; (lia || (split; congruence)).
Defined.

Lemma sendPacket_datagram_witness :
  socket sampleServer = Some 1%nat
  ∧ ∃ D, sendPacket false peerFirst [1; 2; 3; 4; 5; 6; 7; 8] 1001
           (mkWorld sampleServer [])
         = (inr tt,
            mkWorld sampleServer
              [EvAlloc 24; EvSend D (port peerFirst) (address peerFirst)])
         ∧ length D = 24%nat
         ∧ take 4 D = [68; 83; 85; 83]
         ∧ Buf.readUInt16LE D 4 = inr 1001
         ∧ Buf.readUInt16LE D 6 = inr 8
         ∧ Buf.readUInt32LE D 12 = inr 0xCAFE
         ∧ crcOk D
         ∧ drop 16 D = [1; 2; 3; 4; 5; 6; 7; 8].
Proof.
  split; [reflexivity |].
  apply (sendPacket_datagram false peerFirst [1; 2; 3; 4; 5; 6; 7; 8] 1001
           (mkWorld sampleServer []) 1%nat);
    [reflexivity | | |]; vm_compute; (lia || (split; congruence)).
Defined.

Lemma onMessage_unknown_type_witness :
  accepted sampleMaxProtocolVer sampleUnknownType 0x100003
  ∧ runOnMessage false 10000 sampleUnknownType peerFirst sampleServer
    = (sampleServer, []).
Proof.
  assert (Hacc : accepted sampleMaxProtocolVer sampleUnknownType 0x100003)
    by sample_accepted 1001.
  split; [exact Hacc |].
  apply (onMessage_unknown_type false sampleMaxProtocolVer sampleVersion
           sampleVersion sampleListPorts sampleListPorts samplePadData
           specNewClientRequestTimes specRegisterPadRequest 10000
           sampleUnknownType peerFirst sampleServer 0x100003 Hacc);
    vm_compute; discriminate.
Defined.

Lemma onMessage_version_reply_witness :
  accepted sampleMaxProtocolVer sampleVersionReq sampleVersion
  ∧ ∃ D, runOnMessage false 10000 sampleVersionReq peerFirst sampleServer
         = (sampleServer,
            [EvAlloc 8; EvAlloc 24; EvSend D (port peerFirst) (address peerFirst)])
         ∧ length D = 24%nat
         ∧ take 4 D = [68; 83; 85; 83]
         ∧ Buf.readUInt16LE D 4 = inr 1001
         ∧ Buf.readUInt16LE D 6 = inr 8
         ∧ Buf.readUInt32LE D 12 = inr (serverId sampleServer)
         ∧ Buf.readUInt32LE D 16 = inr sampleVersion
         ∧ Buf.readUInt32LE D 20 = inr sampleMaxProtocolVer
         ∧ crcOk D.
Proof.
  assert (Hacc : accepted sampleMaxProtocolVer sampleVersionReq sampleVersion)
    by sample_accepted 1001.
  split; [exact Hacc |].
  apply (onMessage_version_reply false sampleMaxProtocolVer sampleVersion
           sampleVersion sampleListPorts sampleListPorts samplePadData
           specNewClientRequestTimes specRegisterPadRequest 10000
           sampleVersionReq peerFirst sampleServer 1%nat Hacc);
    [reflexivity | | |]; vm_compute; split; congruence.
Defined.

Lemma onMessage_registers_witness :
  accepted sampleMaxProtocolVer samplePadDataReq samplePadData
  ∧ (28 <= length samplePadDataReq)%nat
  ∧ ∃ groups,
      macGroups samplePadDataReq 22 6 = inr groups
      ∧ snd (runOnMessage false 10000 samplePadDataReq peerFirst sampleBusyServer)
        = []
      ∧ let srv' :=
          fst (runOnMessage false 10000 samplePadDataReq peerFirst sampleBusyServer) in
        JsMap.get peerFirst (clients srv')
        = Some (specRegisterPadRequest 10000 (samplePadDataReq !! 20%nat)
                  (samplePadDataReq !! 21%nat) (Js.join_colon groups)
                  (default specNewClientRequestTimes
                     (JsMap.get peerFirst (clients sampleBusyServer))))
        ∧ (∀ other, ref other ≠ ref peerFirst →
                    JsMap.get other (clients srv')
                    = JsMap.get other (clients sampleBusyServer))
        ∧ socket srv' = socket sampleBusyServer
        ∧ serverId srv' = serverId sampleBusyServer
        ∧ controllers srv' = controllers sampleBusyServer.
Proof.
  assert (Hacc : accepted sampleMaxProtocolVer samplePadDataReq samplePadData)
    by sample_accepted 1001.
  assert (Hlen : (28 <= length samplePadDataReq)%nat) by (vm_compute; lia).
  split; [exact Hacc |]. split; [exact Hlen |].
  apply (onMessage_registers false sampleMaxProtocolVer sampleVersion
           sampleVersion sampleListPorts sampleListPorts samplePadData
           specNewClientRequestTimes specRegisterPadRequest 10000
           samplePadDataReq peerFirst sampleBusyServer Hacc);
    [vm_compute; discriminate | vm_compute; discriminate | exact Hlen].
Defined.

Lemma onMessage_short_pad_request_witness :
  accepted sampleMaxProtocolVer sampleShortPadDataReq samplePadData
  ∧ (length sampleShortPadDataReq < 28)%nat
  ∧ runOnMessage false 10000 sampleShortPadDataReq peerFirst sampleBusyServer
    = (sampleBusyServer, [EvError TypeError]).
Proof.
  assert (Hacc : accepted sampleMaxProtocolVer sampleShortPadDataReq samplePadData)
    by sample_accepted 1001.
  assert (Hlen : (length sampleShortPadDataReq < 28)%nat) by (vm_compute; lia).
  split; [exact Hacc |]. split; [exact Hlen |].
  apply (onMessage_short_pad_request false sampleMaxProtocolVer sampleVersion
           sampleVersion sampleListPorts sampleListPorts samplePadData
           specNewClientRequestTimes specRegisterPadRequest 10000
           sampleShortPadDataReq peerFirst sampleBusyServer Hacc);
    [vm_compute; discriminate | vm_compute; discriminate | exact Hlen].
Defined.


Lemma onMessage_errors_witness :
  isBytes sampleListPortsBadIndex
  ∧ ∃ evs, Forall quiet evs
           ∧ (snd (runOnMessage false 10000 sampleListPortsBadIndex peerFirst
                     sampleServer) = evs
              ∨ ∃ e, snd (runOnMessage false 10000 sampleListPortsBadIndex peerFirst
                            sampleServer) = evs ++ [EvError e]
                     ∧ onMessageError sampleMaxProtocolVer e).
Proof.
  assert (Hbytes : isBytes sampleListPortsBadIndex)
    by (unfold isBytes; apply (bool_decide_unpack _); vm_compute; exact I).
  split; [exact Hbytes |].
  apply (onMessage_errors false sampleMaxProtocolVer sampleVersion
           sampleVersion sampleListPorts sampleListPorts samplePadData
           specNewClientRequestTimes specRegisterPadRequest 10000
           sampleListPortsBadIndex peerFirst sampleServer Hbytes).
Defined.

Lemma padData_identification_witness :
  length (macParts (DualshockMeta.macAddress (DualshockData.meta sampleData)))
  = 6%nat
  ∧ Forall (padIdentification samplePadData (serverId sampleBusyServer) sampleData)
      (sentBuffers (snd (runHandleReport false 10000 sampleData sampleBusyServer))).
Proof.
  split; [reflexivity |].
  apply (padData_identification false sampleTimeout samplePadData 10000 sampleData
           sampleBusyServer).
  reflexivity.
Defined.

Lemma padData_buttons_witness :
  length (macParts (DualshockMeta.macAddress (DualshockData.meta sampleData)))
  = 6%nat
  ∧ Forall (padButtons (DualshockData.report sampleData))
      (sentBuffers (snd (runHandleReport false 10000 sampleData sampleBusyServer))).
Proof.
  split; [reflexivity |].
  apply (padData_buttons false sampleTimeout samplePadData 10000 sampleData
           sampleBusyServer).
  reflexivity.
Defined.

Lemma padData_motion_witness :
  length (macParts (DualshockMeta.macAddress (DualshockData.meta sampleData)))
  = 6%nat
  ∧ Forall (padMotion (DualshockData.report sampleData))
      (sentBuffers (snd (runHandleReport false 10000 sampleData sampleBusyServer))).
Proof.
  split; [reflexivity |].
  apply (padData_motion false sampleTimeout samplePadData 10000 sampleData
           sampleBusyServer).
  reflexivity.
Defined.

Ltac sample_fits :=
  unfold reportFits; cbv zeta; vm_compute; repeat split; congruence.

Lemma handleReport_delivers_witness :
  registryWf sampleBusyServer
  ∧ reportFits samplePadData (serverId sampleBusyServer)
      (DualshockData.report sampleData)
  ∧ List.map fst
      (List.filter
         (fun e => interestedb sampleTimeout (DualshockData.meta sampleData) 10000
                     (snd e))
         (clients sampleBusyServer))
    = [peerFirst; peerAgain]
  ∧ ∃ D,
      runHandleReport false 10000 sampleData sampleBusyServer
      = (with_clients
           (List.filter (fun e => hasFreshStampb sampleTimeout 10000 (snd e))
              (clients sampleBusyServer))
           sampleBusyServer,
         EvAlloc 100
         :: List.map (fun client => EvSend D (port client) (address client))
              (List.map fst
                 (List.filter
                    (fun e => interestedb sampleTimeout
                                (DualshockData.meta sampleData) 10000 (snd e))
                    (clients sampleBusyServer))))
      ∧ length D = 100%nat ∧ crcOk D.
Proof.
  assert (Hwf : registryWf sampleBusyServer) by sample_registry.
  assert (Hfits : reportFits samplePadData (serverId sampleBusyServer)
                    (DualshockData.report sampleData)) by sample_fits.
  assert (Hfound : List.map fst
                     (List.filter
                        (fun e => interestedb sampleTimeout
                                    (DualshockData.meta sampleData) 10000 (snd e))
                        (clients sampleBusyServer))
                   = [peerFirst; peerAgain]) by (vm_compute; reflexivity).
  split; [exact Hwf |]. split; [exact Hfits |]. split; [exact Hfound |].
  apply (handleReport_delivers false sampleTimeout samplePadData 10000 sampleData
           sampleBusyServer 1%nat);
    [reflexivity | exact Hwf | reflexivity | exact Hfits |].
  rewrite Hfound. discriminate.
Defined.

Lemma handleReport_idle_witness :
  registryWf sampleStaleServer
  ∧ List.filter
      (fun e => interestedb sampleTimeout (DualshockData.meta sampleData) 10000
                  (snd e))
      (clients sampleStaleServer) = []
  ∧ runHandleReport false 10000 sampleData sampleStaleServer
    = (with_clients
         (List.filter (fun e => hasFreshStampb sampleTimeout 10000 (snd e))
            (clients sampleStaleServer))
         sampleStaleServer, []).
Proof.
  assert (Hwf : registryWf sampleStaleServer) by sample_registry.
  assert (Hnone : List.filter
                    (fun e => interestedb sampleTimeout
                                (DualshockData.meta sampleData) 10000 (snd e))
                    (clients sampleStaleServer) = [])
    by (vm_compute; reflexivity).
  split; [exact Hwf |]. split; [exact Hnone |].
  exact (handleReport_idle false sampleTimeout samplePadData 10000 sampleData
           sampleStaleServer 1%nat eq_refl Hwf Hnone).
Defined.

Lemma handleReport_range_error_witness :
  registryWf sampleBusyServer
  ∧ ¬ reportFits samplePadData (serverId sampleBusyServer)
        (DualshockData.report sampleWideData)
  ∧ runHandleReport false 10000 sampleWideData sampleBusyServer
    = (with_clients
         (List.filter (fun e => hasFreshStampb sampleTimeout 10000 (snd e))
            (clients sampleBusyServer))
         sampleBusyServer,
       [EvAlloc 100; EvError RangeError]).
Proof.
  assert (Hwf : registryWf sampleBusyServer) by sample_registry.
  assert (Hbad : ¬ reportFits samplePadData (serverId sampleBusyServer)
                     (DualshockData.report sampleWideData)).
  { unfold reportFits. cbv zeta. intros (_ & _ & _ & [_ Hx] & _).
    vm_compute in Hx. congruence. }
  split; [exact Hwf |]. split; [exact Hbad |].
  apply (handleReport_range_error false sampleTimeout samplePadData 10000
           sampleWideData sampleBusyServer 1%nat eq_refl eq_refl Hwf);
    [| exact Hbad].
  vm_compute. discriminate.
Defined.

Lemma getClientsForReport_later_witness :
  registryWf sampleBusyServer
  ∧ 10000 <= 12000
  ∧ getClientsForReport sampleTimeout sampleMeta 12000
      (snd (getClientsForReport sampleTimeout sampleMeta 10000 sampleBusyServer))
    = getClientsForReport sampleTimeout sampleMeta 12000 sampleBusyServer.
Proof.
  assert (Hwf : registryWf sampleBusyServer) by sample_registry.
  assert (Hle : 10000 <= 12000) by (vm_compute; discriminate).
  split; [exact Hwf |]. split; [exact Hle |].
  exact (getClientsForReport_later sampleTimeout sampleMeta sampleMeta 10000 12000
           sampleBusyServer Hwf Hle).
Defined.

Lemma registration_then_report_witness :
  accepted sampleMaxProtocolVer samplePadDataReqAll samplePadData
  ∧ macGroups samplePadDataReqAll 22 6
    = inr ["00"; "00"; "00"; "00"; "00"; "00"]%string
  ∧ ∃ D registered,
      ref registered = ref peerOther ∧ length D = 100%nat ∧ crcOk D
      ∧ In (EvSend D (port registered) (address registered))
          (snd (runHandleReport false 12000 sampleData
                  (fst (runOnMessage false 10000 samplePadDataReqAll peerOther
                          sampleBusyServer)))).
Proof.
  assert (Hacc : accepted sampleMaxProtocolVer samplePadDataReqAll samplePadData)
    by sample_accepted 1001.
  assert (Hgroups : macGroups samplePadDataReqAll 22 6
                    = inr ["00"; "00"; "00"; "00"; "00"; "00"]%string)
    by (vm_compute; reflexivity).
  split; [exact Hacc |]. split; [exact Hgroups |].
  apply (registration_then_report false sampleMaxProtocolVer sampleTimeout
           sampleVersion sampleVersion sampleListPorts sampleListPorts
           samplePadData samplePadData specNewClientRequestTimes
           specRegisterPadRequest 10000 12000 samplePadDataReqAll sampleData
           peerOther sampleBusyServer 1%nat
           ["00"; "00"; "00"; "00"; "00"; "00"]%string Hacc).
  - vm_compute; discriminate.
  - vm_compute; discriminate.
  - vm_compute; lia.
  - reflexivity.
  - sample_registry.
  - reflexivity.
  - sample_fits.
  - exact Hgroups.
  - left. vm_compute. reflexivity.
Defined.
